(** * ReadBuffer: the streaming read buffer of the Pico WAV player

    A shallow embedding of [lib/PlayAudio/ReadBuffer.cpp].  The consumer
    side (the Primary Buffer with [bind], [fill], [shift], [tell], [seek])
    is embedded as functions on the object's fields; the producer side
    ([fillLoop], which runs on the second core) is embedded as a step
    function over its program points, so that the two cores interleave at
    the granularity of single queue operations.

    The battery monitor of [src/power_manage.cpp] and the battery icon and
    the play screen of [src/LcdCanvas.cpp] follow, with the calls they make
    to code outside these files listed in order. *)

From Stdlib Require Import ZArith List Bool Lia.
Import ListNotations.
Local Open Scope Z_scope.

(** ** Machine integers

    [size_t] is 32 bits wide on the RP2040.  Values are kept in [Z] and
    every arithmetic operation of the source wraps explicitly. *)

Definition SIZE_MODULUS : Z := 2 ^ 32.

Definition size_add (a b : Z) : Z := (a + b) mod SIZE_MODULUS.
Definition size_sub (a b : Z) : Z := (a - b) mod SIZE_MODULUS.

Definition is_size_t (a : Z) : Prop := 0 <= a < SIZE_MODULUS.

(** ** Outcomes

    A call completes with a value, or touches memory outside the object
    it was handed (which C leaves undefined), or has not returned because
    it waits on the other core. *)

Inductive outcome (A : Type) : Type :=
| Done (a : A)
| Undefined
| Blocked.
Arguments Done {A} a.
Arguments Undefined {A}.
Arguments Blocked {A}.

Definition obind {A B : Type} (o : outcome A) (k : A -> outcome B) : outcome B :=
  match o with
  | Done a => k a
  | Undefined => Undefined
  | Blocked => Blocked
  end.

Notation "x <- e ;; k" := (obind e (fun x => k))
  (at level 61, e at next level, right associativity).

(** ** Memory objects

    An allocation is a base address and the bytes behind it.  [memmove],
    [memcpy] and [memset] are defined when every byte they touch lies in
    the allocation they were given. *)

Definition byte := Byte.byte.

Record Mem : Type := { base : Z; cells : list byte }.

Definition extent (m : Mem) : Z := Z.of_nat (length (cells m)).

Definition inside (m : Mem) (p n : Z) : bool :=
  (base m <=? p) && (0 <=? n) && (p + n <=? base m + extent m).

Definition load (m : Mem) (p n : Z) : list byte :=
  firstn (Z.to_nat n) (skipn (Z.to_nat (p - base m)) (cells m)).

Definition store (m : Mem) (p : Z) (bs : list byte) : Mem :=
  {| base := base m;
     cells := firstn (Z.to_nat (p - base m)) (cells m) ++ bs
              ++ skipn (Z.to_nat (p - base m) + length bs) (cells m) |}.

Definition memmove (m : Mem) (dst src n : Z) : outcome Mem :=
  if inside m dst n && inside m src n
  then Done (store m dst (load m src n))
  else Undefined.

Definition memcpy (m : Mem) (dst : Z) (from : Mem) (src n : Z) : outcome Mem :=
  if inside m dst n && inside from src n
  then Done (store m dst (load from src n))
  else Undefined.

Definition memset (m : Mem) (dst : Z) (c : byte) (n : Z) : outcome Mem :=
  if inside m dst n
  then Done (store m dst (repeat c (Z.to_nat n)))
  else Undefined.

Definition calloc (addr n : Z) : Mem :=
  {| base := addr; cells := repeat Byte.x00 (Z.to_nat n) |}.

(** ** Queues (pico-sdk [queue_t])

    The channels between the two cores, as the pico-sdk documents them: a
    bounded FIFO, [element_count] being the capacity given to
    [queue_init]; [queue_try_add] refuses to add to a full queue and
    [queue_remove_blocking] waits on an empty one. *)

Record queue_t (A : Type) : Type :=
  { elements : list A; element_count : Z }.
Arguments elements {A} q.
Arguments element_count {A} q.

Definition queue_init {A : Type} (count : Z) : queue_t A :=
  {| elements := []; element_count := count |}.

Definition queue_get_level {A : Type} (q : queue_t A) : Z :=
  Z.of_nat (length (elements q)).

Definition queue_is_empty {A : Type} (q : queue_t A) : bool :=
  queue_get_level q =? 0.

Definition queue_is_full {A : Type} (q : queue_t A) : bool :=
  element_count q <=? queue_get_level q.

Definition queue_try_add {A : Type} (q : queue_t A) (x : A) : bool * queue_t A :=
  if queue_is_full q then (false, q)
  else (true, {| elements := elements q ++ [x]; element_count := element_count q |}).

(** On an empty queue the caller stays blocked. *)
Definition queue_remove_blocking {A : Type} (q : queue_t A) : outcome (A * queue_t A) :=
  match elements q with
  | [] => Blocked
  | x :: rest => Done (x, {| elements := rest; element_count := element_count q |})
  end.

(** ** Messages

    The two structures are declared in ReadBuffer.h; their fields are
    those the member functions read and write. *)

(** A [FIL*]: the address of a file object kept by the file system. *)
Definition FILptr := Z.

Record bindReq_t : Type := { req_fp : FILptr; req_flag : bool }.

(** [ptr], [pos], [length], [reachedEof] of [secondaryBufferItem_t]. *)
Record secondaryBufferItem_t : Type :=
  { item_ptr : Z; item_pos : Z; item_length : Z; item_reachedEof : bool }.

(** ** The ReadBuffer object

    The data members (declared in ReadBuffer.h, all counts taken to be
    [size_t]), the [calloc]ed storage behind [_head], and the secondary
    storage and the three queues the member functions use. *)

Record ReadBuffer : Type :=
  { _fp : FILptr;
    _size : Z;
    _left : Z;
    _fillThreshold : Z;
    _isEof : bool;
    _head : Z;
    _ptr : Z;
    _pos : Z;
    primary : Mem;
    secondaryBuffer : Mem;
    bindReqQueue : queue_t bindReq_t;
    bindRespQueue : queue_t bindReq_t;
    secondaryBufferQueue : queue_t secondaryBufferItem_t }.

Definition with_bindReqQueue (q : queue_t bindReq_t) (rb : ReadBuffer) : ReadBuffer :=
  {| _fp := _fp rb; _size := _size rb; _left := _left rb;
     _fillThreshold := _fillThreshold rb; _isEof := _isEof rb;
     _head := _head rb; _ptr := _ptr rb; _pos := _pos rb;
     primary := primary rb; secondaryBuffer := secondaryBuffer rb;
     bindReqQueue := q; bindRespQueue := bindRespQueue rb;
     secondaryBufferQueue := secondaryBufferQueue rb |}.

Definition with_bindRespQueue (q : queue_t bindReq_t) (rb : ReadBuffer) : ReadBuffer :=
  {| _fp := _fp rb; _size := _size rb; _left := _left rb;
     _fillThreshold := _fillThreshold rb; _isEof := _isEof rb;
     _head := _head rb; _ptr := _ptr rb; _pos := _pos rb;
     primary := primary rb; secondaryBuffer := secondaryBuffer rb;
     bindReqQueue := bindReqQueue rb; bindRespQueue := q;
     secondaryBufferQueue := secondaryBufferQueue rb |}.

Definition with_secondaryBufferQueue (q : queue_t secondaryBufferItem_t)
    (rb : ReadBuffer) : ReadBuffer :=
  {| _fp := _fp rb; _size := _size rb; _left := _left rb;
     _fillThreshold := _fillThreshold rb; _isEof := _isEof rb;
     _head := _head rb; _ptr := _ptr rb; _pos := _pos rb;
     primary := primary rb; secondaryBuffer := secondaryBuffer rb;
     bindReqQueue := bindReqQueue rb; bindRespQueue := bindRespQueue rb;
     secondaryBufferQueue := q |}.

Definition with_secondaryBuffer (m : Mem) (rb : ReadBuffer) : ReadBuffer :=
  {| _fp := _fp rb; _size := _size rb; _left := _left rb;
     _fillThreshold := _fillThreshold rb; _isEof := _isEof rb;
     _head := _head rb; _ptr := _ptr rb; _pos := _pos rb;
     primary := primary rb; secondaryBuffer := m;
     bindReqQueue := bindReqQueue rb; bindRespQueue := bindRespQueue rb;
     secondaryBufferQueue := secondaryBufferQueue rb |}.

(** [ReadBuffer::ReadBuffer], with the two constants of PlayAudio.h as
    arguments: [_pos] and [_fp] have no initialiser, so whatever the
    members held is passed in.  The queues are set up by [fillLoop]. *)
Definition ReadBuffer_new (RDBUF_SIZE RDBUF_THRESHOLD : Z) (addr : Z)
    (fp0 : FILptr) (pos0 : Z) (sb : Mem) : ReadBuffer :=
  {| _fp := fp0; _size := RDBUF_SIZE; _left := 0;
     _fillThreshold := RDBUF_THRESHOLD; _isEof := false;
     _head := addr; _ptr := addr; _pos := pos0;
     primary := calloc addr RDBUF_SIZE; secondaryBuffer := sb;
     bindReqQueue := queue_init 0; bindRespQueue := queue_init 0;
     secondaryBufferQueue := queue_init 0 |}.

(** ** Consumer API *)

Definition buf (rb : ReadBuffer) : Z := _ptr rb.

Definition bind (fp : FILptr) (rb : ReadBuffer) : ReadBuffer :=
  {| _fp := fp; _size := _size rb; _left := 0;
     _fillThreshold := _fillThreshold rb; _isEof := false;
     _head := _head rb; _ptr := _head rb; _pos := _pos rb;
     primary := primary rb; secondaryBuffer := secondaryBuffer rb;
     bindReqQueue := bindReqQueue rb; bindRespQueue := bindRespQueue rb;
     secondaryBufferQueue := secondaryBufferQueue rb |}.

(** The state [fill] leaves once the three copies have produced [m]. *)
Definition filled (rb : ReadBuffer) (item : secondaryBufferItem_t)
    (q : queue_t secondaryBufferItem_t) (m : Mem) : ReadBuffer :=
  {| _fp := _fp rb; _size := _size rb;
     _left := size_add (_left rb) (item_length item);
     _fillThreshold := _fillThreshold rb;
     _isEof := item_reachedEof item;
     _head := _head rb; _ptr := _head rb; _pos := item_pos item;
     primary := m; secondaryBuffer := secondaryBuffer rb;
     bindReqQueue := bindReqQueue rb; bindRespQueue := bindRespQueue rb;
     secondaryBufferQueue := q |}.

Definition fill (rb : ReadBuffer) : outcome (bool * ReadBuffer) :=
  if _isEof rb then Done (false, rb)
  else if queue_is_empty (secondaryBufferQueue rb) then
    (* printf("ERROR: ReadBuffer::secondaryBuffer is empty") *)
    Done (false, rb)
  else
    r <- queue_remove_blocking (secondaryBufferQueue rb) ;;
    let item := fst r in
    m1 <- memmove (primary rb) (_head rb) (_ptr rb) (_left rb) ;;
    let space := size_sub (_size rb) (_left rb) in
    m2 <- memcpy m1 (_head rb + _left rb)
                 (secondaryBuffer rb) (item_ptr item) (item_length item) ;;
    let left' := size_add (_left rb) (item_length item) in
    m3 <- (if item_length item <? space
           then memset m2 (_head rb + left') Byte.x00
                       (size_sub space (item_length item))
           else Done m2) ;;
    Done (true, filled rb item (snd r) m3).

(** [fill] in two parts, as the other core sees it: the two tests and
    the dequeue of l.63-69, which frees the slot of the item taken, and
    the copies of l.70-80, which read that slot. *)
Definition fill_take (rb : ReadBuffer)
  : option (secondaryBufferItem_t * ReadBuffer) :=
  if _isEof rb then None
  else if queue_is_empty (secondaryBufferQueue rb) then None
  else
    match queue_remove_blocking (secondaryBufferQueue rb) with
    | Done (item, q) => Some (item, with_secondaryBufferQueue q rb)
    | _ => None
    end.

Definition fill_copy (item : secondaryBufferItem_t) (rb : ReadBuffer)
  : outcome (bool * ReadBuffer) :=
  m1 <- memmove (primary rb) (_head rb) (_ptr rb) (_left rb) ;;
  let space := size_sub (_size rb) (_left rb) in
  m2 <- memcpy m1 (_head rb + _left rb)
               (secondaryBuffer rb) (item_ptr item) (item_length item) ;;
  let left' := size_add (_left rb) (item_length item) in
  m3 <- (if item_length item <? space
         then memset m2 (_head rb + left') Byte.x00
                     (size_sub space (item_length item))
         else Done m2) ;;
  Done (true, filled rb item (secondaryBufferQueue rb) m3).

(** The cursor and the count after [bytes] have been consumed. *)
Definition advanced (bytes : Z) (rb : ReadBuffer) : ReadBuffer :=
  {| _fp := _fp rb; _size := _size rb;
     _left := size_sub (_left rb) bytes;
     _fillThreshold := _fillThreshold rb; _isEof := _isEof rb;
     _head := _head rb; _ptr := _ptr rb + bytes; _pos := _pos rb;
     primary := primary rb; secondaryBuffer := secondaryBuffer rb;
     bindReqQueue := bindReqQueue rb; bindRespQueue := bindRespQueue rb;
     secondaryBufferQueue := secondaryBufferQueue rb |}.

Definition shift (bytes : Z) (rb : ReadBuffer) : outcome (bool * ReadBuffer) :=
  if _left rb <? bytes then Done (false, rb)
  else
    let rb1 := advanced bytes rb in
    if _left rb1 <? _fillThreshold rb1
    then r <- fill rb1 ;; Done (true, snd r)
    else Done (true, rb1).

Definition shiftAll (rb : ReadBuffer) : outcome (bool * ReadBuffer) :=
  shift (_left rb) rb.

Definition getLeft (rb : ReadBuffer) : Z := _left rb.

Definition tell (rb : ReadBuffer) : Z := size_sub (_pos rb) (_left rb).

(** ** The file system (FatFs), as the opaque interface the code calls

    [f_read fs fp btr] gives the result code, the bytes it put into the
    caller's buffer (so [br] is their number) and the file system after
    the call.  FatFs never writes more than [btr] bytes.  Of the result
    codes only [FR_OK] is told apart by the code. *)

Inductive FRESULT : Type :=
| FR_OK | FR_DISK_ERR | FR_INT_ERR | FR_NOT_READY | FR_DENIED
| FR_INVALID_OBJECT | FR_TIMEOUT.

Definition is_FR_OK (fr : FRESULT) : bool :=
  match fr with FR_OK => true | _ => false end.

Class FatFs (FS : Type) : Type :=
  { f_read : FS -> FILptr -> Z -> FRESULT * list byte * FS;
    f_lseek : FS -> FILptr -> Z -> FRESULT * FS;
    f_tell : FS -> FILptr -> Z;
    f_eof : FS -> FILptr -> bool }.

(** ** The Fill Loop ([ReadBuffer::fillLoop], core 1)

    The program points at which the loop can be found between two of its
    accesses to the shared queues, named after what it is about to do. *)

Inductive pc_t : Type :=
| Idle        (* l.144-145: wait for a bind request and take it *)
| Requested   (* l.146-151: bind to the file if the request connects *)
| Respond     (* l.152-153: acknowledge, then stream or wait again *)
| Streaming   (* l.155: test of while (!reachedEof) *)
| TopUp       (* l.157: test of while (level < NUM_SECONDARY_BUFFERS) *)
| Reading     (* l.160-167: f_read into the slot, build the item *)
| Publish     (* l.168-170: queue the item, advance the slot index *)
| Poll        (* l.173-175: look for a bind request, take it *)
| Draining    (* l.176-178: discard the queued items *)
| Respond2    (* l.180-181: acknowledge, then leave or go on *)
| Returned.   (* l.161: the function has returned *)

(** The locals of [fillLoop] and where it stands. *)
Record FillLoop : Type :=
  { loop_id : Z;
    loop_pos : Z;
    loop_fp : FILptr;
    loop_reachedEof : bool;
    loop_req : bindReq_t;
    loop_item : secondaryBufferItem_t;
    pc : pc_t }.

Definition at_pc (p : pc_t) (l : FillLoop) : FillLoop :=
  {| loop_id := loop_id l; loop_pos := loop_pos l; loop_fp := loop_fp l;
     loop_reachedEof := loop_reachedEof l; loop_req := loop_req l;
     loop_item := loop_item l; pc := p |}.

Definition with_req (r : bindReq_t) (l : FillLoop) : FillLoop :=
  {| loop_id := loop_id l; loop_pos := loop_pos l; loop_fp := loop_fp l;
     loop_reachedEof := loop_reachedEof l; loop_req := r;
     loop_item := loop_item l; pc := pc l |}.

(** The two constants of the secondary buffers, declared in ReadBuffer.h. *)
Class PoolConfig : Type :=
  { NUM_SECONDARY_BUFFERS : Z;
    SECONDARY_BUFFER_SIZE : Z }.

(** Core 1 goes on while core 0 is inside the [fill] of l.125: the
    number of moves it makes before the dequeue of l.69, and between that
    dequeue and the copy of the chunk at l.73.  While it streams, core 1
    writes the secondary buffers, the channel, the file and its own
    locals, none of which l.70-72 read or write, so its moves between
    l.70 and l.73 count with those before l.70; its moves after l.73 are
    moves made after [fill] has read all it reads of the shared state.
    One [f_read] of core 1 is one move, and each copy of core 0 is made in
    one go. *)
Class Interleaving : Type :=
  { before_dequeue : nat;
    before_copy : nat }.

Section Cores.

Context {FS : Type} {fatfs : FatFs FS} {config : PoolConfig} {race : Interleaving}.

(** The two cores share the object and the file system. *)
Record System : Type :=
  { rbuf : ReadBuffer; loop : FillLoop; disk : FS }.

Definition with_rbuf (rb : ReadBuffer) (s : System) : System :=
  {| rbuf := rb; loop := loop s; disk := disk s |}.

Definition with_loop (l : FillLoop) (s : System) : System :=
  {| rbuf := rbuf s; loop := l; disk := disk s |}.

Definition with_disk (d : FS) (s : System) : System :=
  {| rbuf := rbuf s; loop := loop s; disk := d |}.

(** l.132-140: the locals and the three queues; [fp], [req] and [item]
    start out with whatever they held. *)
Definition fillLoop_enter (s : System) : System :=
  {| rbuf := with_secondaryBufferQueue (queue_init NUM_SECONDARY_BUFFERS)
               (with_bindRespQueue (queue_init 1)
                  (with_bindReqQueue (queue_init 1) (rbuf s)));
     loop := {| loop_id := 0; loop_pos := 0; loop_fp := loop_fp (loop s);
                loop_reachedEof := false; loop_req := loop_req (loop s);
                loop_item := loop_item (loop s); pc := Idle |};
     disk := disk s |}.

(** The address of slot [id]: [&secondaryBuffer[SECONDARY_BUFFER_SIZE * id]]. *)
Definition slot (rb : ReadBuffer) (id : Z) : Z :=
  base (secondaryBuffer rb) + SECONDARY_BUFFER_SIZE * id.

(** One move of core 1.  [None]: the function has returned, core 1 does
    nothing more. *)
Definition fillLoop_step (s : System) : option System :=
  let rb := rbuf s in
  let l := loop s in
  match pc l with
  | Idle =>
      if queue_is_empty (bindReqQueue rb) then Some s
      else
        match queue_remove_blocking (bindReqQueue rb) with
        | Done (r, q) =>
            Some (with_loop (at_pc Requested (with_req r l))
                    (with_rbuf (with_bindReqQueue q rb) s))
        | _ => Some s
        end
  | Requested =>
      if req_flag (loop_req l) then
        let fp := req_fp (loop_req l) in
        Some {| rbuf := bind fp rb;
                loop := {| loop_id := loop_id l;
                           loop_pos := f_tell (disk s) fp;
                           loop_fp := fp;
                           loop_reachedEof := f_eof (disk s) fp;
                           loop_req := loop_req l;
                           loop_item := loop_item l;
                           pc := Respond |};
                disk := disk s |}
      else Some (with_loop (at_pc Respond l) s)
  | Respond =>
      let q := snd (queue_try_add (bindRespQueue rb) (loop_req l)) in
      Some (with_loop (at_pc (if req_flag (loop_req l) then Streaming else Idle) l)
              (with_rbuf (with_bindRespQueue q rb) s))
  | Streaming =>
      Some (with_loop (at_pc (if loop_reachedEof l then Idle else TopUp) l) s)
  | TopUp =>
      if queue_get_level (secondaryBufferQueue rb) <? NUM_SECONDARY_BUFFERS
      then Some (with_loop (at_pc Reading l) s)
      else Some (with_loop (at_pc Poll l) s)
  | Reading =>
      let '(fr, data, d) := f_read (disk s) (loop_fp l) SECONDARY_BUFFER_SIZE in
      let br := Z.of_nat (length data) in
      let rb' := with_secondaryBuffer
                   (store (secondaryBuffer rb) (slot rb (loop_id l)) data) rb in
      if negb (is_FR_OK fr) || (br =? 0) then
        Some {| rbuf := rb'; loop := at_pc Returned l; disk := d |}
      else
        let eof := f_eof d (loop_fp l) in
        let pos := size_add (loop_pos l) br in
        Some {| rbuf := rb';
                loop := {| loop_id := loop_id l;
                           loop_pos := pos;
                           loop_fp := loop_fp l;
                           loop_reachedEof := eof;
                           loop_req := loop_req l;
                           loop_item := {| item_ptr := slot rb (loop_id l);
                                           item_pos := pos;
                                           item_length := br;
                                           item_reachedEof := eof |};
                           pc := Publish |};
                disk := d |}
  | Publish =>
      let q := snd (queue_try_add (secondaryBufferQueue rb) (loop_item l)) in
      Some {| rbuf := with_secondaryBufferQueue q rb;
              loop := {| loop_id := Z.rem (loop_id l + 1) NUM_SECONDARY_BUFFERS;
                         loop_pos := loop_pos l;
                         loop_fp := loop_fp l;
                         loop_reachedEof := loop_reachedEof l;
                         loop_req := loop_req l;
                         loop_item := loop_item l;
                         pc := if loop_reachedEof l then Poll else TopUp |};
              disk := disk s |}
  | Poll =>
      if queue_is_empty (bindReqQueue rb)
      then Some (with_loop (at_pc Streaming l) s)
      else
        match queue_remove_blocking (bindReqQueue rb) with
        | Done (r, q) =>
            Some (with_loop
                    (at_pc (if req_flag r then Respond2 else Draining) (with_req r l))
                    (with_rbuf (with_bindReqQueue q rb) s))
        | _ => Some s
        end
  | Draining =>
      if queue_is_empty (secondaryBufferQueue rb)
      then Some (with_loop (at_pc Respond2 l) s)
      else
        match queue_remove_blocking (secondaryBufferQueue rb) with
        | Done (it, q) =>
            Some {| rbuf := with_secondaryBufferQueue q rb;
                    loop := {| loop_id := loop_id l; loop_pos := loop_pos l;
                               loop_fp := loop_fp l;
                               loop_reachedEof := loop_reachedEof l;
                               loop_req := loop_req l; loop_item := it;
                               pc := Draining |};
                    disk := disk s |}
        | _ => Some s
        end
  | Respond2 =>
      let q := snd (queue_try_add (bindRespQueue rb) (loop_req l)) in
      Some (with_loop (at_pc (if req_flag (loop_req l) then Streaming else Idle) l)
              (with_rbuf (with_bindRespQueue q rb) s))
  | Returned => None
  end.

(** *** Core 0 waiting for core 1

    A blocking receive or a polling loop of core 0 lets core 1 move until
    the awaited condition holds; [fuel] bounds the moves looked at. *)
Fixpoint await (fuel : nat) (cond : System -> bool) (s : System) : outcome System :=
  if cond s then Done s
  else
    match fuel with
    | O => Blocked
    | S k =>
        match fillLoop_step s with
        | Some s' => await k cond s'
        | None => Blocked
        end
    end.

Definition response_ready (s : System) : bool :=
  negb (queue_is_empty (bindRespQueue (rbuf s))).

Definition pool_full (s : System) : bool :=
  negb (queue_get_level (secondaryBufferQueue (rbuf s)) <? NUM_SECONDARY_BUFFERS).

(** Moves that core 1 makes while core 0 is not waiting for it: [n] of
    them, or fewer if the loop returns. *)
Fixpoint drift (n : nat) (s : System) : System :=
  match n with
  | O => s
  | S k =>
      match fillLoop_step s with
      | Some s' => drift k s'
      | None => s
      end
  end.

(** [fill] called by core 0 while core 1 runs: core 1 moves, core 0 makes
    the tests of l.63-64 and takes the item (l.69), core 1 moves again,
    core 0 copies (l.70-80) from the slot the item points to, as it is
    then. *)
Definition fill_racing (s : System) : outcome System :=
  let s1 := drift before_dequeue s in
  match fill_take (rbuf s1) with
  | None => Done s1
  | Some (item, rb) =>
      let s2 := drift before_copy (with_rbuf rb s1) in
      f <- fill_copy item (rbuf s2) ;;
      Done (with_rbuf (snd f) s2)
  end.

Definition reqBind (fuel : nat) (fp : FILptr) (flag : bool) (s : System)
  : outcome System :=
  let req := {| req_fp := fp; req_flag := flag |} in
  (* send request *)
  let s1 := with_rbuf (with_bindReqQueue
                         (snd (queue_try_add (bindReqQueue (rbuf s)) req)) (rbuf s)) s in
  (* wait response *)
  s2 <- await fuel response_ready s1 ;;
  r <- queue_remove_blocking (bindRespQueue (rbuf s2)) ;;
  let s3 := with_rbuf (with_bindRespQueue (snd r) (rbuf s2)) s2 in
  if flag then
    (* wait until full secondaryBuffer *)
    s4 <- await fuel pool_full s3 ;;
    fill_racing s4
  else Done s3.

Definition seek (fuel : nat) (fpos : Z) (s : System) : outcome (bool * System) :=
  s1 <- reqBind fuel (_fp (rbuf s)) false s ;;
  let s2 := with_disk (snd (f_lseek (disk s1) (_fp (rbuf s1)) fpos)) s1 in
  s3 <- reqBind fuel (_fp (rbuf s2)) true s2 ;;
  Done (true, s3).

(** *** The two cores interleaved

    What core 0 can do to the shared state in one go: the queue accesses
    of [reqBind], the member functions of the consumer API, and the file
    seek of [seek].  [fill] and [shift] are there whole and also in the
    parts between which core 1 can move: the tests and the dequeue of
    l.63-69, the copies of l.70-80, the move of the cursor of l.86-87. *)
Inductive core0_step : System -> System -> Prop :=
| c0_request (s : System) (r : bindReq_t) :
    core0_step s
      (with_rbuf (with_bindReqQueue
                    (snd (queue_try_add (bindReqQueue (rbuf s)) r)) (rbuf s)) s)
| c0_response (s : System) (r : bindReq_t) (q : queue_t bindReq_t) :
    queue_remove_blocking (bindRespQueue (rbuf s)) = Done (r, q) ->
    core0_step s (with_rbuf (with_bindRespQueue q (rbuf s)) s)
| c0_fill (s : System) (b : bool) (rb : ReadBuffer) :
    fill (rbuf s) = Done (b, rb) ->
    core0_step s (with_rbuf rb s)
| c0_shift (s : System) (n : Z) (b : bool) (rb : ReadBuffer) :
    shift n (rbuf s) = Done (b, rb) ->
    core0_step s (with_rbuf rb s)
| c0_take (s : System) (item : secondaryBufferItem_t) (rb : ReadBuffer) :
    fill_take (rbuf s) = Some (item, rb) ->
    core0_step s (with_rbuf rb s)
| c0_copy (s : System) (item : secondaryBufferItem_t) (b : bool) (rb : ReadBuffer) :
    fill_copy item (rbuf s) = Done (b, rb) ->
    core0_step s (with_rbuf rb s)
| c0_advance (s : System) (n : Z) :
    (_left (rbuf s) <? n) = false ->
    core0_step s (with_rbuf (advanced n (rbuf s)) s)
| c0_bind (s : System) (fp : FILptr) :
    core0_step s (with_rbuf (bind fp (rbuf s)) s)
| c0_lseek (s : System) (fp : FILptr) (fpos : Z) :
    core0_step s (with_disk (snd (f_lseek (disk s) fp fpos)) s).

Inductive step : System -> System -> Prop :=
| step_core0 (s s' : System) : core0_step s s' -> step s s'
| step_core1 (s s' : System) : fillLoop_step s = Some s' -> step s s'.

Inductive steps : System -> System -> Prop :=
| steps_refl (s : System) : steps s s
| steps_more (s s' s'' : System) : steps s s' -> step s' s'' -> steps s s''.

(** The states the two cores can be in once [fillLoop] has set up its
    queues. *)
Definition reachable (s : System) : Prop :=
  exists s0 : System, steps (fillLoop_enter s0) s.

(** The loop waits for a request and both control queues are empty and
    set up. *)
Definition quiescent (s : System) : Prop :=
  pc (loop s) = Idle
  /\ elements (bindReqQueue (rbuf s)) = []
  /\ elements (bindRespQueue (rbuf s)) = []
  /\ 0 < element_count (bindReqQueue (rbuf s))
  /\ 0 < element_count (bindRespQueue (rbuf s)).

(** The state once core 0 has sent request [r] (l.119). *)
Definition requested (r : bindReq_t) (s : System) : System :=
  with_rbuf (with_bindReqQueue
               (snd (queue_try_add (bindReqQueue (rbuf s)) r)) (rbuf s)) s.

(** The state in which the loop has answered request [r] and core 0 has
    taken the answer, seen from a quiescent state: the object is bound anew
    if the request connects, and the loop streams or waits again. *)
Definition answered (r : bindReq_t) (s : System) : System :=
  if req_flag r then
    {| rbuf := bind (req_fp r) (rbuf s);
       loop := {| loop_id := loop_id (loop s);
                  loop_pos := f_tell (disk s) (req_fp r);
                  loop_fp := req_fp r;
                  loop_reachedEof := f_eof (disk s) (req_fp r);
                  loop_req := r;
                  loop_item := loop_item (loop s);
                  pc := Streaming |};
       disk := disk s |}
  else with_loop (with_req r (loop s)) s.

(** [n] reads in a row succeed with at least one and at most
    SECONDARY_BUFFER_SIZE bytes, and none but the last ends the file. *)
Fixpoint feeds (n : nat) (d : FS) (fp : FILptr) : Prop :=
  match n with
  | O => True
  | S n' =>
      let '(fr, data, d') := f_read d fp SECONDARY_BUFFER_SIZE in
      fr = FR_OK
      /\ 0 < Z.of_nat (length data) <= SECONDARY_BUFFER_SIZE
      /\ (n' <> O -> f_eof d' fp = false)
      /\ feeds n' d' fp
  end.

(** An item that lies in the secondary storage of [rb]. *)
Definition in_pool (rb : ReadBuffer) (it : secondaryBufferItem_t) : Prop :=
  base (secondaryBuffer rb) <= item_ptr it
  /\ 0 < item_length it <= SECONDARY_BUFFER_SIZE
  /\ item_ptr it + item_length it
     <= base (secondaryBuffer rb) + extent (secondaryBuffer rb).

(** [s'] differs from [s] in the object only by items added to the
    secondary-buffer channel, all lying in the secondary storage, and by
    the bytes of that storage. *)
Definition grown (n : nat) (s s' : System) : Prop :=
  with_secondaryBufferQueue (secondaryBufferQueue (rbuf s))
    (with_secondaryBuffer (secondaryBuffer (rbuf s)) (rbuf s')) = rbuf s
  /\ base (secondaryBuffer (rbuf s')) = base (secondaryBuffer (rbuf s))
  /\ extent (secondaryBuffer (rbuf s')) = extent (secondaryBuffer (rbuf s))
  /\ exists new : list secondaryBufferItem_t,
       elements (secondaryBufferQueue (rbuf s'))
       = elements (secondaryBufferQueue (rbuf s)) ++ new
       /\ Forall (in_pool (rbuf s)) new
       /\ length new = n.

(** What [seek fpos] needs to go through: the loop idle with the control
    queues and the channel empty, the storage of both buffers as
    allocated, a chunk no larger than the buffer, and a file that, once
    moved to [fpos], fills the whole pool. *)
Definition seek_ready (fpos : Z) (s : System) : Prop :=
  quiescent s
  /\ elements (secondaryBufferQueue (rbuf s)) = []
  /\ element_count (secondaryBufferQueue (rbuf s)) = NUM_SECONDARY_BUFFERS
  /\ 0 < NUM_SECONDARY_BUFFERS
  /\ 0 < SECONDARY_BUFFER_SIZE
  /\ 0 <= loop_id (loop s) < NUM_SECONDARY_BUFFERS
  /\ extent (secondaryBuffer (rbuf s))
     = NUM_SECONDARY_BUFFERS * SECONDARY_BUFFER_SIZE
  /\ base (primary (rbuf s)) = _head (rbuf s)
  /\ extent (primary (rbuf s)) = _size (rbuf s)
  /\ SECONDARY_BUFFER_SIZE <= _size (rbuf s) < SIZE_MODULUS
  /\ f_eof (snd (f_lseek (disk s) (_fp (rbuf s)) fpos)) (_fp (rbuf s)) = false
  /\ feeds (Z.to_nat NUM_SECONDARY_BUFFERS)
       (snd (f_lseek (disk s) (_fp (rbuf s)) fpos)) (_fp (rbuf s)).

(** The bound the loop keeps on the secondary-buffer channel. *)
Definition pool_bounded (s : System) : Prop :=
  element_count (secondaryBufferQueue (rbuf s)) = NUM_SECONDARY_BUFFERS
  /\ queue_get_level (secondaryBufferQueue (rbuf s)) <= NUM_SECONDARY_BUFFERS
  /\ (pc (loop s) = Reading \/ pc (loop s) = Publish ->
      queue_get_level (secondaryBufferQueue (rbuf s)) < NUM_SECONDARY_BUFFERS).

End Cores.

Arguments System : clear implicits.

(** ** Sequences of consumer calls

    Between two calls of the consumer the Fill Loop may have queued
    further items; a trace lists, for each call, the items that arrived
    before it. *)

Inductive call : Type :=
| Fill
| Shift (bytes : Z).

Definition do_call (c : call) (rb : ReadBuffer) : outcome (bool * ReadBuffer) :=
  match c with
  | Fill => fill rb
  | Shift bytes => shift bytes rb
  end.

Fixpoint arrive (items : list secondaryBufferItem_t) (rb : ReadBuffer) : ReadBuffer :=
  match items with
  | [] => rb
  | it :: more =>
      arrive more
        (with_secondaryBufferQueue
           (snd (queue_try_add (secondaryBufferQueue rb) it)) rb)
  end.

(** The result and the state after every call, in order. *)
Fixpoint run (rb : ReadBuffer) (tr : list (list secondaryBufferItem_t * call))
  : outcome (list (bool * ReadBuffer)) :=
  match tr with
  | [] => Done []
  | (items, c) :: more =>
      r <- do_call c (arrive items rb) ;;
      rest <- run (snd r) more ;;
      Done (r :: rest)
  end.

(** ** Well-formed objects

    The allocation behind [_head] has [_size] bytes and the window of
    [_left] unread bytes at [_ptr] lies inside it. *)

Definition rb_ok (rb : ReadBuffer) : Prop :=
  base (primary rb) = _head rb /\
  extent (primary rb) = _size rb /\
  _size rb < SIZE_MODULUS /\
  _head rb <= _ptr rb /\
  0 <= _left rb /\
  _ptr rb + _left rb <= _head rb + _size rb.

(** An item whose bytes lie in the secondary storage. *)
Definition item_ok (rb : ReadBuffer) (it : secondaryBufferItem_t) : Prop :=
  inside (secondaryBuffer rb) (item_ptr it) (item_length it) = true.

(** The fill that call [c] makes in state [rb], if it makes one, finds
    the chunk no longer than the free space of the buffer. *)
Definition dequeues (c : call) (rb : ReadBuffer) : bool :=
  match c with
  | Fill => true
  | Shift bytes =>
      negb (_left rb <? bytes) && (_left rb - bytes <? _fillThreshold rb)
  end && negb (_isEof rb) && negb (queue_is_empty (secondaryBufferQueue rb)).

Definition left_at_fill (c : call) (rb : ReadBuffer) : Z :=
  match c with
  | Fill => _left rb
  | Shift bytes => _left rb - bytes
  end.

Definition room (c : call) (rb : ReadBuffer) : bool :=
  negb (dequeues c rb)
  || match hd_error (elements (secondaryBufferQueue rb)) with
     | None => true
     | Some it =>
         inside (secondaryBuffer rb) (item_ptr it) (item_length it)
         && (left_at_fill c rb + item_length it <=? _size rb)
     end.

(** The argument of a call is a [size_t]. *)
Definition call_ok (c : call) : bool :=
  match c with
  | Fill => true
  | Shift bytes => (0 <=? bytes) && (bytes <? SIZE_MODULUS)
  end.

(** Every call of the trace is well-typed and finds room. *)
Fixpoint roomy (rb : ReadBuffer) (tr : list (list secondaryBufferItem_t * call)) : bool :=
  match tr with
  | [] => true
  | (items, c) :: more =>
      call_ok c && room c (arrive items rb)
      && match do_call c (arrive items rb) with
         | Done r => roomy (snd r) more
         | _ => true
         end
  end.

(** The chunks the Fill Loop hands over: inside the secondary storage
    and of at most [chunk] bytes. *)
Definition chunk_ok (rb : ReadBuffer) (chunk : Z) (it : secondaryBufferItem_t) : Prop :=
  item_ok rb it /\ item_length it <= chunk.

(** A trace of [shift] calls only, with chunks of at most [chunk] bytes
    arriving. *)
Definition shifts_only (rb : ReadBuffer) (chunk : Z)
    (tr : list (list secondaryBufferItem_t * call)) : Prop :=
  Forall (fun e => Forall (chunk_ok rb chunk) (fst e)
                   /\ exists n : Z, snd e = Shift n /\ is_size_t n) tr.

(** ** A file system in memory

    One open file: its bytes, the read pointer and the sticky error of
    the file object.  As FatFs does, [f_lseek] on a file opened for
    reading clips the offset to the file size, a read at the end gives
    [FR_OK] with no bytes, and every call on a file object in error
    reports that error. *)

Record MemFile : Type :=
  { content : list byte; fptr : Z; err : FRESULT }.

Definition objsize (f : MemFile) : Z := Z.of_nat (length (content f)).

#[export] Instance MemFS : FatFs MemFile :=
  {| f_read := fun f _ btr =>
       if is_FR_OK (err f) then
         let data := firstn (Z.to_nat btr) (skipn (Z.to_nat (fptr f)) (content f)) in
         (FR_OK, data,
          {| content := content f;
             fptr := fptr f + Z.of_nat (length data); err := err f |})
       else (err f, [], f);
     f_lseek := fun f _ ofs =>
       if is_FR_OK (err f) then
         (FR_OK, {| content := content f;
                    fptr := Z.min ofs (objsize f); err := err f |})
       else (err f, f);
     f_tell := fun f _ => fptr f;
     f_eof := fun f _ => fptr f =? objsize f |}.

(** The same file system when the volume is locked by another task:
    [f_lseek] gives up with [FR_TIMEOUT] and leaves the file object as it
    is. *)
Definition LockedFS : FatFs MemFile :=
  {| f_read := @f_read MemFile MemFS;
     f_lseek := fun f _ _ => (FR_TIMEOUT, f);
     f_tell := @f_tell MemFile MemFS;
     f_eof := @f_eof MemFile MemFS |}.

(** ** A small configuration

    The proportions of the specification's scenario (4096, 1024, 1024, 4)
    at one 256th: a buffer of 16 bytes, threshold 4, chunks of 4 bytes,
    four secondary buffers. *)

Definition scenario_pool : Mem :=
  {| base := 32;
     cells := [Byte.x01; Byte.x02; Byte.x03; Byte.x04;
               Byte.x05; Byte.x06; Byte.x07; Byte.x08;
               Byte.x09; Byte.x0a; Byte.x0b; Byte.x0c;
               Byte.x0d; Byte.x0e; Byte.x0f; Byte.x10] |}.

Definition scenario_item (k : Z) : secondaryBufferItem_t :=
  {| item_ptr := 32 + 4 * Z.rem k 4; item_pos := 4 * (k + 1);
     item_length := 4; item_reachedEof := false |}.

(** A new object, its queue set up, bound to a file. *)
Definition scenario_fresh (threshold : Z) : ReadBuffer :=
  bind 1 (with_secondaryBufferQueue (queue_init 4)
            (ReadBuffer_new 16 threshold 64 0 0 scenario_pool)).

(** Four chunks are queued and loaded one after the other. *)
Definition scenario_four_fills : list (list secondaryBufferItem_t * call) :=
  [ ([scenario_item 0; scenario_item 1; scenario_item 2; scenario_item 3], Fill);
    ([], Fill); ([], Fill); ([], Fill) ].

(** The buffer after these four fills, [threshold] being the auto-fill
    threshold: all 16 bytes are unread. *)
Definition scenario_full (threshold : Z) : ReadBuffer :=
  {| _fp := 1; _size := 16; _left := 16;
     _fillThreshold := threshold; _isEof := false;
     _head := 64; _ptr := 64; _pos := 16;
     primary := {| base := 64; cells := cells scenario_pool |};
     secondaryBuffer := scenario_pool;
     bindReqQueue := queue_init 0; bindRespQueue := queue_init 0;
     secondaryBufferQueue := queue_init 4 |}.

(** The full buffer with a fifth chunk waiting on the channel. *)
Definition scenario_fifth (threshold : Z) : ReadBuffer :=
  arrive [scenario_item 4] (scenario_full threshold).

(** The buffer after the first of two queued chunks has been loaded. *)
Definition scenario_first : ReadBuffer :=
  {| _fp := 1; _size := 16; _left := 4;
     _fillThreshold := 4; _isEof := false;
     _head := 64; _ptr := 64; _pos := 4;
     primary := {| base := 64;
                   cells := [Byte.x01; Byte.x02; Byte.x03; Byte.x04]
                            ++ repeat Byte.x00 12 |};
     secondaryBuffer := scenario_pool;
     bindReqQueue := queue_init 0; bindRespQueue := queue_init 0;
     secondaryBufferQueue :=
       {| elements := [scenario_item 1]; element_count := 4 |} |}.

(** A fill, then [shift 3] with its automatic fill, then a shift of
    everything that is left. *)
Definition scenario_trace : list (list secondaryBufferItem_t * call) :=
  [ ([scenario_item 0; scenario_item 1; scenario_item 2], Fill);
    ([], Shift 3);
    ([scenario_item 3], Shift 5) ].

(** The full buffer once the end of the file has been flagged, a stale
    chunk still queued. *)
Definition scenario_at_eof : ReadBuffer :=
  {| _fp := 1; _size := 16; _left := 16;
     _fillThreshold := 4; _isEof := true;
     _head := 64; _ptr := 64; _pos := 16;
     primary := {| base := 64; cells := cells scenario_pool |};
     secondaryBuffer := scenario_pool;
     bindReqQueue := queue_init 0; bindRespQueue := queue_init 0;
     secondaryBufferQueue :=
       {| elements := [scenario_item 4]; element_count := 4 |} |}.

(** The two cores in the small configuration: four secondary buffers of
    4 bytes, and a file of 24 bytes. *)

#[export] Instance scenario_config : PoolConfig :=
  {| NUM_SECONDARY_BUFFERS := 4; SECONDARY_BUFFER_SIZE := 4 |}.

(** Core 1 makes three moves between the dequeue and the copies of the
    fill of l.125: time for one read. *)
Definition scenario_racing : Interleaving :=
  {| before_dequeue := 0; before_copy := 3 |}.

(** Core 1 makes no move while core 0 is inside that fill. *)
#[export] Instance scenario_quiet : Interleaving :=
  {| before_dequeue := 0; before_copy := 0 |}.

Definition scenario_file : MemFile :=
  {| content := [Byte.x41; Byte.x42; Byte.x43; Byte.x44; Byte.x45; Byte.x46;
                  Byte.x47; Byte.x48; Byte.x49; Byte.x4a; Byte.x4b; Byte.x4c;
                  Byte.x4d; Byte.x4e; Byte.x4f; Byte.x50; Byte.x51; Byte.x52;
                  Byte.x53; Byte.x54; Byte.x55; Byte.x56; Byte.x57; Byte.x58];
     fptr := 0; err := FR_OK |}.

(** The object as constructed and the loop about to be entered. *)
Definition scenario_boot : System MemFile :=
  {| rbuf := ReadBuffer_new 16 4 64 1 0 scenario_pool;
     loop := {| loop_id := 0; loop_pos := 0; loop_fp := 0;
                loop_reachedEof := false;
                loop_req := {| req_fp := 0; req_flag := false |};
                loop_item := scenario_item 0; pc := Idle |};
     disk := scenario_file |}.

(** The loop has set up its queues and waits for the first request. *)
Definition scenario_system : System MemFile := fillLoop_enter scenario_boot.

(** The loop about to read from a file object that is in error. *)
Definition scenario_broken : System MemFile :=
  {| rbuf := rbuf scenario_system;
     loop := {| loop_id := 0; loop_pos := 0; loop_fp := 1;
                loop_reachedEof := false;
                loop_req := {| req_fp := 1; req_flag := true |};
                loop_item := scenario_item 0; pc := Reading |};
     disk := {| content := content scenario_file; fptr := 0; err := FR_DISK_ERR |} |}.

(** The bytes of the buffer after a fill that found room: the unread
    tail, the chunk, and zeros up to the size of the buffer. *)
Definition refilled (rb : ReadBuffer) (it : secondaryBufferItem_t) : list byte :=
  load (primary rb) (_ptr rb) (_left rb)
  ++ load (secondaryBuffer rb) (item_ptr it) (item_length it)
  ++ repeat Byte.x00 (Z.to_nat (_size rb - _left rb - item_length it)).

(** What [shift] does once the test of l.85 has passed and the count has
    fallen below the threshold. *)
Definition shift_then_fill (bytes : Z) (rb : ReadBuffer) : outcome (bool * ReadBuffer) :=
  r <- fill (advanced bytes rb) ;; Done (true, snd r).

(** ** More about the two cores *)

Section CoresMore.

Context {FS : Type} {fatfs : FatFs FS} {config : PoolConfig} {race : Interleaving}.

(** [n] moves of core 1 in a row. *)
Fixpoint moves (n : nat) (s : System FS) : option (System FS) :=
  match n with
  | O => Some s
  | S k =>
      match fillLoop_step s with
      | Some s' => moves k s'
      | None => None
      end
  end.

(** An item that holds at least one byte and starts at one of the slots
    of the secondary storage at [b0]. *)
Definition is_chunk (b0 : Z) (it : secondaryBufferItem_t) : Prop :=
  0 < item_length it
  /\ exists k : Z, 0 <= k < NUM_SECONDARY_BUFFERS
                   /\ item_ptr it = b0 + SECONDARY_BUFFER_SIZE * k.

(** What the loop keeps true of its bookkeeping. *)
Definition loop_keeps (b0 : Z) (s : System FS) : Prop :=
  base (secondaryBuffer (rbuf s)) = b0
  /\ 0 <= loop_id (loop s) < NUM_SECONDARY_BUFFERS
  /\ (pc (loop s) = TopUp \/ pc (loop s) = Reading ->
      loop_reachedEof (loop s) = false)
  /\ Forall (is_chunk b0) (elements (secondaryBufferQueue (rbuf s)))
  /\ (pc (loop s) = Publish -> is_chunk b0 (loop_item (loop s))).

(** The file system never hands back more bytes than were asked for
    ([btr] is a UINT). *)
Definition reads_bounded : Prop :=
  forall (d d' : FS) (fp : FILptr) (btr : Z) (fr : FRESULT) (data : list byte),
    0 <= btr ->
    f_read d fp btr = (fr, data, d') -> Z.of_nat (length data) <= btr.

(** The secondary storage keeps its size and no item is longer than a
    slot. *)
Definition pool_keeps (s : System FS) : Prop :=
  extent (secondaryBuffer (rbuf s))
  = NUM_SECONDARY_BUFFERS * SECONDARY_BUFFER_SIZE
  /\ Forall (fun it => item_length it <= SECONDARY_BUFFER_SIZE)
       (elements (secondaryBufferQueue (rbuf s)))
  /\ (pc (loop s) = Publish ->
      item_length (loop_item (loop s)) <= SECONDARY_BUFFER_SIZE).

(** The program points of the loop at which it is not handling a
    request. *)
Definition in_stream (p : pc_t) : bool :=
  match p with
  | Requested | Respond | Draining | Respond2 => false
  | _ => true
  end.

(** The loop is not handling a request and none is waiting for it. *)
Definition streams (s : System FS) : Prop :=
  elements (bindReqQueue (rbuf s)) = []
  /\ in_stream (pc (loop s)) = true.

(** What moves of the loop from [s] to [s'] leave alone while it
    [streams]: the object but for its secondary storage and channel, the
    place and at least the size of that storage, the items queued (others
    may follow them), and the file and the request the loop holds. *)
Definition drifted (s s' : System FS) : Prop :=
  with_secondaryBufferQueue (secondaryBufferQueue (rbuf s))
    (with_secondaryBuffer (secondaryBuffer (rbuf s)) (rbuf s')) = rbuf s
  /\ base (secondaryBuffer (rbuf s')) = base (secondaryBuffer (rbuf s))
  /\ extent (secondaryBuffer (rbuf s)) <= extent (secondaryBuffer (rbuf s'))
  /\ element_count (secondaryBufferQueue (rbuf s'))
     = element_count (secondaryBufferQueue (rbuf s))
  /\ (exists new : list secondaryBufferItem_t,
        elements (secondaryBufferQueue (rbuf s'))
        = elements (secondaryBufferQueue (rbuf s)) ++ new)
  /\ loop_fp (loop s') = loop_fp (loop s)
  /\ loop_req (loop s') = loop_req (loop s)
  /\ streams s'.

(** The pool is full and the loop is neither reading nor publishing. *)
Definition brimful (s : System FS) : Prop :=
  streams s
  /\ pc (loop s) <> Reading /\ pc (loop s) <> Publish
  /\ NUM_SECONDARY_BUFFERS <= queue_get_level (secondaryBufferQueue (rbuf s)).

(** The loop streams and has nothing to read: it stands at the poll of
    l.173, or on its way there with the pool full, and both control queues
    are empty and set up. *)
Definition pool_spin (s : System FS) : Prop :=
  (pc (loop s) = Poll
   \/ ((pc (loop s) = Streaming \/ pc (loop s) = TopUp)
       /\ loop_reachedEof (loop s) = false
       /\ NUM_SECONDARY_BUFFERS
          <= queue_get_level (secondaryBufferQueue (rbuf s))))
  /\ elements (bindReqQueue (rbuf s)) = []
  /\ elements (bindRespQueue (rbuf s)) = []
  /\ 0 < element_count (bindReqQueue (rbuf s))
  /\ 0 < element_count (bindRespQueue (rbuf s)).



End CoresMore.

(** The small configuration once core 0 has asked to connect to the file
    and core 1 has made [n] moves. *)
Definition scenario_after (n : nat) : option (System MemFile) :=
  moves n (requested {| req_fp := 1; req_flag := true |} scenario_system).

(** The small configuration when [seek 4] has returned: the first chunk
    is loaded, three are queued, and the loop is about to test the level. *)
Definition scenario_after_seek : option (System MemFile) :=
  match seek 13 4 scenario_system with
  | Done (_, s) => Some s
  | _ => None
  end.

(** The small configuration after [seek 4] and three more moves of core 1:
    the last chunk of the file is queued and the loop stands at the poll
    of l.173. *)
Definition scenario_streaming : option (System MemFile) :=
  match seek 13 4 scenario_system with
  | Done (_, s) => moves 3 s
  | _ => None
  end.

(** The same two moves later: the loop has left [while (!reachedEof)]
    and waits at l.144, the four chunks still queued. *)
Definition scenario_idle_at_eof : option (System MemFile) :=
  match seek 13 4 scenario_system with
  | Done (_, s) => moves 5 s
  | _ => None
  end.

(** ** What the decoder is handed

    The bytes the decoder may read: [getLeft] bytes from [buf]. *)

Definition window (rb : ReadBuffer) : list byte :=
  load (primary rb) (buf rb) (getLeft rb).

(** The bytes a call takes out of the window: those a successful [shift]
    steps over. *)
Definition eaten (c : call) (rb : ReadBuffer) (ok : bool) : list byte :=
  match c with
  | Fill => []
  | Shift bytes => if ok then firstn (Z.to_nat bytes) (window rb) else []
  end.

(** The bytes of the chunk a call takes off the channel, if it takes one. *)
Definition fed (c : call) (rb : ReadBuffer) : list byte :=
  if dequeues c rb then
    match hd_error (elements (secondaryBufferQueue rb)) with
    | Some it => load (secondaryBuffer rb) (item_ptr it) (item_length it)
    | None => []
    end
  else [].

(** All the bytes taken out, all the bytes taken in, and the final state
    of a trace. *)
Fixpoint observe (rb : ReadBuffer) (tr : list (list secondaryBufferItem_t * call))
  : outcome (list byte * list byte * ReadBuffer) :=
  match tr with
  | [] => Done ([], [], rb)
  | (items, c) :: more =>
      r <- do_call c (arrive items rb) ;;
      rest <- observe (snd r) more ;;
      Done (eaten c (arrive items rb) (fst r) ++ fst (fst rest),
            fed c (arrive items rb) ++ snd (fst rest),
            snd rest)
  end.

(** * The battery monitor and the battery icon

    [pm_monitor_battery_voltage], [pm_get_low_battery] and
    [pm_get_battery_voltage] of power_manage.cpp; [BatteryIconBox] and
    [LcdCanvas::setBatteryVoltage] of LcdCanvas.cpp. *)

(** ** Integer conversions *)

Definition to_uint8 (z : Z) : Z := z mod 2 ^ 8.
Definition to_uint16 (z : Z) : Z := z mod 2 ^ 16.
Definition to_int16 (z : Z) : Z := (z + 2 ^ 15) mod 2 ^ 16 - 2 ^ 15.
Definition INT_MAX : Z := 2 ^ 31 - 1.

(** ** power_manage.cpp *)

Definition TIMER_BATTERY_CHECK_HZ : Z := 20.
Definition BATT_CHECK_INTERVAL_SEC : Z := 5.

(** The statics the battery monitor works on and the output it drives:
    [count] is the static int of [pm_monitor_battery_voltage], [_bat_mv]
    the static uint16_t of l.29, [PIN_BATT_CHECK] the level of GPIO 8. *)
Record PowerManage : Type :=
  { count : Z; _bat_mv : Z; PIN_BATT_CHECK : bool }.

(** The statics as initialised (l.29, l.138) and the pin as [pm_init]
    leaves it (l.112). *)
Definition pm_reset : PowerManage :=
  {| count := 0; _bat_mv := 4200; PIN_BATT_CHECK := false |}.

(** l.145-152: what is stored for the ADC result [result] (a uint16_t).
    The product and the quotient are taken in int, where they cannot
    overflow; the sum is narrowed to int16_t and then to uint16_t. *)
Definition battery_mv (result : Z) : Z :=
  let coef_a := 4280 in
  let coef_b := -20 in
  let voltage := to_int16 (Z.quot (result * coef_a) (Z.shiftl 1 12) + coef_b) in
  to_uint16 voltage.

(** One call; [adc] is what [adc_read] returns if it is called.  The
    increment of [count] at INT_MAX is undefined. *)
Definition pm_monitor_battery_voltage (adc : Z) (pm : PowerManage)
  : outcome PowerManage :=
  let period := TIMER_BATTERY_CHECK_HZ * BATT_CHECK_INTERVAL_SEC in
  let pm1 :=
    if Z.rem (count pm) period =? period - 2 then
      (* Prepare to check battery voltage *)
      {| count := count pm; _bat_mv := _bat_mv pm; PIN_BATT_CHECK := true |}
    else if Z.rem (count pm) period =? period - 1 then
      let result := to_uint16 adc in
      {| count := count pm; _bat_mv := battery_mv result; PIN_BATT_CHECK := false |}
    else pm in
  if count pm1 <? INT_MAX
  then Done {| count := count pm1 + 1; _bat_mv := _bat_mv pm1;
               PIN_BATT_CHECK := PIN_BATT_CHECK pm1 |}
  else Undefined.

Definition pm_get_low_battery (pm : PowerManage) : bool := _bat_mv pm <? 2900.

Definition pm_get_battery_voltage (pm : PowerManage) : Z := _bat_mv pm.

(** The timer callback of l.54 fires once per tick: one call per element
    of [adcs], the values the ADC holds at those ticks. *)
Fixpoint pm_ticks (adcs : list Z) (pm : PowerManage) : outcome PowerManage :=
  match adcs with
  | [] => Done pm
  | adc :: more => pm' <- pm_monitor_battery_voltage adc pm ;; pm_ticks more pm'
  end.

(** ** LcdCanvas.cpp: the battery icon

    The members of [BatteryIconBox] that its functions use; the calls that
    leave the file ([update] and [clear] of the base class, the LCD driver)
    are listed in the order they are made, with the int values of their
    arguments. *)

Record BatteryIconBox : Type :=
  { pos_x : Z; pos_y : Z; icon : Z; fgColor : Z; bgColor : Z;
    bgOpaque : bool; isUpdated : bool; level : Z }.

Inductive lcd_call : Type :=
| call_update
| call_clear
| LCD_ShowIcon (x y : Z) (index : Z) (mode : bool) (color : Z)
| LCD_Fill (xsta ysta xend yend : Z) (color : Z).

Definition draw (b : BatteryIconBox) : BatteryIconBox * list lcd_call :=
  if negb (isUpdated b) then (b, [])
  else
    let b1 := {| pos_x := pos_x b; pos_y := pos_y b; icon := icon b;
                 fgColor := fgColor b; bgColor := bgColor b;
                 bgOpaque := bgOpaque b; isUpdated := false;
                 level := level b |} in
    let color := if 50 <=? level b then 0x0600
                 else if 20 <=? level b then 0xc600 else 0xc000 in
    (b1,
     [call_clear;
      LCD_ShowIcon (pos_x b) (pos_y b) (icon b) (negb (bgOpaque b)) (fgColor b)]
     ++ (if Z.quot (level b) 10 <? 9
         then [LCD_Fill (pos_x b + 4) (pos_y b + 4) (pos_x b + 4 + 8 - 1)
                 (pos_y b + 4 + 10 - Z.quot (level b) 10 - 1 - 1) (bgColor b)]
         else [])
     ++ [LCD_Fill (pos_x b + 4) (pos_y b + 13 - Z.quot (level b) 10)
           (pos_x b + 4 + 8 - 1)
           (pos_y b + 13 - Z.quot (level b) 10 + Z.quot (level b) 10 + 1 - 1)
           color]).

Definition with_level (value : Z) (b : BatteryIconBox) : BatteryIconBox :=
  {| pos_x := pos_x b; pos_y := pos_y b; icon := icon b;
     fgColor := fgColor b; bgColor := bgColor b;
     bgOpaque := bgOpaque b; isUpdated := isUpdated b;
     level := value |}.

(** The parameter is a uint8_t.  [update] is a member of the base class,
    defined outside this file: what it does to the object is the parameter
    [update], applied where l.45 calls it, after the level is stored. *)
Definition setLevel (update : BatteryIconBox -> BatteryIconBox)
    (value : Z) (b : BatteryIconBox) : BatteryIconBox * list lcd_call :=
  let value := to_uint8 value in
  let value := if value <=? 100 then value else 100 in
  if level b =? value then (b, [])
  else (update (with_level value b), [call_update]).

(** [LcdCanvas::setBatteryVoltage], on the member [battery]; the
    parameter is a uint16_t and the quotient is taken in int. *)
Definition setBatteryVoltage (update : BatteryIconBox -> BatteryIconBox)
    (voltage_x1000 : Z) (battery : BatteryIconBox)
  : BatteryIconBox * list lcd_call :=
  let lvl100 := 4100 in
  let lvl0 := 2900 in
  setLevel update
    (Z.quot ((to_uint16 voltage_x1000 - lvl0) * 100) (lvl100 - lvl0)) battery.

(** An [update] that marks the object for the next [draw]. *)
Definition scenario_update (b : BatteryIconBox) : BatteryIconBox :=
  {| pos_x := pos_x b; pos_y := pos_y b; icon := icon b;
     fgColor := fgColor b; bgColor := bgColor b;
     bgOpaque := bgOpaque b; isUpdated := true;
     level := level b |}.

(** The icon at the top right of a screen 160 wide, at level [lvl]. *)
Definition scenario_battery (lvl : Z) (updated : bool) : BatteryIconBox :=
  {| pos_x := 144; pos_y := 0; icon := 0; fgColor := 0x8410; bgColor := 0;
     bgOpaque := false; isUpdated := updated; level := lvl |}.

(** The number of rows a fill covers, both ends included. *)
Definition fill_rows (c : lcd_call) : Z :=
  match c with
  | LCD_Fill _ ysta _ yend _ => yend - ysta + 1
  | _ => 0
  end.

(** ** LcdCanvas.cpp: the play screen

    [LcdCanvas::drawPlay] works on [play_count] and asks the image
    whether it holds one; what it calls on the element boxes of a group
    and on the canvas is listed in order.  The two constants of the cycle
    are declared in LcdCanvas.h. *)

Class PlayCycle : Type :=
  { play_cycle : Z;
    play_change : Z }.

Inductive group : Type :=
| groupPlay     (* common to play mode 0 and 1 *)
| groupPlay0    (* play mode 0 only *)
| groupPlay1.   (* play mode 1 only *)

Inductive canvas_call : Type :=
| group_draw (g : group)       (* draw() on every element of the group *)
| group_update (g : group)     (* update() on every element of the group *)
| canvas_clear (bgOpaque : bool).

Record LcdCanvas : Type :=
  { play_count : Z; image_hasImage : bool }.

Definition switch_calls (g : group) : list canvas_call :=
  [canvas_clear false; group_update groupPlay; group_update g].

(** The increment of [play_count] at INT_MAX is undefined, and so is the
    remainder by a cycle of 0. *)
Definition drawPlay {cycle : PlayCycle} (c : LcdCanvas)
  : outcome (LcdCanvas * list canvas_call) :=
  if play_cycle =? 0 then Undefined
  else
    let calls :=
      [group_draw groupPlay]
      ++ (if (Z.rem (play_count c) play_cycle <? play_change)
             || negb (image_hasImage c)
          then (* Play mode 0 display *)
            [group_draw groupPlay0]
            ++ (if (Z.rem (play_count c) play_cycle =? play_change - 1)
                   && image_hasImage c
                then (* Play mode 0 -> 1 *) switch_calls groupPlay1
                else [])
          else (* Play mode 1 display *)
            [group_draw groupPlay1]
            ++ (if Z.rem (play_count c) play_cycle =? play_cycle - 1
                then (* Play mode 1 -> 0 *) switch_calls groupPlay0
                else [])) in
    if play_count c <? INT_MAX
    then Done ({| play_count := play_count c + 1;
                  image_hasImage := image_hasImage c |}, calls)
    else Undefined.

(** The group of the mode that a call of [drawPlay] displays. *)
Definition displayed {cycle : PlayCycle} (c : LcdCanvas) : group :=
  if (Z.rem (play_count c) play_cycle <? play_change) || negb (image_hasImage c)
  then groupPlay0 else groupPlay1.

(** The cycle of the header in src/. *)
#[export] Instance scenario_cycle : PlayCycle :=
  {| play_cycle := 400; play_change := 350 |}.

(** * Properties *)

(** ** Arithmetic of [size_t] *)

Lemma size_add_exact (a b : Z) :
  0 <= a + b < SIZE_MODULUS -> size_add a b = a + b.
Proof. intros Hr. unfold size_add. now apply Z.mod_small. Qed.

Lemma size_sub_exact (a b : Z) :
  0 <= a - b < SIZE_MODULUS -> size_sub a b = a - b.
Proof. intros Hr. unfold size_sub. now apply Z.mod_small. Qed.

Lemma size_sub_range (a b : Z) : is_size_t (size_sub a b).
Proof.
  unfold is_size_t, size_sub, SIZE_MODULUS. apply Z.mod_pos_bound. lia.
Qed.

Lemma size_add_range (a b : Z) : is_size_t (size_add a b).
Proof.
  unfold is_size_t, size_add, SIZE_MODULUS. apply Z.mod_pos_bound. lia.
Qed.

(** ** Loads and stores *)

Lemma inside_spec (m : Mem) (p n : Z) :
  inside m p n = true <-> base m <= p /\ 0 <= n /\ p + n <= base m + extent m.
Proof.
  unfold inside. rewrite !andb_true_iff, !Z.leb_le. tauto.
Qed.

Lemma load_length (m : Mem) (p n : Z) :
  inside m p n = true -> Z.of_nat (length (load m p n)) = n.
Proof.
  intros Hin. apply inside_spec in Hin. unfold extent in Hin. unfold load.
  rewrite length_firstn, length_skipn. lia.
Qed.

Lemma store_base (m : Mem) (p : Z) (bs : list byte) :
  base (store m p bs) = base m.
Proof. reflexivity. Qed.

Lemma store_extent (m : Mem) (p : Z) (bs : list byte) :
  inside m p (Z.of_nat (length bs)) = true ->
  extent (store m p bs) = extent m.
Proof.
  intros Hin. apply inside_spec in Hin. unfold extent in *. unfold store; simpl.
  rewrite !length_app, length_firstn, length_skipn. lia.
Qed.

(** Writing [bs] right behind a prefix [pre] of the cells. *)
Lemma store_after_prefix (m : Mem) (pre rest bs : list byte) (p : Z) :
  cells m = pre ++ rest ->
  p = base m + Z.of_nat (length pre) ->
  cells (store m p bs) = pre ++ bs ++ skipn (length bs) rest.
Proof.
  intros Hc Hp. unfold store; simpl. subst p.
  replace (base m + Z.of_nat (length pre) - base m) with (Z.of_nat (length pre)) by lia.
  rewrite Nat2Z.id, Hc.
  rewrite firstn_app, firstn_all, Nat.sub_diag. simpl. rewrite app_nil_r.
  rewrite skipn_app, skipn_all2 by lia. simpl.
  now replace (length pre + length bs - length pre)%nat with (length bs) by lia.
Qed.

(** ** [fill] *)

Lemma queue_not_empty_cons {A : Type} (q : queue_t A) (x : A) (rest : list A) :
  elements q = x :: rest -> queue_is_empty q = false.
Proof.
  intros He. unfold queue_is_empty, queue_get_level. rewrite He. reflexivity.
Qed.

Lemma queue_empty_nil {A : Type} (q : queue_t A) :
  queue_is_empty q = true -> elements q = [].
Proof.
  unfold queue_is_empty, queue_get_level. intros He.
  apply Z.eqb_eq in He. destruct (elements q); [reflexivity | discriminate].
Qed.

Lemma fill_with_room (rb : ReadBuffer) (it : secondaryBufferItem_t)
    (rest : list secondaryBufferItem_t) :
  rb_ok rb ->
  _isEof rb = false ->
  elements (secondaryBufferQueue rb) = it :: rest ->
  item_ok rb it ->
  _left rb + item_length it <= _size rb ->
  exists m : Mem,
    fill rb = Done (true, filled rb it
                            {| elements := rest;
                               element_count := element_count (secondaryBufferQueue rb) |} m)
    /\ base m = _head rb
    /\ cells m = refilled rb it.
Proof.
  intros (Hb & He & Hs & Hp & Hl & Hw) Heof Hq Hit Hroom.
  unfold item_ok in Hit. pose proof Hit as Hit'. apply inside_spec in Hit'.
  destruct Hit' as (_ & Hlen & _).
  unfold fill. rewrite Heof, (queue_not_empty_cons _ _ _ Hq).
  unfold queue_remove_blocking. rewrite Hq. cbn [obind fst snd].
  (* memmove *)
  assert (Hin1 : inside (primary rb) (_head rb) (_left rb) = true)
    by (apply inside_spec; lia).
  assert (Hin2 : inside (primary rb) (_ptr rb) (_left rb) = true)
    by (apply inside_spec; lia).
  unfold memmove. rewrite Hin1, Hin2. cbn [andb obind].
  set (tail := load (primary rb) (_ptr rb) (_left rb)).
  assert (Htl : Z.of_nat (length tail) = _left rb) by (now apply load_length).
  set (m1 := store (primary rb) (_head rb) tail).
  assert (Hc1 : cells m1 = tail ++ skipn (length tail) (cells (primary rb))).
  { apply (store_after_prefix (primary rb) [] (cells (primary rb)) tail).
    - reflexivity.
    - simpl. lia. }
  assert (He1 : extent m1 = _size rb).
  { unfold m1. rewrite store_extent; [exact He | now rewrite Htl]. }
  (* memcpy *)
  assert (Hin3 : inside m1 (_head rb + _left rb) (item_length it) = true).
  { apply inside_spec. rewrite He1. unfold m1. rewrite store_base. lia. }
  unfold memcpy. rewrite Hin3, Hit. cbn [andb obind].
  set (chunk := load (secondaryBuffer rb) (item_ptr it) (item_length it)).
  assert (Hcl : Z.of_nat (length chunk) = item_length it) by (now apply load_length).
  set (m2 := store m1 (_head rb + _left rb) chunk).
  assert (Hc2 : cells m2 = tail ++ chunk
                  ++ skipn (length chunk + length tail) (cells (primary rb))).
  { unfold m2.
    rewrite (store_after_prefix m1 tail _ chunk _ Hc1)
      by (unfold m1; rewrite store_base; lia).
    now rewrite skipn_skipn. }
  assert (He2 : extent m2 = _size rb).
  { unfold m2. rewrite store_extent; [exact He1 | now rewrite Hcl]. }
  rewrite (size_sub_exact (_size rb) (_left rb)) by lia.
  rewrite (size_add_exact (_left rb) (item_length it)) by lia.
  unfold extent in He.
  destruct (item_length it <? _size rb - _left rb) eqn:Hsp.
  - (* memset *)
    apply Z.ltb_lt in Hsp.
    rewrite (size_sub_exact (_size rb - _left rb) (item_length it)) by lia.
    assert (Hin4 : inside m2 (_head rb + (_left rb + item_length it))
                     (_size rb - _left rb - item_length it) = true).
    { apply inside_spec. rewrite He2. unfold m2, m1. rewrite !store_base. lia. }
    unfold memset. rewrite Hin4. cbn [obind].
    eexists. split; [reflexivity |]. split; [exact Hb |].
    rewrite app_assoc in Hc2.
    rewrite (store_after_prefix m2 (tail ++ chunk) _ _ _ Hc2).
    + rewrite skipn_skipn, repeat_length, skipn_all2 by lia.
      unfold refilled. fold tail chunk. now rewrite <- app_assoc, app_nil_r.
    + unfold m2, m1. rewrite !store_base, length_app. lia.
  - apply Z.ltb_ge in Hsp. cbn [obind].
    eexists. split; [reflexivity |]. split; [unfold m2, m1; now rewrite !store_base |].
    rewrite Hc2, skipn_all2 by lia.
    unfold refilled. fold tail chunk.
    now replace (_size rb - _left rb - item_length it) with 0 by lia.
Qed.

Lemma refilled_length (rb : ReadBuffer) (it : secondaryBufferItem_t) :
  rb_ok rb -> item_ok rb it -> _left rb + item_length it <= _size rb ->
  Z.of_nat (length (refilled rb it)) = _size rb.
Proof.
  intros (Hb & He & Hs & Hp & Hl & Hw) Hit Hroom.
  pose proof Hit as Hit'. apply inside_spec in Hit'.
  unfold refilled. rewrite !length_app, repeat_length, !Nat2Z.inj_add.
  rewrite !load_length; [lia | exact Hit | apply inside_spec; lia].
Qed.

(** A fill that finds room, in full. *)
Lemma fill_loads (rb : ReadBuffer) (it : secondaryBufferItem_t)
    (rest : list secondaryBufferItem_t) :
  rb_ok rb ->
  _isEof rb = false ->
  elements (secondaryBufferQueue rb) = it :: rest ->
  item_ok rb it ->
  _left rb + item_length it <= _size rb ->
  exists rb' : ReadBuffer,
    fill rb = Done (true, rb')
    /\ elements (secondaryBufferQueue rb') = rest
    /\ _ptr rb' = _head rb'
    /\ cells (primary rb')
       = load (primary rb) (_ptr rb) (_left rb)
         ++ load (secondaryBuffer rb) (item_ptr it) (item_length it)
         ++ repeat Byte.x00 (Z.to_nat (_size rb - (_left rb + item_length it)))
    /\ Z.of_nat (length (load (primary rb) (_ptr rb) (_left rb))) = _left rb
    /\ Z.of_nat (length (load (secondaryBuffer rb) (item_ptr it) (item_length it)))
       = item_length it
    /\ _left rb' = _left rb + item_length it
    /\ _pos rb' = item_pos it
    /\ _isEof rb' = item_reachedEof it
    /\ rb_ok rb'
    /\ (_head rb', _size rb', _fillThreshold rb', _fp rb')
       = (_head rb, _size rb, _fillThreshold rb, _fp rb)
    /\ (secondaryBuffer rb', bindReqQueue rb', bindRespQueue rb')
       = (secondaryBuffer rb, bindReqQueue rb, bindRespQueue rb).
Proof.
  intros Hok Heof Hq Hit Hroom.
  destruct (fill_with_room rb it rest Hok Heof Hq Hit Hroom) as (m & Hf & Hbm & Hcm).
  pose proof (refilled_length rb it Hok Hit Hroom) as Hlen.
  destruct Hok as (Hb & He & Hs & Hp & Hl & Hw).
  pose proof Hit as Hit'. apply inside_spec in Hit'.
  eexists. split; [exact Hf |]. unfold rb_ok. cbn.
  rewrite (size_add_exact (_left rb) (item_length it)) by lia.
  repeat split; try lia.
  - rewrite Hcm. unfold refilled. now rewrite Z.sub_add_distr.
  - apply load_length, inside_spec. lia.
  - now apply load_length.
  - unfold extent. now rewrite Hcm.
  - exact Hs.
Qed.

(** C1 (amended): when the end-of-file flag is clear, the channel holds an
    item and the chunk is no longer than the free space of the buffer
    (old left + length <= size), [fill] returns true, takes exactly that
    item off the channel, leaves the cursor at the base, the buffer holding
    the unread tail, then the chunk, then zeros up to its size, [left]
    increased by the chunk's length, the position and the end-of-file flag
    those of the chunk, and everything else as it was. *)
Theorem fill_success (rb : ReadBuffer) (it : secondaryBufferItem_t)
    (rest : list secondaryBufferItem_t) :
  rb_ok rb ->
  _isEof rb = false ->
  elements (secondaryBufferQueue rb) = it :: rest ->
  item_ok rb it ->
  _left rb + item_length it <= _size rb ->
  exists rb' : ReadBuffer,
    fill rb = Done (true, rb')
    /\ elements (secondaryBufferQueue rb') = rest
    /\ _ptr rb' = _head rb'
    /\ cells (primary rb')
       = load (primary rb) (_ptr rb) (_left rb)
         ++ load (secondaryBuffer rb) (item_ptr it) (item_length it)
         ++ repeat Byte.x00 (Z.to_nat (_size rb - (_left rb + item_length it)))
    /\ Z.of_nat (length (load (primary rb) (_ptr rb) (_left rb))) = _left rb
    /\ Z.of_nat (length (load (secondaryBuffer rb) (item_ptr it) (item_length it)))
       = item_length it
    /\ _left rb' = _left rb + item_length it
    /\ _pos rb' = item_pos it
    /\ _isEof rb' = item_reachedEof it
    /\ rb_ok rb'
    /\ (_head rb', _size rb', _fillThreshold rb', _fp rb')
       = (_head rb, _size rb, _fillThreshold rb, _fp rb)
    /\ (secondaryBuffer rb', bindReqQueue rb', bindRespQueue rb')
       = (secondaryBuffer rb, bindReqQueue rb, bindRespQueue rb).
Proof. exact (fill_loads rb it rest). Qed.

(** [fill] when it cannot load: nothing changes. *)
Lemma fill_fails (rb : ReadBuffer) :
  _isEof rb = true \/ queue_is_empty (secondaryBufferQueue rb) = true ->
  fill rb = Done (false, rb).
Proof.
  intros [He | Hq]; unfold fill.
  - now rewrite He.
  - rewrite Hq. now destruct (_isEof rb).
Qed.

(** Conversely, [fill] completes with true only if the flag was clear and
    the chunk at the head of the channel had room. *)
Lemma fill_true_only_with_room (rb rb' : ReadBuffer) :
  rb_ok rb -> fill rb = Done (true, rb') ->
  _isEof rb = false
  /\ exists (it : secondaryBufferItem_t) (rest : list secondaryBufferItem_t),
       elements (secondaryBufferQueue rb) = it :: rest
       /\ item_ok rb it
       /\ _left rb + item_length it <= _size rb.
Proof.
  intros (Hb & He & Hs & Hp & Hl & Hw) Hf. unfold fill in Hf.
  destruct (_isEof rb); [discriminate |]. split; [reflexivity |].
  destruct (queue_is_empty (secondaryBufferQueue rb)); [discriminate |].
  unfold queue_remove_blocking in Hf.
  destruct (elements (secondaryBufferQueue rb)) as [| it rest];
    cbn [obind fst snd] in Hf; [discriminate |].
  exists it, rest. split; [reflexivity |].
  unfold memmove in Hf.
  destruct (inside (primary rb) (_head rb) (_left rb)
            && inside (primary rb) (_ptr rb) (_left rb)) eqn:Hmv;
    cbn [obind] in Hf; [| discriminate].
  apply andb_true_iff in Hmv. destruct Hmv as (_ & Hsrc).
  unfold memcpy in Hf.
  destruct (inside (store (primary rb) (_head rb)
                      (load (primary rb) (_ptr rb) (_left rb)))
              (_head rb + _left rb) (item_length it)
            && inside (secondaryBuffer rb) (item_ptr it) (item_length it)) eqn:Hcp;
    cbn [obind] in Hf; [| discriminate].
  apply andb_true_iff in Hcp. destruct Hcp as (Hdst & Hit).
  split; [exact Hit |].
  apply inside_spec in Hdst. rewrite store_base in Hdst.
  rewrite store_extent in Hdst by (rewrite (load_length _ _ _ Hsrc); apply inside_spec; lia).
  lia.
Qed.

(** After a fill, [tell] is the chunk's position less everything unread. *)
Lemma tell_after_fill (rb rb' : ReadBuffer) (it : secondaryBufferItem_t)
    (rest : list secondaryBufferItem_t) :
  rb_ok rb ->
  elements (secondaryBufferQueue rb) = it :: rest ->
  fill rb = Done (true, rb') ->
  _left rb + item_length it <= item_pos it < SIZE_MODULUS ->
  tell rb' = item_pos it - (_left rb + item_length it).
Proof.
  intros Hok Hq Hf Hpos.
  destruct (fill_true_only_with_room rb rb' Hok Hf) as (Heof & it' & rest' & Hq' & Hit & Hroom).
  rewrite Hq in Hq'. inversion Hq'; subst it' rest'.
  destruct (fill_loads rb it rest Hok Heof Hq Hit Hroom)
    as (rb2 & Hf2 & _ & _ & _ & _ & _ & Hleft & Hp & _).
  rewrite Hf in Hf2. inversion Hf2; subst rb2.
  unfold tell. rewrite Hleft, Hp. apply size_sub_exact.
  destruct Hok as (_ & _ & _ & _ & Hl & _).
  pose proof Hit as Hit'. apply inside_spec in Hit'. lia.
Qed.

(** [fill] completes in a well-formed state whenever the chunk it would
    take has room; it never adds to the channel. *)
Lemma fill_total (rb : ReadBuffer) :
  rb_ok rb ->
  (_isEof rb = false ->
   forall it, hd_error (elements (secondaryBufferQueue rb)) = Some it ->
              item_ok rb it /\ _left rb + item_length it <= _size rb) ->
  exists (b : bool) (rb' : ReadBuffer),
    fill rb = Done (b, rb') /\ rb_ok rb'
    /\ _size rb' = _size rb /\ _fillThreshold rb' = _fillThreshold rb
    /\ secondaryBuffer rb' = secondaryBuffer rb.
Proof.
  intros Hok Hroom.
  destruct (_isEof rb) eqn:Heof.
  - exists false, rb. rewrite fill_fails by now left. auto.
  - destruct (elements (secondaryBufferQueue rb)) as [| it rest] eqn:Hq.
    + exists false, rb. rewrite fill_fails; auto.
      right. unfold queue_is_empty, queue_get_level. now rewrite Hq.
    + destruct (Hroom eq_refl it eq_refl) as (Hit & Hfit).
      destruct (fill_loads rb it rest Hok Heof Hq Hit Hfit)
        as (rb' & Hf & _ & _ & _ & _ & _ & _ & _ & _ & Hok' & Hfr1 & Hfr2).
      exists true, rb'. inversion Hfr1. inversion Hfr2. auto.
Qed.

(** ** [shift] *)

Lemma advanced_ok (rb : ReadBuffer) (bytes : Z) :
  rb_ok rb -> 0 <= bytes <= _left rb ->
  rb_ok (advanced bytes rb) /\ _left (advanced bytes rb) = _left rb - bytes.
Proof.
  intros (Hb & He & Hs & Hp & Hl & Hw) Hn.
  assert (Hx : size_sub (_left rb) bytes = _left rb - bytes)
    by (apply size_sub_exact; lia).
  unfold rb_ok, advanced; cbn. rewrite Hx. repeat split; try assumption; lia.
Qed.

Lemma room_spec (c : call) (rb : ReadBuffer) (it : secondaryBufferItem_t) :
  room c rb = true -> dequeues c rb = true ->
  hd_error (elements (secondaryBufferQueue rb)) = Some it ->
  item_ok rb it /\ left_at_fill c rb + item_length it <= _size rb.
Proof.
  unfold room, item_ok. intros Hr Hd Hhd. rewrite Hd, Hhd in Hr. cbn in Hr.
  apply andb_true_iff in Hr. destruct Hr as (Hin & Hle).
  apply Z.leb_le in Hle. auto.
Qed.

(** [shift] completes in a well-formed state whenever the fill it makes,
    if any, has room. *)
Lemma shift_total (rb : ReadBuffer) (n : Z) :
  rb_ok rb -> is_size_t n -> room (Shift n) rb = true ->
  exists (b : bool) (rb' : ReadBuffer),
    shift n rb = Done (b, rb') /\ rb_ok rb'
    /\ _size rb' = _size rb /\ _fillThreshold rb' = _fillThreshold rb
    /\ secondaryBuffer rb' = secondaryBuffer rb.
Proof.
  intros Hok Hn Hroom. unfold shift.
  destruct (_left rb <? n) eqn:Hlt.
  - exists false, rb. auto.
  - apply Z.ltb_ge in Hlt. cbv zeta.
    destruct (advanced_ok rb n Hok) as (Hok1 & Hleft); [unfold is_size_t in Hn; lia |].
    destruct (_left (advanced n rb) <? _fillThreshold (advanced n rb)) eqn:Hthr.
    + destruct (fill_total (advanced n rb) Hok1) as (b & rb' & Hf & Hok' & Hfr).
      * intros Heof it Hhd. rewrite Hleft.
        apply (room_spec (Shift n) rb it Hroom); [| exact Hhd].
        unfold dequeues. rewrite Hleft in Hthr. cbn in Heof, Hthr.
        assert (Hge : (_left rb <? n) = false) by (apply Z.ltb_ge; lia).
        rewrite Hge, Hthr, Heof. cbn. cbn in Hhd.
        destruct (elements (secondaryBufferQueue rb)) eqn:Hq; [discriminate Hhd |].
        now rewrite (queue_not_empty_cons _ _ _ Hq).
      * exists true, rb'. rewrite Hf. cbn. auto.
    + exists true, (advanced n rb). auto.
Qed.

(** C2 (amended): [shift n] returns false and changes nothing when
    n > left; otherwise it advances the cursor by n, takes n off [left],
    calls [fill] exactly when the new [left] is below the threshold, and
    then returns true.  It does return, with true and in a well-formed
    state, whenever the chunk that such a call of [fill] takes lies in the
    secondary storage and is no longer than the space the unread bytes
    leave free in the buffer ([room]); when it returns at all with
    n <= left, it returns true.  A threshold of 0 never
    fills; a threshold equal to the buffer size fills on every successful
    shift that leaves fewer than [size] bytes unread, which is every
    successful shift of at least one byte. *)
Theorem shift_spec (rb : ReadBuffer) (n : Z) :
  rb_ok rb -> is_size_t n -> is_size_t (_fillThreshold rb) ->
  (_left rb < n -> shift n rb = Done (false, rb))
  /\ (n <= _left rb ->
      _ptr (advanced n rb) = _ptr rb + n
      /\ _left (advanced n rb) = _left rb - n
      /\ (_left rb - n < _fillThreshold rb -> shift n rb = shift_then_fill n rb)
      /\ (_fillThreshold rb <= _left rb - n -> shift n rb = Done (true, advanced n rb))
      /\ (_fillThreshold rb = 0 -> shift n rb = Done (true, advanced n rb))
      /\ (_fillThreshold rb = _size rb -> 0 < n -> shift n rb = shift_then_fill n rb)
      /\ (forall b rb', shift n rb = Done (b, rb') -> b = true)
      /\ (room (Shift n) rb = true ->
          exists rb' : ReadBuffer, shift n rb = Done (true, rb') /\ rb_ok rb')).
Proof.
  intros Hok Hn Ht.
  assert (Hsz : _left rb <= _size rb)
    by (destruct Hok as (_ & _ & _ & ? & ? & ?); lia).
  split.
  - intros Hlt. unfold shift. apply Z.ltb_lt in Hlt. now rewrite Hlt.
  - intros Hle.
    destruct (advanced_ok rb n Hok) as (_ & Hleft); [unfold is_size_t in Hn; lia |].
    assert (Hge : (_left rb <? n) = false) by (apply Z.ltb_ge; lia).
    assert (Hlow : _left rb - n < _fillThreshold rb -> shift n rb = shift_then_fill n rb).
    { intros Hlt. unfold shift, shift_then_fill. rewrite Hge. cbv zeta.
      rewrite Hleft. cbn [_fillThreshold advanced].
      apply Z.ltb_lt in Hlt. now rewrite Hlt. }
    assert (Hhigh : _fillThreshold rb <= _left rb - n ->
                    shift n rb = Done (true, advanced n rb)).
    { intros Hge'. unfold shift. rewrite Hge. cbv zeta.
      rewrite Hleft. cbn [_fillThreshold advanced].
      apply Z.ltb_ge in Hge'. now rewrite Hge'. }
    assert (Htrue : forall b rb', shift n rb = Done (b, rb') -> b = true).
    { intros b rb' Hs.
      destruct (Z.lt_ge_cases (_left rb - n) (_fillThreshold rb)) as [Hlt | Hge'].
      - rewrite (Hlow Hlt) in Hs. unfold shift_then_fill in Hs.
        destruct (fill (advanced n rb)); cbn [obind] in Hs; try discriminate.
        now inversion Hs.
      - rewrite (Hhigh Hge') in Hs. now inversion Hs. }
    split; [unfold advanced; reflexivity |].
    split; [exact Hleft |].
    split; [exact Hlow |].
    split; [exact Hhigh |].
    split; [intros H0; apply Hhigh; lia |].
    split; [intros Heq Hpos; apply Hlow; lia |].
    split; [exact Htrue |].
    intros Hroom.
    destruct (shift_total rb n Hok Hn Hroom) as (b & rb' & Hs & Hok' & _).
    exists rb'. rewrite (Htrue b rb' Hs) in Hs. now split.
Qed.

(** [shiftAll] consumes all that is unread. *)
Lemma shiftAll_spec (rb : ReadBuffer) :
  rb_ok rb -> is_size_t (_fillThreshold rb) ->
  shiftAll rb = shift (_left rb) rb
  /\ _left (advanced (_left rb) rb) = 0
  /\ (_fillThreshold rb = 0 ->
      shiftAll rb = Done (true, advanced (_left rb) rb)).
Proof.
  intros Hok Ht. split; [reflexivity |].
  destruct (advanced_ok rb (_left rb) Hok) as (_ & Hleft);
    [destruct Hok as (_ & _ & _ & _ & ? & _); lia |].
  split; [lia |].
  intros H0. unfold shiftAll, shift.
  rewrite Z.ltb_irrefl. cbv zeta. rewrite Hleft. cbn [_fillThreshold advanced].
  rewrite H0. now rewrite Z.sub_diag.
Qed.

(** The automatic fill of [shift] has room whenever the threshold and the
    longest chunk together exceed the size of the buffer by at most one. *)
Lemma room_by_threshold (rb : ReadBuffer) (n chunk : Z) :
  _fillThreshold rb + chunk <= _size rb + 1 ->
  (forall it, hd_error (elements (secondaryBufferQueue rb)) = Some it ->
              item_ok rb it /\ item_length it <= chunk) ->
  room (Shift n) rb = true.
Proof.
  intros Hcfg Hitems. unfold room.
  destruct (dequeues (Shift n) rb) eqn:Hd; [| reflexivity].
  cbn [negb orb].
  destruct (hd_error (elements (secondaryBufferQueue rb))) as [it |] eqn:Hhd;
    [| reflexivity].
  destruct (Hitems it eq_refl) as (Hit & Hlen).
  unfold item_ok in Hit. rewrite Hit. cbn [andb].
  apply Z.leb_le. cbn [left_at_fill].
  unfold dequeues in Hd. apply andb_true_iff in Hd. destruct Hd as (Hd & _).
  apply andb_true_iff in Hd. destruct Hd as (Hd & _).
  apply andb_true_iff in Hd. destruct Hd as (_ & Hthr).
  apply Z.ltb_lt in Hthr. lia.
Qed.

(** ** What the consumer does to the queues *)

Lemma fill_take_spec (rb rb1 : ReadBuffer) (it : secondaryBufferItem_t) :
  fill_take rb = Some (it, rb1) ->
  _isEof rb = false
  /\ (exists rest : list secondaryBufferItem_t,
        elements (secondaryBufferQueue rb) = it :: rest
        /\ rb1 = with_secondaryBufferQueue
                   {| elements := rest;
                      element_count := element_count (secondaryBufferQueue rb) |} rb).
Proof.
  unfold fill_take. intros Ht.
  destruct (_isEof rb); [discriminate |].
  destruct (queue_is_empty (secondaryBufferQueue rb)); [discriminate |].
  unfold queue_remove_blocking in Ht.
  destruct (elements (secondaryBufferQueue rb)) as [| x rest] eqn:Hq; [discriminate |].
  inversion Ht; subst it rb1. split; [reflexivity |]. now exists rest.
Qed.

Lemma fill_copy_frame (rb rb' : ReadBuffer) (it : secondaryBufferItem_t) (b : bool) :
  fill_copy it rb = Done (b, rb') ->
  (bindReqQueue rb', bindRespQueue rb', secondaryBufferQueue rb', secondaryBuffer rb',
   _fp rb')
  = (bindReqQueue rb, bindRespQueue rb, secondaryBufferQueue rb, secondaryBuffer rb,
     _fp rb).
Proof.
  unfold fill_copy. intros Hc.
  destruct (memmove _ _ _ _); cbn [obind] in Hc; try discriminate.
  destruct (memcpy _ _ _ _ _); cbn [obind] in Hc; try discriminate.
  destruct (if _ <? _ then _ else _); cbn [obind] in Hc; try discriminate.
  now inversion Hc.
Qed.

Lemma fill_queues (rb rb' : ReadBuffer) (b : bool) :
  fill rb = Done (b, rb') ->
  bindReqQueue rb' = bindReqQueue rb
  /\ bindRespQueue rb' = bindRespQueue rb
  /\ element_count (secondaryBufferQueue rb')
     = element_count (secondaryBufferQueue rb)
  /\ exists k : nat,
       elements (secondaryBufferQueue rb')
       = skipn k (elements (secondaryBufferQueue rb)).
Proof.
  unfold fill. intros Hf.
  destruct (_isEof rb).
  { inversion Hf; subst. repeat split. now exists 0%nat. }
  destruct (queue_is_empty (secondaryBufferQueue rb)).
  { inversion Hf; subst. repeat split. now exists 0%nat. }
  unfold queue_remove_blocking in Hf.
  destruct (elements (secondaryBufferQueue rb)) as [| it rest] eqn:Hq;
    cbn [obind fst snd] in Hf; [discriminate |].
  destruct (memmove _ _ _ _); cbn [obind] in Hf; try discriminate.
  destruct (memcpy _ _ _ _ _); cbn [obind] in Hf; try discriminate.
  destruct (if _ <? _ then _ else _); cbn [obind] in Hf; try discriminate.
  inversion Hf; subst. cbn. repeat split. now exists 1%nat.
Qed.

Lemma shift_queues (rb rb' : ReadBuffer) (n : Z) (b : bool) :
  shift n rb = Done (b, rb') ->
  bindReqQueue rb' = bindReqQueue rb
  /\ bindRespQueue rb' = bindRespQueue rb
  /\ element_count (secondaryBufferQueue rb')
     = element_count (secondaryBufferQueue rb)
  /\ exists k : nat,
       elements (secondaryBufferQueue rb')
       = skipn k (elements (secondaryBufferQueue rb)).
Proof.
  unfold shift. intros Hs.
  destruct (_left rb <? n).
  { inversion Hs; subst. repeat split. now exists 0%nat. }
  cbv zeta in Hs.
  destruct (_left (advanced n rb) <? _fillThreshold (advanced n rb)).
  - destruct (fill (advanced n rb)) as [(b1, rb1) | |] eqn:Hf;
      cbn [obind snd] in Hs; try discriminate.
    inversion Hs; subst. exact (fill_queues (advanced n rb) rb' b1 Hf).
  - inversion Hs; subst. cbn. repeat split. now exists 0%nat.
Qed.

Lemma skipn_shorter {A : Type} (k : nat) (l : list A) :
  Z.of_nat (length (skipn k l)) <= Z.of_nat (length l).
Proof. rewrite length_skipn. lia. Qed.

(** ** Sequences of calls *)

Lemma arrive_frame (items : list secondaryBufferItem_t) (rb : ReadBuffer) :
  (_fp (arrive items rb), _size (arrive items rb), _left (arrive items rb),
   _fillThreshold (arrive items rb), _isEof (arrive items rb))
  = (_fp rb, _size rb, _left rb, _fillThreshold rb, _isEof rb)
  /\ (_head (arrive items rb), _ptr (arrive items rb), _pos (arrive items rb),
      primary (arrive items rb), secondaryBuffer (arrive items rb))
     = (_head rb, _ptr rb, _pos rb, primary rb, secondaryBuffer rb).
Proof.
  revert rb. induction items as [| it more IH]; intros rb; cbn [arrive].
  - auto.
  - destruct (IH (with_secondaryBufferQueue
                    (snd (queue_try_add (secondaryBufferQueue rb) it)) rb))
      as (IH1 & IH2).
    rewrite IH1, IH2. auto.
Qed.

Lemma arrive_ok (items : list secondaryBufferItem_t) (rb : ReadBuffer) :
  rb_ok rb -> rb_ok (arrive items rb).
Proof.
  destruct (arrive_frame items rb) as (H1 & H2).
  inversion H1. inversion H2. unfold rb_ok. congruence.
Qed.

Lemma call_ok_spec (n : Z) : call_ok (Shift n) = true -> is_size_t n.
Proof.
  cbn. intros Hc. apply andb_true_iff in Hc. destruct Hc as (H0 & H1).
  apply Z.leb_le in H0. apply Z.ltb_lt in H1. split; assumption.
Qed.

Lemma do_call_total (c : call) (rb : ReadBuffer) :
  rb_ok rb -> call_ok c = true -> room c rb = true ->
  exists r : bool * ReadBuffer, do_call c rb = Done r /\ rb_ok (snd r).
Proof.
  intros Hok Hc Hroom. destruct c as [| n]; cbn [do_call].
  - destruct (fill_total rb Hok) as (b & rb' & Hf & Hok' & _).
    + intros Heof it Hhd. apply (room_spec Fill rb it Hroom); [| exact Hhd].
      unfold dequeues. rewrite Heof. cbn.
      destruct (elements (secondaryBufferQueue rb)) eqn:Hq; [discriminate Hhd |].
      now rewrite (queue_not_empty_cons _ _ _ Hq).
    + exists (b, rb'). auto.
  - destruct (shift_total rb n Hok (call_ok_spec n Hc) Hroom)
      as (b & rb' & Hs & Hok' & _).
    exists (b, rb'). auto.
Qed.

Lemma rb_ok_bound (rb : ReadBuffer) : rb_ok rb -> 0 <= _left rb <= _size rb.
Proof. intros (_ & _ & _ & Hp & Hl & Hw). lia. Qed.

(** Traces that find room keep the count within the size. *)
Lemma run_bounded (rb : ReadBuffer) (tr : list (list secondaryBufferItem_t * call)) :
  rb_ok rb -> roomy rb tr = true ->
  exists results : list (bool * ReadBuffer),
    run rb tr = Done results
    /\ length results = length tr
    /\ Forall (fun r => 0 <= _left (snd r) <= _size (snd r)) results.
Proof.
  revert rb. induction tr as [| (items, c) more IH]; intros rb Hok Hr.
  - exists []. cbn. auto.
  - cbn [roomy] in Hr. apply andb_true_iff in Hr. destruct Hr as (Hr & Hmore).
    apply andb_true_iff in Hr. destruct Hr as (Hc & Hroom).
    destruct (do_call_total c (arrive items rb) (arrive_ok items rb Hok) Hc Hroom)
      as (r & Hcall & Hok').
    rewrite Hcall in Hmore.
    destruct (IH (snd r) Hok' Hmore) as (rest & Hrun & Hlen & Hall).
    exists (r :: rest). cbn [run]. rewrite Hcall. cbn [obind]. rewrite Hrun.
    cbn [obind length]. repeat split; [congruence |].
    constructor; [now apply rb_ok_bound | exact Hall].
Qed.

(** C3 (amended): from any well-formed buffer, a freshly bound empty one
    in particular, and for any sequence of [shift] and [fill] calls and any
    items arriving in between, if every fill that takes a chunk finds it no
    longer than the free space (left + length <= size), then every call
    completes and 0 <= left <= size holds after every call. *)
Theorem left_bounded (rb : ReadBuffer) (tr : list (list secondaryBufferItem_t * call)) :
  rb_ok rb -> roomy rb tr = true ->
  exists results : list (bool * ReadBuffer),
    run rb tr = Done results
    /\ length results = length tr
    /\ Forall (fun r => 0 <= _left (snd r) <= _size (snd r)) results.
Proof. exact (run_bounded rb tr). Qed.

Lemma Forall_skipn {A : Type} (P : A -> Prop) (k : nat) (l : list A) :
  Forall P l -> Forall P (skipn k l).
Proof.
  intros Hall. rewrite <- (firstn_skipn k l) in Hall.
  apply Forall_app in Hall. tauto.
Qed.

Lemma arrive_elements (P : secondaryBufferItem_t -> Prop)
    (items : list secondaryBufferItem_t) (rb : ReadBuffer) :
  Forall P (elements (secondaryBufferQueue rb)) -> Forall P items ->
  Forall P (elements (secondaryBufferQueue (arrive items rb))).
Proof.
  revert rb. induction items as [| it more IH]; intros rb Hq Hitems; cbn [arrive].
  - exact Hq.
  - inversion Hitems as [| x l Hit Hmore]; subst x l.
    apply IH; [| exact Hmore]. cbn.
    unfold queue_try_add. destruct (queue_is_full (secondaryBufferQueue rb)); cbn.
    + exact Hq.
    + apply Forall_app. split; [exact Hq | constructor; [exact Hit | constructor]].
Qed.

(** When the threshold and the chunk size leave room by configuration
    (threshold + chunk <= size + 1), every trace of [shift] calls finds
    room at each of its automatic fills. *)
Lemma shifts_only_roomy (chunk : Z) (tr : list (list secondaryBufferItem_t * call)) :
  forall rb : ReadBuffer,
    rb_ok rb ->
    _fillThreshold rb + chunk <= _size rb + 1 ->
    Forall (chunk_ok rb chunk) (elements (secondaryBufferQueue rb)) ->
    shifts_only rb chunk tr ->
    roomy rb tr = true.
Proof.
  induction tr as [| (items, c) more IH]; intros rb Hok Hcfg Hq Htr.
  - reflexivity.
  - inversion Htr as [| e l He Hmore]; subst e l.
    cbn [fst snd] in He. destruct He as (Hitems & n & Hc & Hn). subst c.
    destruct (arrive_frame items rb) as (Hfr1 & Hfr2).
    inversion Hfr1 as [[Ha1 Ha2 Ha3 Ha4 Ha5]].
    inversion Hfr2 as [[Hb1 Hb2 Hb3 Hb4 Hb5]].
    assert (Hq1 : Forall (chunk_ok rb chunk)
                    (elements (secondaryBufferQueue (arrive items rb))))
      by (apply arrive_elements; assumption).
    assert (Hroom : room (Shift n) (arrive items rb) = true).
    { apply (room_by_threshold _ n chunk); [rewrite Ha2, Ha4; exact Hcfg |].
      intros it Hhd.
      destruct (elements (secondaryBufferQueue (arrive items rb))) as [| x l];
        [discriminate Hhd |].
      inversion Hhd; subst x. inversion Hq1 as [| y l' (Hi & Hl) _]; subst y l'.
      split; [| exact Hl]. unfold item_ok in *. now rewrite Hb5. }
    cbn [roomy]. rewrite Hroom.
    assert (Hcall : call_ok (Shift n) = true).
    { cbn. destruct Hn as (H0 & H1). apply andb_true_iff. split;
        [now apply Z.leb_le | now apply Z.ltb_lt]. }
    rewrite Hcall. cbn [andb do_call].
    destruct (shift_total (arrive items rb) n (arrive_ok items rb Hok) Hn Hroom)
      as (b & rb' & Hs & Hok' & Hsz & Hth & Hsb).
    rewrite Hs. cbn [snd].
    destruct (shift_queues _ _ _ _ Hs) as (_ & _ & _ & k & Hk).
    assert (Hsame : forall it, chunk_ok rb chunk it -> chunk_ok rb' chunk it).
    { intros it (Hi & Hl). split; [| exact Hl].
      unfold item_ok in *. now rewrite Hsb, Hb5. }
    apply IH.
    + exact Hok'.
    + rewrite Hth, Hsz, Ha2, Ha4. exact Hcfg.
    + rewrite Hk. apply Forall_skipn.
      eapply Forall_impl; [exact Hsame | exact Hq1].
    + unfold shifts_only in *. eapply Forall_impl; [| exact Hmore].
      intros e (He1 & He2). split; [| exact He2].
      eapply Forall_impl; [exact Hsame | exact He1].
Qed.

(** X10: with threshold + chunk <= size + 1, the automatic fill of
    [shift] always finds room: through every trace of [shift] calls, with
    chunks of at most [chunk] bytes arriving, every call completes and the
    count stays within the size. *)
Lemma auto_fill_bounded (rb : ReadBuffer) (chunk : Z)
    (tr : list (list secondaryBufferItem_t * call)) :
  rb_ok rb ->
  _fillThreshold rb + chunk <= _size rb + 1 ->
  Forall (chunk_ok rb chunk) (elements (secondaryBufferQueue rb)) ->
  shifts_only rb chunk tr ->
  exists results : list (bool * ReadBuffer),
    run rb tr = Done results
    /\ length results = length tr
    /\ Forall (fun r => 0 <= _left (snd r) <= _size (snd r)) results.
Proof.
  intros Hok Hcfg Hq Htr. apply run_bounded; [exact Hok |].
  now apply (shifts_only_roomy chunk).
Qed.

(** A new object bound to a file is well-formed and empty. *)
Lemma bind_new_ok (size threshold addr pos0 : Z) (fp fp0 : FILptr) (sb : Mem) :
  0 <= size < SIZE_MODULUS ->
  rb_ok (bind fp (ReadBuffer_new size threshold addr fp0 pos0 sb))
  /\ _left (bind fp (ReadBuffer_new size threshold addr fp0 pos0 sb)) = 0.
Proof.
  intros Hs. unfold rb_ok, extent. cbn [bind ReadBuffer_new calloc base cells primary
    _head _size _ptr _left].
  rewrite repeat_length. lia.
Qed.

(** ** End of file and the empty channel *)

Lemma shift_at_eof (rb : ReadBuffer) (n : Z) :
  _isEof rb = true ->
  exists (b : bool) (rb' : ReadBuffer),
    shift n rb = Done (b, rb') /\ _isEof rb' = true.
Proof.
  intros Heof. unfold shift.
  destruct (_left rb <? n).
  - exists false, rb. auto.
  - cbv zeta.
    destruct (_left (advanced n rb) <? _fillThreshold (advanced n rb)).
    + rewrite fill_fails by (left; exact Heof). cbn.
      exists true, (advanced n rb). auto.
    + exists true, (advanced n rb). auto.
Qed.

(** C4: when the end-of-file flag is set, or it is clear and the channel is
    empty, [fill] returns false and leaves the whole object as it was; once
    the flag is set it stays set through any later [fill] and [shift]
    calls, whatever arrives on the channel, and each of these [fill] calls
    returns false. *)
Theorem fill_refuses (rb : ReadBuffer) :
  _isEof rb = true
  \/ (_isEof rb = false /\ queue_is_empty (secondaryBufferQueue rb) = true) ->
  fill rb = Done (false, rb)
  /\ (_isEof rb = true ->
      forall tr : list (list secondaryBufferItem_t * call),
      exists results : list (bool * ReadBuffer),
        run rb tr = Done results
        /\ Forall2 (fun tc r => _isEof (snd r) = true
                                /\ (snd tc = Fill -> fst r = false))
             tr results).
Proof.
  intros Hcase. split.
  - apply fill_fails. tauto.
  - clear Hcase. intros Heof tr. revert rb Heof.
    induction tr as [| (items, c) more IH]; intros rb Heof.
    + exists []. split; [reflexivity | constructor].
    + assert (Heof1 : _isEof (arrive items rb) = true).
      { destruct (arrive_frame items rb) as (H1 & _). inversion H1. congruence. }
      assert (Hcall : exists r, do_call c (arrive items rb) = Done r
                                /\ _isEof (snd r) = true
                                /\ (c = Fill -> r = (false, arrive items rb))).
      { destruct c as [| n]; cbn [do_call].
        - exists (false, arrive items rb). rewrite fill_fails by (left; exact Heof1). auto.
        - destruct (shift_at_eof (arrive items rb) n Heof1) as (b & rb' & Hs & He).
          exists (b, rb'). repeat split; [exact Hs | exact He | discriminate]. }
      destruct Hcall as (r & Hr & Her & Hfill).
      destruct (IH (snd r) Her) as (rest & Hrun & Hall).
      exists (r :: rest). cbn [run]. rewrite Hr. cbn [obind]. rewrite Hrun.
      split; [reflexivity |]. constructor; [| exact Hall].
      cbn [fst snd]. split; [exact Her |].
      intros Hc. now rewrite (Hfill Hc).
Qed.

(** ** [tell] and [bind] *)

(** C5: [tell] is the stored position minus the number of unread bytes,
    computed in [size_t]; it is their plain difference whenever no more
    bytes are unread than the position counts; and the stored position is
    that of the last chunk loaded, so that after a fill [tell] is the file
    position behind that chunk less all the bytes still unread. *)
Theorem tell_spec (rb : ReadBuffer) :
  tell rb = size_sub (_pos rb) (getLeft rb)
  /\ (0 <= _left rb <= _pos rb -> _pos rb < SIZE_MODULUS ->
      tell rb = _pos rb - _left rb)
  /\ (forall (it : secondaryBufferItem_t) (rest : list secondaryBufferItem_t)
             (rb' : ReadBuffer),
        rb_ok rb ->
        elements (secondaryBufferQueue rb) = it :: rest ->
        fill rb = Done (true, rb') ->
        _left rb + item_length it <= item_pos it < SIZE_MODULUS ->
        _pos rb' = item_pos it
        /\ getLeft rb' = _left rb + item_length it
        /\ tell rb' = item_pos it - (_left rb + item_length it)).
Proof.
  split; [reflexivity |]. split.
  - intros Hl Hp. unfold tell. apply size_sub_exact. lia.
  - intros it rest rb' Hok Hq Hf Hpos.
    pose proof (tell_after_fill rb rb' it rest Hok Hq Hf Hpos) as Ht.
    destruct (fill_true_only_with_room rb rb' Hok Hf)
      as (Heof & it' & rest' & Hq' & Hit & Hroom).
    rewrite Hq in Hq'. inversion Hq'; subst it' rest'.
    destruct (fill_loads rb it rest Hok Heof Hq Hit Hroom)
      as (rb2 & Hf2 & _ & _ & _ & _ & _ & Hleft & Hp & _).
    rewrite Hf in Hf2. inversion Hf2; subst rb2.
    repeat split; assumption.
Qed.

(** C10: [bind] puts the cursor at the base, sets [left] to 0, clears the
    end-of-file flag, records the file, and leaves the stored position and
    all else alone; so [tell] then gives the position left by the previous
    binding, and still does after a [fill] that fails. *)
Theorem bind_keeps_pos (fp : FILptr) (rb : ReadBuffer) :
  bind fp rb
  = {| _fp := fp; _size := _size rb; _left := 0;
       _fillThreshold := _fillThreshold rb; _isEof := false;
       _head := _head rb; _ptr := _head rb; _pos := _pos rb;
       primary := primary rb; secondaryBuffer := secondaryBuffer rb;
       bindReqQueue := bindReqQueue rb; bindRespQueue := bindRespQueue rb;
       secondaryBufferQueue := secondaryBufferQueue rb |}
  /\ buf (bind fp rb) = _head (bind fp rb)
  /\ getLeft (bind fp rb) = 0
  /\ _isEof (bind fp rb) = false
  /\ _pos (bind fp rb) = _pos rb
  /\ (is_size_t (_pos rb) ->
      tell (bind fp rb) = _pos rb
      /\ forall rb', fill (bind fp rb) = Done (false, rb') -> tell rb' = _pos rb).
Proof.
  repeat split.
  - unfold tell, size_sub. cbn. rewrite Z.sub_0_r. now apply Z.mod_small.
  - intros rb' Hf. unfold fill in Hf. cbn [_isEof bind] in Hf.
    destruct (queue_is_empty (secondaryBufferQueue (bind fp rb))).
    + inversion Hf. unfold tell, size_sub. cbn. rewrite Z.sub_0_r.
      now apply Z.mod_small.
    + destruct (queue_remove_blocking (secondaryBufferQueue (bind fp rb)))
        as [(it, q) | |]; cbn [obind] in Hf; try discriminate.
      destruct (memmove _ _ _ _); cbn [obind] in Hf; try discriminate.
      destruct (memcpy _ _ _ _ _); cbn [obind] in Hf; try discriminate.
      destruct (if _ <? _ then _ else _); cbn [obind] in Hf; discriminate.
Qed.

(** ** The small configuration at work *)

Ltac concrete :=
  vm_compute; repeat split; try reflexivity; try discriminate.

(** Four fills of 4 bytes fill the 16-byte buffer exactly. *)
Lemma scenario_four_fills_run (threshold : Z) :
  exists r1 r2 r3 : bool * ReadBuffer,
    run (scenario_fresh threshold) scenario_four_fills
    = Done [r1; r2; r3; (true, scenario_full threshold)]
    /\ map (fun r => _left (snd r)) [r1; r2; r3] = [4; 8; 12].
Proof.
  do 3 eexists. split.
  - vm_compute. reflexivity.
  - reflexivity.
Qed.

(** C1, as stated, fails on the full buffer: the flag is clear and a chunk
    is queued, yet [fill] does not complete with true, because the chunk
    would be copied to [_head + 16], past the end of the buffer. *)
Lemma fill_on_full_buffer :
  rb_ok (scenario_fifth 4)
  /\ _isEof (scenario_fifth 4) = false
  /\ queue_is_empty (secondaryBufferQueue (scenario_fifth 4)) = false
  /\ item_ok (scenario_fifth 4) (scenario_item 4)
  /\ inside (primary (scenario_fifth 4))
       (_head (scenario_fifth 4) + _left (scenario_fifth 4))
       (item_length (scenario_item 4)) = false
  /\ ~ exists rb', fill (scenario_fifth 4) = Done (true, rb').
Proof.
  repeat split; try (vm_compute; (reflexivity || discriminate)).
  intros (rb' & Hf). vm_compute in Hf. discriminate Hf.
Qed.

(** The hypotheses of [fill_success] hold for the second chunk of the
    scenario: 4 unread bytes, 4 more loaded behind them, 8 zeros. *)
Lemma fill_success_witness :
  exists rb' : ReadBuffer,
    fill scenario_first = Done (true, rb')
    /\ _left rb' = 8 /\ _pos rb' = 8 /\ _ptr rb' = _head rb'
    /\ cells (primary rb')
       = [Byte.x01; Byte.x02; Byte.x03; Byte.x04;
          Byte.x05; Byte.x06; Byte.x07; Byte.x08] ++ repeat Byte.x00 8.
Proof.
  destruct (fill_success scenario_first (scenario_item 1) [])
    as (rb' & Hf & _ & Hptr & Hcells & _ & _ & Hleft & Hpos & _).
  - concrete.
  - reflexivity.
  - reflexivity.
  - reflexivity.
  - concrete.
  - exists rb'. repeat split; assumption.
Defined.

(** C2, as stated, fails for a threshold equal to the buffer size: on the
    full buffer [shift 0] succeeds without calling [fill]; the chunk stays
    on the channel. *)
Lemma shift_zero_on_full_buffer :
  _fillThreshold (scenario_fifth 16) = _size (scenario_fifth 16)
  /\ rb_ok (scenario_fifth 16)
  /\ 0 <= _left (scenario_fifth 16)
  /\ shift 0 (scenario_fifth 16) = Done (true, scenario_fifth 16)
  /\ elements (secondaryBufferQueue (scenario_fifth 16)) = [scenario_item 4]
  /\ shift 0 (scenario_fifth 16) <> shift_then_fill 0 (scenario_fifth 16).
Proof.
  repeat split; try (vm_compute; (reflexivity || discriminate)).
Qed.

(** With the threshold equal to the size, [shift 1] on the full buffer
    does call [fill], for a chunk that has only one byte of room. *)
Lemma shift_one_on_full_buffer :
  shift 1 (scenario_fifth 16) = shift_then_fill 1 (scenario_fifth 16)
  /\ room (Shift 1) (scenario_fifth 16) = false
  /\ shift 1 (scenario_fifth 16) = Undefined.
Proof. repeat split; vm_compute; reflexivity. Qed.

(** [shift_spec] on the scenario: with 4 bytes unread, [shift 3] leaves 1,
    below the threshold 4, and the next chunk has room: the shift loads it
    and returns true; [shift 9] is refused. *)
Lemma shift_spec_witness :
  shift 3 scenario_first = shift_then_fill 3 scenario_first
  /\ room (Shift 3) scenario_first = true
  /\ (exists rb2, shift 3 scenario_first = Done (true, rb2) /\ rb_ok rb2)
  /\ (exists rb2, shift 3 scenario_first = Done (true, rb2) /\ _left rb2 = 5)
  /\ shift 9 scenario_first = Done (false, scenario_first).
Proof.
  assert (Hok : rb_ok scenario_first) by concrete.
  assert (Ht : is_size_t (_fillThreshold scenario_first)) by concrete.
  destruct (shift_spec scenario_first 3 Hok) as (_ & Hle); [concrete | exact Ht |].
  destruct Hle as (_ & _ & Hlow & _ & _ & _ & _ & Hroom); [concrete |].
  destruct (shift_spec scenario_first 9 Hok) as (Hgt & _); [concrete | exact Ht |].
  split; [apply Hlow; concrete |].
  split; [reflexivity |].
  split; [apply Hroom; reflexivity |].
  split; [eexists; split; vm_compute; reflexivity |].
  apply Hgt. concrete.
Defined.

(** C3, as stated, fails: after four fills [left] is 16, and the fifth
    fill does not complete; the count it stores at l.75 is 20, more than
    the size 16. *)
Lemma fifth_fill_overruns :
  (exists r1 r2 r3 : bool * ReadBuffer,
     run (scenario_fresh 4) scenario_four_fills
     = Done [r1; r2; r3; (true, scenario_full 4)])
  /\ _left (scenario_full 4) = _size (scenario_full 4)
  /\ do_call Fill (arrive [scenario_item 4] (scenario_full 4)) = Undefined
  /\ run (scenario_fresh 4) (scenario_four_fills ++ [([scenario_item 4], Fill)])
     = Undefined
  /\ (forall q m, _left (filled (scenario_fifth 4) (scenario_item 4) q m) = 20)
  /\ _size (scenario_fifth 4) = 16.
Proof.
  split.
  - destruct (scenario_four_fills_run 4) as (r1 & r2 & r3 & Hrun & _).
    now exists r1, r2, r3.
  - repeat split; vm_compute; reflexivity.
Qed.

Lemma left_bounded_witness :
  exists results : list (bool * ReadBuffer),
    run (scenario_fresh 4) scenario_trace = Done results
    /\ length results = 3%nat
    /\ Forall (fun r => 0 <= _left (snd r) <= _size (snd r)) results.
Proof.
  apply (left_bounded (scenario_fresh 4) scenario_trace).
  - concrete.
  - vm_compute. reflexivity.
Defined.

(** [fill_refuses] on the full buffer once its flag is set: the fifth
    chunk stays where it is. *)
Lemma fill_refuses_witness :
  fill scenario_at_eof = Done (false, scenario_at_eof)
  /\ exists results : list (bool * ReadBuffer),
       run scenario_at_eof [([], Fill); ([], Shift 6); ([scenario_item 5], Fill)]
       = Done results
       /\ Forall2 (fun tc r => _isEof (snd r) = true
                               /\ (snd tc = Fill -> fst r = false))
            [([], Fill); ([], Shift 6); ([scenario_item 5], Fill)] results.
Proof.
  destruct (fill_refuses scenario_at_eof) as (Hf & Hrun).
  - left. reflexivity.
  - split; [exact Hf |]. apply Hrun. reflexivity.
Defined.

(** [tell_spec] on the scenario: the full buffer stands at position 0 of
    the file; with 4 bytes unread and the chunk ending at 8 loaded, [tell]
    is still 0. *)
Lemma tell_spec_witness :
  tell (scenario_full 4) = 16 - 16
  /\ exists rb' : ReadBuffer,
       fill scenario_first = Done (true, rb') /\ tell rb' = 8 - (4 + 4).
Proof.
  destruct (tell_spec (scenario_full 4)) as (_ & Hexact & _).
  split; [apply Hexact; concrete |].
  destruct (tell_spec scenario_first) as (_ & _ & Hfill).
  eexists. split; [vm_compute; reflexivity |].
  eapply (Hfill (scenario_item 1) []).
  - concrete.
  - reflexivity.
  - vm_compute. reflexivity.
  - concrete.
Defined.

(** Binding the full buffer anew: [tell] still answers 16. *)
Lemma bind_keeps_pos_witness :
  tell (bind 2 (scenario_full 4)) = 16.
Proof.
  destruct (bind_keeps_pos 2 (scenario_full 4)) as (_ & _ & _ & _ & _ & Htell).
  destruct Htell as (Ht & _); [concrete | exact Ht].
Defined.

(** ** The two cores *)

Section CoresFacts.

Context {FS : Type} {fatfs : FatFs FS} {config : PoolConfig} {race : Interleaving}.

(** Core 0 leaves the locals of the loop alone, only takes from the
    secondary-buffer channel and from the response queue, and only adds to
    the request queue. *)
Lemma core0_step_queues (s s' : System FS) :
  core0_step s s' ->
  loop s' = loop s
  /\ element_count (secondaryBufferQueue (rbuf s'))
     = element_count (secondaryBufferQueue (rbuf s))
  /\ (exists k : nat,
        elements (secondaryBufferQueue (rbuf s'))
        = skipn k (elements (secondaryBufferQueue (rbuf s))))
  /\ (exists k : nat,
        elements (bindRespQueue (rbuf s'))
        = skipn k (elements (bindRespQueue (rbuf s))))
  /\ (exists more : list bindReq_t,
        elements (bindReqQueue (rbuf s'))
        = elements (bindReqQueue (rbuf s)) ++ more).
Proof.
  intros Hstep.
  destruct Hstep as [s r | s r q Hrm | s b rb Hf | s n b rb Hs | s it rb Ht
                    | s it b rb Hc | s n Hn | s fp | s fp fpos];
    cbn.
  - repeat split; try (now exists 0%nat).
    unfold queue_try_add. destruct (queue_is_full (bindReqQueue (rbuf s))); cbn.
    + exists []. now rewrite app_nil_r.
    + now exists [r].
  - repeat split; try (now exists 0%nat); try (exists []; now rewrite app_nil_r).
    unfold queue_remove_blocking in Hrm.
    destruct (elements (bindRespQueue (rbuf s))) as [| x rest]; [discriminate |].
    inversion Hrm; subst. now exists 1%nat.
  - destruct (fill_queues _ _ _ Hf) as (Hq1 & Hq2 & Hc & Hk).
    rewrite Hq1, Hq2, Hc. repeat split; try exact Hk; try (now exists 0%nat).
    exists []. now rewrite app_nil_r.
  - destruct (shift_queues _ _ _ _ Hs) as (Hq1 & Hq2 & Hc & Hk).
    rewrite Hq1, Hq2, Hc. repeat split; try exact Hk; try (now exists 0%nat).
    exists []. now rewrite app_nil_r.
  - destruct (fill_take_spec _ _ _ Ht) as (_ & rest & Hq & Hrb). subst rb. cbn.
    repeat split; try (now exists 0%nat).
    + exists 1%nat. now rewrite Hq.
    + exists []. now rewrite app_nil_r.
  - pose proof (fill_copy_frame _ _ _ _ Hc) as Hfr.
    injection Hfr as Hq1 Hq2 Hq3 _ _. rewrite Hq1, Hq2, Hq3.
    repeat split; try (now exists 0%nat). exists []. now rewrite app_nil_r.
  - repeat split; try (now exists 0%nat). exists []. now rewrite app_nil_r.
  - repeat split; try (now exists 0%nat). exists []. now rewrite app_nil_r.
  - repeat split; try (now exists 0%nat). exists []. now rewrite app_nil_r.
Qed.

(** *** Backpressure *)

Lemma pool_bounded_core0 (s s' : System FS) :
  core0_step s s' -> pool_bounded s -> pool_bounded s'.
Proof.
  intros Hstep (Hc & Hle & Hlt).
  destruct (core0_step_queues s s' Hstep) as (Hl & Hc' & (k & Hk) & _).
  unfold pool_bounded, queue_get_level in *. rewrite Hl, Hc', Hk.
  pose proof (skipn_shorter k (elements (secondaryBufferQueue (rbuf s)))).
  repeat split; [assumption | lia |]. intros Hpc. specialize (Hlt Hpc). lia.
Qed.

Lemma pool_bounded_core1 (s s' : System FS) :
  fillLoop_step s = Some s' -> pool_bounded s -> pool_bounded s'.
Proof.
  unfold fillLoop_step. intros Hstep (Hc & Hle & Hlt).
  destruct s as [rb l d]. cbn [rbuf loop disk] in *.
  assert (Hkeep : forall l' (d' : FS), (pc l' = Reading \/ pc l' = Publish -> False) ->
                  pool_bounded {| rbuf := rb; loop := l'; disk := d' |}).
  { intros l' d' Hpc'. unfold pool_bounded. cbn.
    repeat split; [assumption | assumption | intros Hp; now destruct (Hpc' Hp)]. }
  assert (Hother : forall q1 q2 sb l' (d' : FS),
            (pc l' = Reading \/ pc l' = Publish -> False) ->
            pool_bounded
              {| rbuf := with_secondaryBuffer sb
                           (with_bindRespQueue q2 (with_bindReqQueue q1 rb));
                 loop := l'; disk := d' |}).
  { intros q1 q2 sb l' d' Hpc'. unfold pool_bounded. cbn.
    repeat split; [assumption | assumption | intros Hp; now destruct (Hpc' Hp)]. }
  destruct (pc l) eqn:Hpc.
  - (* Idle *)
    destruct (queue_is_empty (bindReqQueue rb)).
    + inversion Hstep; subst s'. apply Hkeep. rewrite Hpc. intros [? | ?]; discriminate.
    + destruct (queue_remove_blocking (bindReqQueue rb)) as [(r, q) | |];
        inversion Hstep; subst s'.
      * unfold pool_bounded. cbn.
        repeat split; [assumption | assumption | intros [? | ?]; discriminate].
      * apply Hkeep. rewrite Hpc. intros [? | ?]; discriminate.
      * apply Hkeep. rewrite Hpc. intros [? | ?]; discriminate.
  - (* Requested *)
    destruct (req_flag (loop_req l)); inversion Hstep; subst s'.
    + unfold pool_bounded. cbn.
      repeat split; [assumption | assumption | intros [? | ?]; discriminate].
    + apply Hkeep. cbn. intros [? | ?]; discriminate.
  - (* Respond *)
    inversion Hstep; subst s'. unfold pool_bounded. cbn.
    repeat split; [assumption | assumption |].
    destruct (req_flag (loop_req l)); intros [? | ?]; discriminate.
  - (* Streaming *)
    inversion Hstep; subst s'. apply Hkeep. cbn.
    destruct (loop_reachedEof l); intros [? | ?]; discriminate.
  - (* TopUp *)
    destruct (queue_get_level (secondaryBufferQueue rb) <? NUM_SECONDARY_BUFFERS) eqn:Hlv;
      inversion Hstep; subst s'.
    + unfold pool_bounded. cbn.
      repeat split; [assumption | assumption | intros _; now apply Z.ltb_lt].
    + apply Hkeep. cbn. intros [? | ?]; discriminate.
  - (* Reading *)
    specialize (Hlt (or_introl eq_refl)).
    destruct (f_read d (loop_fp l) SECONDARY_BUFFER_SIZE) as ((fr, data), d').
    destruct (negb (is_FR_OK fr) || (Z.of_nat (length data) =? 0));
      inversion Hstep; subst s'; unfold pool_bounded; cbn;
      repeat split; try assumption.
    + intros [? | ?]; discriminate.
    + intros _. exact Hlt.
  - (* Publish *)
    specialize (Hlt (or_intror eq_refl)).
    inversion Hstep; subst s'. unfold pool_bounded. cbn.
    unfold queue_try_add, queue_is_full. rewrite Hc.
    assert (Hnf : (NUM_SECONDARY_BUFFERS
                   <=? queue_get_level (secondaryBufferQueue rb)) = false)
      by (apply Z.leb_gt; exact Hlt).
    rewrite Hnf. cbn. unfold queue_get_level in *. cbn [elements].
    rewrite length_app. cbn [length].
    repeat split; [lia |].
    destruct (loop_reachedEof l); intros [? | ?]; discriminate.
  - (* Poll *)
    destruct (queue_is_empty (bindReqQueue rb)).
    + inversion Hstep; subst s'. apply Hkeep. cbn. intros [? | ?]; discriminate.
    + destruct (queue_remove_blocking (bindReqQueue rb)) as [(r, q) | |];
        inversion Hstep; subst s'.
      * unfold pool_bounded. cbn.
        repeat split; [assumption | assumption |].
        destruct (req_flag r); intros [? | ?]; discriminate.
      * apply Hkeep. rewrite Hpc. intros [? | ?]; discriminate.
      * apply Hkeep. rewrite Hpc. intros [? | ?]; discriminate.
  - (* Draining *)
    destruct (queue_is_empty (secondaryBufferQueue rb)).
    + inversion Hstep; subst s'. apply Hkeep. cbn. intros [? | ?]; discriminate.
    + unfold queue_remove_blocking in Hstep.
      destruct (elements (secondaryBufferQueue rb)) as [| it rest] eqn:Hq;
        inversion Hstep; subst s'.
      * apply Hkeep. rewrite Hpc. intros [? | ?]; discriminate.
      * unfold pool_bounded, queue_get_level in *. rewrite Hq in Hle.
        cbn in Hle. cbn.
        repeat split; [assumption | lia | intros [? | ?]; discriminate].
  - (* Respond2 *)
    inversion Hstep; subst s'. unfold pool_bounded. cbn.
    repeat split; [assumption | assumption |].
    destruct (req_flag (loop_req l)); intros [? | ?]; discriminate.
  - (* Returned *)
    discriminate.
Qed.

(** C7: once the loop has set up its queues, in every state the two cores
    can reach the secondary-buffer channel holds at most
    NUM_SECONDARY_BUFFERS items; the loop is about to read or to publish
    only while it holds fewer, so that the item it publishes is never
    the (N+1)-th; and with N items queued the loop passes the read by. *)
Theorem backpressure (s : System FS) :
  0 < NUM_SECONDARY_BUFFERS ->
  reachable s ->
  queue_get_level (secondaryBufferQueue (rbuf s)) <= NUM_SECONDARY_BUFFERS
  /\ (pc (loop s) = Reading \/ pc (loop s) = Publish ->
      queue_get_level (secondaryBufferQueue (rbuf s)) < NUM_SECONDARY_BUFFERS)
  /\ (pc (loop s) = TopUp ->
      queue_get_level (secondaryBufferQueue (rbuf s)) = NUM_SECONDARY_BUFFERS ->
      fillLoop_step s = Some (with_loop (at_pc Poll (loop s)) s)).
Proof.
  intros HN (s0 & Hsteps).
  assert (Hinv : pool_bounded s).
  { remember (fillLoop_enter s0) as si eqn:Hsi.
    induction Hsteps as [s1 | s1 s2 s3 Hs12 IH Hs23].
    - subst s1. unfold pool_bounded, queue_get_level. cbn.
      repeat split; [lia |]. intros [? | ?]; discriminate.
    - specialize (IH Hsi). destruct Hs23 as [s2 s3 H1 | s2 s3 H1].
      + exact (pool_bounded_core0 s2 s3 H1 IH).
      + exact (pool_bounded_core1 s2 s3 H1 IH). }
  destruct Hinv as (Hc & Hle & Hlt).
  repeat split; [exact Hle | exact Hlt |].
  intros Hpc Hfull. unfold fillLoop_step. rewrite Hpc, Hfull.
  now rewrite Z.ltb_irrefl.
Qed.

(** *** A failed read *)

Lemma returned_forever (s s' : System FS) :
  pc (loop s) = Returned -> steps s s' ->
  pc (loop s') = Returned
  /\ (exists k : nat,
        elements (secondaryBufferQueue (rbuf s'))
        = skipn k (elements (secondaryBufferQueue (rbuf s))))
  /\ (exists k : nat,
        elements (bindRespQueue (rbuf s'))
        = skipn k (elements (bindRespQueue (rbuf s))))
  /\ (exists more : list bindReq_t,
        elements (bindReqQueue (rbuf s'))
        = elements (bindReqQueue (rbuf s)) ++ more).
Proof.
  intros Hpc Hsteps. induction Hsteps as [s | s s1 s2 Hs IH Hstep].
  - repeat split; [exact Hpc | now exists 0%nat | now exists 0%nat |].
    exists []. now rewrite app_nil_r.
  - destruct (IH Hpc) as (Hpc1 & (k1 & Hk1) & (k2 & Hk2) & (m1 & Hm1)).
    destruct Hstep as [s1 s2 H0 | s1 s2 H1].
    + destruct (core0_step_queues s1 s2 H0)
        as (Hl & _ & (j1 & Hj1) & (j2 & Hj2) & (n1 & Hn1)).
      rewrite Hl. repeat split; [exact Hpc1 | | |].
      * exists (j1 + k1)%nat. now rewrite Hj1, Hk1, skipn_skipn.
      * exists (j2 + k2)%nat. now rewrite Hj2, Hk2, skipn_skipn.
      * exists (m1 ++ n1). now rewrite Hn1, Hm1, app_assoc.
    + unfold fillLoop_step in H1. rewrite Hpc1 in H1. discriminate H1.
Qed.

(** C6: when the read of the streaming phase reports an error or gives no
    bytes, that move of the loop is its return: the three queues are as
    they were, so no item was published for the read; and in every state
    the two cores reach afterwards the loop makes no move at all, the
    secondary-buffer channel and the response queue only lose elements,
    and the requests sent stay in the request queue. *)
Theorem read_failure_stops (s : System FS) (fr : FRESULT) (data : list byte) (d : FS) :
  pc (loop s) = Reading ->
  f_read (disk s) (loop_fp (loop s)) SECONDARY_BUFFER_SIZE = (fr, data, d) ->
  fr <> FR_OK \/ Z.of_nat (length data) = 0 ->
  exists s' : System FS,
    fillLoop_step s = Some s'
    /\ pc (loop s') = Returned
    /\ secondaryBufferQueue (rbuf s') = secondaryBufferQueue (rbuf s)
    /\ bindReqQueue (rbuf s') = bindReqQueue (rbuf s)
    /\ bindRespQueue (rbuf s') = bindRespQueue (rbuf s)
    /\ forall s'' : System FS, steps s' s'' ->
         fillLoop_step s'' = None
         /\ (exists k : nat,
               elements (secondaryBufferQueue (rbuf s''))
               = skipn k (elements (secondaryBufferQueue (rbuf s))))
         /\ (exists k : nat,
               elements (bindRespQueue (rbuf s''))
               = skipn k (elements (bindRespQueue (rbuf s))))
         /\ (exists more : list bindReq_t,
               elements (bindReqQueue (rbuf s''))
               = elements (bindReqQueue (rbuf s)) ++ more).
Proof.
  intros Hpc Hread Hbad.
  assert (Htest : negb (is_FR_OK fr) || (Z.of_nat (length data) =? 0) = true).
  { destruct Hbad as [Hfr | Hbr].
    - destruct fr; try reflexivity. now destruct Hfr.
    - rewrite Hbr. apply orb_true_r. }
  eexists. split.
  { unfold fillLoop_step. rewrite Hpc, Hread, Htest. reflexivity. }
  cbn. repeat split.
  all: match goal with Hs : steps ?s1 ?s2 |- _ =>
         destruct (returned_forever s1 s2 eq_refl Hs) as (Hpc2 & Hq1 & Hq2 & Hq3)
       end.
  - unfold fillLoop_step. now rewrite Hpc2.
  - exact Hq1.
  - exact Hq2.
  - exact Hq3.
Qed.

(** *** The bind handshake *)

Lemma await_more (cond : System FS -> bool) (k k' : nat) (s s' : System FS) :
  await k cond s = Done s' -> (k <= k')%nat -> await k' cond s = Done s'.
Proof.
  revert k' s. induction k as [| k IH]; intros k' s Ha Hle.
  - cbn in Ha. destruct (cond s) eqn:Hc; [| discriminate].
    destruct k'; cbn; now rewrite Hc.
  - destruct k' as [| k']; [lia |].
    cbn in Ha |- *. destruct (cond s); [exact Ha |].
    destruct (fillLoop_step s) as [s1 |]; [| discriminate].
    apply IH; [exact Ha | lia].
Qed.

Lemma await_stuck (cond : System FS -> bool) (s : System FS) :
  cond s = false -> fillLoop_step s = Some s ->
  forall fuel : nat, await fuel cond s = Blocked.
Proof.
  intros Hc Hs fuel. induction fuel as [| k IH]; cbn; rewrite Hc.
  - reflexivity.
  - now rewrite Hs.
Qed.

Lemma await_later (cond : System FS -> bool) (s s1 : System FS) :
  cond s = false -> fillLoop_step s = Some s1 ->
  (forall fuel : nat, await fuel cond s1 = Blocked) ->
  forall fuel : nat, await fuel cond s = Blocked.
Proof.
  intros Hc Hs Hb fuel. destruct fuel as [| k]; cbn; rewrite Hc.
  - reflexivity.
  - rewrite Hs. apply Hb.
Qed.

Lemma queue_eta {A : Type} (q : queue_t A) :
  {| elements := elements q; element_count := element_count q |} = q.
Proof. now destruct q. Qed.

Lemma with_queues_same (rb : ReadBuffer) :
  with_bindRespQueue (bindRespQueue rb) (with_bindReqQueue (bindReqQueue rb) rb) = rb.
Proof. now destruct rb. Qed.

Lemma try_add_empty {A : Type} (q : queue_t A) (x : A) :
  elements q = [] -> 0 < element_count q ->
  queue_try_add q x = (true, {| elements := [x]; element_count := element_count q |}).
Proof.
  intros He Hc. unfold queue_try_add, queue_is_full, queue_get_level.
  rewrite He. cbn [length Z.of_nat app].
  assert (Hf : (element_count q <=? 0) = false) by (apply Z.leb_gt; exact Hc).
  now rewrite Hf.
Qed.

(** From a quiescent state the loop answers a request in three moves, and
    once core 0 has taken the answer the control queues are empty again. *)
Lemma handshake (r : bindReq_t) (s : System FS) (fuel : nat) :
  quiescent s -> (3 <= fuel)%nat ->
  exists s1 : System FS,
    await fuel response_ready (requested r s) = Done s1
    /\ elements (bindRespQueue (rbuf s1)) = [r]
    /\ (exists q, queue_remove_blocking (bindRespQueue (rbuf s1)) = Done (r, q)
                  /\ with_rbuf (with_bindRespQueue q (rbuf s1)) s1 = answered r s).
Proof.
  intros (Hpc & Hq1 & Hq2 & Hc1 & Hc2) Hfuel.
  exists (with_rbuf (with_bindRespQueue
                       {| elements := [r];
                          element_count := element_count (bindRespQueue (rbuf s)) |}
                       (rbuf (answered r s))) (answered r s)).
  split.
  - apply (await_more response_ready 3 fuel); [| exact Hfuel].
    destruct s as [rb l d]. destruct l as [lid lpos lfp leof lreq litem lpc].
    destruct rb as [rfp rsize rleft rthr reof rhead rptr rpos rprim rsec
                      [q1 c1] [q2 c2] q3].
    cbn in Hpc, Hq1, Hq2, Hc1, Hc2. subst lpc q1 q2.
    assert (Hf1 : (c1 <=? 0) = false) by (apply Z.leb_gt; exact Hc1).
    assert (Hf2 : (c2 <=? 0) = false) by (apply Z.leb_gt; exact Hc2).
    unfold requested, answered, queue_try_add, queue_is_full, queue_get_level.
    cbn. rewrite Hf1. cbn.
    unfold fillLoop_step, queue_try_add, queue_is_full, queue_get_level.
    destruct r as [fp flag]. destruct flag; cbn; rewrite Hf2; reflexivity.
  - split.
    + unfold answered. destruct (req_flag r); reflexivity.
    + eexists. split; [unfold answered; destruct (req_flag r); reflexivity |].
      destruct s as [rb l d].
      destruct rb as [rfp rsize rleft rthr reof rhead rptr rpos rprim rsec q1 [q2 c2] q3].
      cbn in Hq2. subst q2.
      unfold answered. destruct (req_flag r); reflexivity.
Qed.

(** The answer takes the loop three moves: with fewer, core 0 still waits. *)
Lemma handshake_waits (r : bindReq_t) (s : System FS) (fuel : nat) :
  quiescent s -> (fuel < 3)%nat ->
  await fuel response_ready (requested r s) = Blocked.
Proof.
  intros (Hpc & Hq1 & Hq2 & Hc1 & Hc2) Hfuel.
  destruct s as [rb l d]. destruct l as [lid lpos lfp leof lreq litem lpc].
  destruct rb as [rfp rsize rleft rthr reof rhead rptr rpos rprim rsec
                    [q1 c1] [q2 c2] q3].
  cbn in Hpc, Hq1, Hq2, Hc1, Hc2. subst lpc q1 q2.
  assert (Hf1 : (c1 <=? 0) = false) by (apply Z.leb_gt; exact Hc1).
  unfold requested, queue_try_add, queue_is_full, queue_get_level.
  cbn. rewrite Hf1. cbn.
  destruct fuel as [| [| [| k]]]; [reflexivity | reflexivity | | lia].
  destruct r as [fp flag]. destruct flag; reflexivity.
Qed.

(** C8: with the loop idle and the control queues empty, a disconnect
    request is no more than a round trip.  [reqBind fp false] puts the
    request on the request queue and waits: it is still blocked while the
    loop has made fewer than three moves, and returns once it has made
    three (take the request, bind nothing, acknowledge), with the
    acknowledgement, which is the request itself, taken off the response
    queue.  The state it
    returns in is the one it was called in, but for the loop's copy of
    the last request, which is now this one: the object (no new binding,
    its fields, storage and queues), the file system and the bookkeeping
    of the loop (slot index, position, file, end-of-file flag) are as they
    were, and the loop is idle again.  So a second disconnect changes
    nothing at all. *)
Theorem disconnect_idle_noop (fp : FILptr) (s : System FS) (fuel : nat) :
  quiescent s -> (3 <= fuel)%nat ->
  let r := {| req_fp := fp; req_flag := false |} in
  (exists s1 : System FS,
     await fuel response_ready (requested r s) = Done s1
     /\ elements (bindRespQueue (rbuf s1)) = [r]
     /\ pc (loop s1) = Idle
     /\ exists q : queue_t bindReq_t,
          queue_remove_blocking (bindRespQueue (rbuf s1)) = Done (r, q)
          /\ reqBind fuel fp false s
             = Done (with_rbuf (with_bindRespQueue q (rbuf s1)) s1))
  /\ (exists s' : System FS,
        reqBind fuel fp false s = Done s'
        /\ s' = with_loop (with_req r (loop s)) s
        /\ rbuf s' = rbuf s
        /\ disk s' = disk s
        /\ pc (loop s') = Idle
        /\ (loop_id (loop s'), loop_pos (loop s'), loop_fp (loop s'),
            loop_reachedEof (loop s'), loop_item (loop s'))
           = (loop_id (loop s), loop_pos (loop s), loop_fp (loop s),
              loop_reachedEof (loop s), loop_item (loop s))
        /\ loop_req (loop s') = r
        /\ quiescent s'
        /\ reqBind fuel fp false s' = Done s')
  /\ (forall k : nat, (k < 3)%nat -> reqBind k fp false s = Blocked).
Proof.
  intros Hq Hfuel r.
  assert (Hone : forall s0 : System FS, quiescent s0 ->
            exists s1, await fuel response_ready (requested r s0) = Done s1
                       /\ elements (bindRespQueue (rbuf s1)) = [r]
                       /\ pc (loop s1) = Idle
                       /\ (exists q : queue_t bindReq_t,
                             queue_remove_blocking (bindRespQueue (rbuf s1))
                             = Done (r, q)
                             /\ reqBind fuel fp false s0
                                = Done (with_rbuf (with_bindRespQueue q (rbuf s1)) s1))
                       /\ reqBind fuel fp false s0
                          = Done (with_loop (with_req r (loop s0)) s0)).
  { intros s0 Hq0.
    destruct (handshake r s0 fuel Hq0 Hfuel) as (s1 & Ha & He & q & Hrm & Hs).
    assert (Hreq : reqBind fuel fp false s0
                   = Done (with_rbuf (with_bindRespQueue q (rbuf s1)) s1)).
    { unfold reqBind. fold r. fold (requested r s0).
      rewrite Ha. cbn [obind]. rewrite Hrm. reflexivity. }
    exists s1. split; [exact Ha |]. split; [exact He |]. split; [| split].
    - destruct Hq0 as (Hpc0 & _).
      assert (Hl : loop (with_rbuf (with_bindRespQueue q (rbuf s1)) s1) = loop s1)
        by reflexivity.
      rewrite Hs in Hl. rewrite <- Hl. exact Hpc0.
    - exists q. split; [exact Hrm | exact Hreq].
    - rewrite Hreq. now rewrite Hs. }
  destruct (Hone s Hq) as (s1 & Ha & He & Hpc1 & Hq1 & Hreq).
  split; [exists s1; auto |].
  assert (Hq' : quiescent (with_loop (with_req r (loop s)) s)) by exact Hq.
  split.
  - exists (with_loop (with_req r (loop s)) s).
    repeat split; try exact Hreq; try apply Hq.
    destruct (Hone _ Hq') as (_ & _ & _ & _ & _ & Hreq').
    rewrite Hreq'. destruct s as [rb l d]. now destruct l.
  - intros k Hk. unfold reqBind. fold r. fold (requested r s).
    now rewrite (handshake_waits r s k Hq Hk).
Qed.

(** *** Filling the pool *)

Lemma with_pool_back (rb : ReadBuffer) (q q' : queue_t secondaryBufferItem_t)
    (m m' : Mem) :
  with_secondaryBufferQueue q
    (with_secondaryBuffer m (with_secondaryBufferQueue q' (with_secondaryBuffer m' rb)))
  = with_secondaryBufferQueue q (with_secondaryBuffer m rb).
Proof. reflexivity. Qed.

Lemma with_pool_frame (a b : ReadBuffer) (q1 q2 q : queue_t secondaryBufferItem_t)
    (m1 m2 m : Mem) :
  with_secondaryBufferQueue q1 (with_secondaryBuffer m1 a)
  = with_secondaryBufferQueue q2 (with_secondaryBuffer m2 b) ->
  with_secondaryBufferQueue q (with_secondaryBuffer m a)
  = with_secondaryBufferQueue q (with_secondaryBuffer m b).
Proof.
  destruct a, b. cbn. intros Heq. inversion Heq. reflexivity.
Qed.

Lemma with_pool_same (rb : ReadBuffer) :
  with_secondaryBufferQueue (secondaryBufferQueue rb)
    (with_secondaryBuffer (secondaryBuffer rb) rb) = rb.
Proof. now destruct rb. Qed.

Lemma slot_in_pool (rb : ReadBuffer) (id len : Z) :
  0 < SECONDARY_BUFFER_SIZE ->
  0 <= id < NUM_SECONDARY_BUFFERS ->
  extent (secondaryBuffer rb) = NUM_SECONDARY_BUFFERS * SECONDARY_BUFFER_SIZE ->
  0 <= len <= SECONDARY_BUFFER_SIZE ->
  inside (secondaryBuffer rb) (slot rb id) len = true.
Proof.
  intros Hs Hid He Hlen. apply inside_spec. unfold slot. rewrite He. nia.
Qed.

(** With [n] free places left and a file that feeds [n] reads, the loop
    fills the pool in three moves per chunk. *)
Lemma top_up (n : nat) :
  forall s : System FS,
    0 < NUM_SECONDARY_BUFFERS ->
    0 < SECONDARY_BUFFER_SIZE ->
    (n <> O -> pc (loop s) = TopUp) ->
    queue_get_level (secondaryBufferQueue (rbuf s))
    = NUM_SECONDARY_BUFFERS - Z.of_nat n ->
    element_count (secondaryBufferQueue (rbuf s)) = NUM_SECONDARY_BUFFERS ->
    0 <= loop_id (loop s) < NUM_SECONDARY_BUFFERS ->
    extent (secondaryBuffer (rbuf s))
    = NUM_SECONDARY_BUFFERS * SECONDARY_BUFFER_SIZE ->
    feeds n (disk s) (loop_fp (loop s)) ->
    exists s' : System FS,
      await (3 * n) pool_full s = Done s' /\ grown n s s'.
Proof.
  induction n as [| n IH]; intros s HN HS Hpc Hlv Hcnt Hid Hext Hfeed.
  - exists s. split.
    + cbn. unfold pool_full. rewrite Hlv.
      replace (NUM_SECONDARY_BUFFERS - Z.of_nat 0 <? NUM_SECONDARY_BUFFERS) with false
        by (symmetry; apply Z.ltb_ge; lia).
      reflexivity.
    + unfold grown. rewrite with_pool_same. repeat split.
      exists []. rewrite app_nil_r. repeat split. constructor.
  - specialize (Hpc (Nat.neq_succ_0 n)).
    destruct s as [rb l d]. destruct l as [lid lpos lfp leof lreq litem lpc].
    cbn [rbuf loop disk pc loop_id loop_fp] in *. subst lpc.
    cbn [feeds] in Hfeed.
    destruct (f_read d lfp SECONDARY_BUFFER_SIZE) as ((fr, data), d') eqn:Hread.
    destruct Hfeed as (Hfr & Hlen & Heof & Hfeed). subst fr.
    assert (Hlow : (queue_get_level (secondaryBufferQueue rb)
                    <? NUM_SECONDARY_BUFFERS) = true) by (apply Z.ltb_lt; lia).
    assert (Hbr : (Z.of_nat (length data) =? 0) = false) by (apply Z.eqb_neq; lia).
    assert (Hnf : queue_is_full (secondaryBufferQueue rb) = false).
    { unfold queue_is_full. rewrite Hcnt. apply Z.leb_gt. lia. }
    assert (Hin : inside (secondaryBuffer rb) (slot rb lid) (Z.of_nat (length data)) = true)
      by (apply slot_in_pool; auto; lia).
    set (it := {| item_ptr := slot rb lid;
                  item_pos := size_add lpos (Z.of_nat (length data));
                  item_length := Z.of_nat (length data);
                  item_reachedEof := f_eof d' lfp |}).
    set (rb3 := with_secondaryBufferQueue
                  {| elements := elements (secondaryBufferQueue rb) ++ [it];
                     element_count := element_count (secondaryBufferQueue rb) |}
                  (with_secondaryBuffer
                     (store (secondaryBuffer rb) (slot rb lid) data) rb)).
    set (s3 := {| rbuf := rb3;
                  loop := {| loop_id := Z.rem (lid + 1) NUM_SECONDARY_BUFFERS;
                             loop_pos := size_add lpos (Z.of_nat (length data));
                             loop_fp := lfp;
                             loop_reachedEof := f_eof d' lfp;
                             loop_req := lreq;
                             loop_item := it;
                             pc := if f_eof d' lfp then Poll else TopUp |};
                  disk := d' |}).
    destruct (IH s3) as (s' & Ha & Hg); auto.
    + intros Hn. cbn. now rewrite (Heof Hn).
    + unfold queue_get_level in *. cbn. rewrite length_app. cbn [length]. lia.
    + cbn. apply Z.rem_bound_pos; lia.
    + cbn. rewrite store_extent; assumption.
    + exists s'. split.
      * replace (3 * S n)%nat with (S (S (S (3 * n)))) by lia.
        cbn [await]. unfold pool_full at 1. cbn [rbuf]. rewrite Hlow. cbn [negb].
        unfold fillLoop_step at 1. cbn [pc loop rbuf]. rewrite Hlow.
        unfold pool_full at 1. cbn [rbuf with_loop]. rewrite Hlow. cbn [negb].
        unfold fillLoop_step at 1.
        cbn [pc loop rbuf disk with_loop at_pc loop_fp loop_id loop_pos loop_req
             loop_item loop_reachedEof].
        rewrite Hread. cbn [is_FR_OK negb orb]. rewrite Hbr.
        unfold pool_full at 1. cbn [rbuf with_secondaryBuffer secondaryBufferQueue].
        rewrite Hlow. cbn [negb].
        unfold fillLoop_step at 1.
        cbn [pc loop rbuf disk loop_fp loop_id loop_pos loop_req
             loop_item loop_reachedEof with_secondaryBuffer secondaryBufferQueue].
        unfold queue_try_add. rewrite Hnf. cbn [snd].
        exact Ha.
      * destruct Hg as (Hsame & Hb & He & new & Hnew & Hall & Hlen').
        unfold grown. cbn [rbuf] in *.
        repeat split.
        -- transitivity (with_secondaryBufferQueue (secondaryBufferQueue rb)
                           (with_secondaryBuffer (secondaryBuffer rb) rb));
             [| apply with_pool_same].
           eapply with_pool_frame. exact Hsame.
        -- rewrite Hb. reflexivity.
        -- rewrite He. cbn. now apply store_extent.
        -- exists (it :: new). repeat split.
           ++ rewrite Hnew. cbn. now rewrite <- app_assoc.
           ++ constructor.
              ** unfold in_pool. cbn. apply inside_spec in Hin.
                 repeat split; lia.
              ** eapply Forall_impl; [| exact Hall].
                 intros a (Ha1 & Ha2 & Ha3). unfold in_pool in *. cbn in Ha1, Ha3.
                 rewrite store_extent in Ha3 by exact Hin.
                 repeat split; try assumption; lia.
           ++ cbn. now rewrite Hlen'.
Qed.

(** *** The loop while core 0 is inside [fill] *)

Lemma queue_not_empty {A : Type} (q : queue_t A) :
  queue_is_empty q = false ->
  exists (x : A) (rest : list A), elements q = x :: rest.
Proof.
  unfold queue_is_empty, queue_get_level. intros He. apply Z.eqb_neq in He.
  destruct (elements q) as [| x rest]; [cbn in He; lia | now exists x, rest].
Qed.

(** [fill] is its two parts in a row. *)
Lemma fill_in_two (rb : ReadBuffer) :
  fill rb = match fill_take rb with
            | None => Done (false, rb)
            | Some (item, rb1) => fill_copy item rb1
            end.
Proof.
  unfold fill, fill_take.
  destruct (_isEof rb); [reflexivity |].
  destruct (queue_is_empty (secondaryBufferQueue rb)) eqn:He; [reflexivity |].
  destruct (queue_not_empty _ He) as (x & rest & Hq).
  unfold queue_remove_blocking. rewrite Hq. cbn [obind fst snd]. reflexivity.
Qed.

Lemma fill_take_head (rb : ReadBuffer) (it : secondaryBufferItem_t)
    (rest : list secondaryBufferItem_t) :
  _isEof rb = false ->
  elements (secondaryBufferQueue rb) = it :: rest ->
  fill_take rb
  = Some (it, with_secondaryBufferQueue
                {| elements := rest;
                   element_count := element_count (secondaryBufferQueue rb) |} rb).
Proof.
  intros Heof Hq. unfold fill_take. rewrite Heof.
  rewrite (queue_not_empty_cons _ _ _ Hq).
  unfold queue_remove_blocking. now rewrite Hq.
Qed.

(** The copies are the [fill] of the object with the item put back. *)
Lemma fill_copy_as_fill (rb : ReadBuffer) (it : secondaryBufferItem_t) :
  _isEof rb = false ->
  fill_copy it rb
  = fill (with_secondaryBufferQueue
            {| elements := it :: elements (secondaryBufferQueue rb);
               element_count := element_count (secondaryBufferQueue rb) |} rb).
Proof.
  intros Heof. rewrite fill_in_two.
  rewrite (fill_take_head _ it (elements (secondaryBufferQueue rb)))
    by (try exact Heof; reflexivity).
  destruct rb as [rfp rsize rleft rthr reof rhead rptr rpos rprim rsec q1 q2 [q3 c3]].
  reflexivity.
Qed.

(** The copies of a fill that finds room. *)
Lemma fill_copy_loads (rb : ReadBuffer) (it : secondaryBufferItem_t) :
  rb_ok rb ->
  _isEof rb = false ->
  item_ok rb it ->
  _left rb + item_length it <= _size rb ->
  exists rb' : ReadBuffer,
    fill_copy it rb = Done (true, rb')
    /\ elements (secondaryBufferQueue rb') = elements (secondaryBufferQueue rb)
    /\ _left rb' = _left rb + item_length it
    /\ _pos rb' = item_pos it
    /\ _isEof rb' = item_reachedEof it
    /\ rb_ok rb'
    /\ _fp rb' = _fp rb
    /\ secondaryBuffer rb' = secondaryBuffer rb.
Proof.
  intros Hok Heof Hit Hroom.
  rewrite (fill_copy_as_fill rb it Heof).
  destruct (fill_loads
              (with_secondaryBufferQueue
                 {| elements := it :: elements (secondaryBufferQueue rb);
                    element_count := element_count (secondaryBufferQueue rb) |} rb)
              it (elements (secondaryBufferQueue rb)))
    as (rb' & Hf & Hq & _ & _ & _ & _ & Hleft & Hpos & Heof' & Hok' & Hfr & Hsb);
    try assumption; try reflexivity.
  exists rb'. split; [exact Hf |].
  apply (f_equal snd) in Hfr. apply (f_equal (fun x => fst (fst x))) in Hsb.
  repeat split; try assumption; apply Hok'.
Qed.

Lemma store_extent_ge (m : Mem) (p : Z) (bs : list byte) :
  extent m <= extent (store m p bs).
Proof.
  unfold extent, store. cbn [cells].
  rewrite !length_app, length_firstn, length_skipn. lia.
Qed.

Lemma drifted_refl (s : System FS) : streams s -> drifted s s.
Proof.
  intros Hs. unfold drifted. rewrite with_pool_same.
  repeat split; try lia; try apply Hs. exists []. now rewrite app_nil_r.
Qed.

Lemma drifted_trans (a b c : System FS) :
  drifted a b -> drifted b c -> drifted a c.
Proof.
  intros (Ha1 & Ha2 & Ha3 & Ha4 & (n1 & Ha5) & Ha6 & Ha7 & _)
         (Hb1 & Hb2 & Hb3 & Hb4 & (n2 & Hb5) & Hb6 & Hb7 & Hb8).
  unfold drifted. repeat split; try congruence; try lia; try apply Hb8.
  - rewrite <- Ha1 at 3.
    apply (with_pool_frame _ _ (secondaryBufferQueue (rbuf b))
             (secondaryBufferQueue (rbuf b)) _
             (secondaryBuffer (rbuf b)) (secondaryBuffer (rbuf b))).
    rewrite Hb1. symmetry. apply with_pool_same.
  - exists (n1 ++ n2). rewrite Hb5, Ha5. now rewrite app_assoc.
Qed.

(** One move of the streaming loop. *)
Lemma step_drifted (s s' : System FS) :
  streams s -> fillLoop_step s = Some s' -> drifted s s'.
Proof.
  intros (Hq & Hpc) Hstep. unfold fillLoop_step in Hstep.
  assert (He : queue_is_empty (bindReqQueue (rbuf s)) = true)
    by (unfold queue_is_empty, queue_get_level; now rewrite Hq).
  destruct s as [rb l d]. cbn [rbuf loop disk] in *.
  destruct (pc l) eqn:Hp; try discriminate Hpc.
  - (* Idle *)
    rewrite He in Hstep. inversion Hstep; subst s'.
    apply drifted_refl. split; [exact Hq | cbn; now rewrite Hp].
  - (* Streaming *)
    inversion Hstep; subst s'. unfold drifted. cbn. rewrite with_pool_same.
    repeat split; try lia; try assumption.
    + exists []. now rewrite app_nil_r.
    + now destruct (loop_reachedEof l).
  - (* TopUp *)
    destruct (queue_get_level (secondaryBufferQueue rb) <? NUM_SECONDARY_BUFFERS);
      inversion Hstep; subst s'; unfold drifted; cbn; rewrite with_pool_same;
      (repeat split; try lia; try assumption; exists []; now rewrite app_nil_r).
  - (* Reading *)
    destruct (f_read d (loop_fp l) SECONDARY_BUFFER_SIZE) as ((fr, data), d').
    destruct (negb (is_FR_OK fr) || (Z.of_nat (length data) =? 0));
      inversion Hstep; subst s'; unfold drifted; cbn;
      (repeat split; try assumption; try apply store_extent_ge;
       [now destruct rb | exists []; now rewrite app_nil_r]).
  - (* Publish *)
    inversion Hstep; subst s'. unfold drifted. cbn.
    repeat split; try assumption; try lia.
    + now destruct rb.
    + unfold queue_try_add. now destruct (queue_is_full (secondaryBufferQueue rb)).
    + unfold queue_try_add. destruct (queue_is_full (secondaryBufferQueue rb)); cbn.
      * exists []. now rewrite app_nil_r.
      * now exists [loop_item l].
    + now destruct (loop_reachedEof l).
  - (* Poll *)
    rewrite He in Hstep. inversion Hstep; subst s'. unfold drifted. cbn.
    rewrite with_pool_same.
    repeat split; try lia; try assumption. exists []. now rewrite app_nil_r.
  - (* Returned *)
    discriminate.
Qed.

Lemma drift_drifted (n : nat) :
  forall s : System FS, streams s -> drifted s (drift n s).
Proof.
  induction n as [| k IH]; intros s Hs; cbn [drift].
  - now apply drifted_refl.
  - destruct (fillLoop_step s) as [s1 |] eqn:Hstep; [| now apply drifted_refl].
    pose proof (step_drifted s s1 Hs Hstep) as Hd.
    apply (drifted_trans s s1); [exact Hd |]. apply IH. apply Hd.
Qed.

Lemma await_drifted (cond : System FS -> bool) (fuel : nat) :
  forall s s' : System FS,
    streams s -> await fuel cond s = Done s' -> drifted s s'.
Proof.
  induction fuel as [| k IH]; intros s s' Hs Ha; cbn [await] in Ha;
    destruct (cond s).
  - inversion Ha; subst s'. now apply drifted_refl.
  - discriminate.
  - inversion Ha; subst s'. now apply drifted_refl.
  - destruct (fillLoop_step s) as [s1 |] eqn:Hstep; [| discriminate].
    pose proof (step_drifted s s1 Hs Hstep) as Hd.
    apply (drifted_trans s s1); [exact Hd |]. apply (IH s1 s'); [apply Hd | exact Ha].
Qed.

(** With the pool full the loop touches nothing of the object. *)
Lemma step_brimful (s s' : System FS) :
  brimful s -> fillLoop_step s = Some s' -> brimful s' /\ rbuf s' = rbuf s.
Proof.
  intros ((Hq & Hpc) & Hr & Hp & Hfull) Hstep. unfold fillLoop_step in Hstep.
  assert (He : queue_is_empty (bindReqQueue (rbuf s)) = true)
    by (unfold queue_is_empty, queue_get_level; now rewrite Hq).
  assert (Hge : (queue_get_level (secondaryBufferQueue (rbuf s))
                 <? NUM_SECONDARY_BUFFERS) = false) by (apply Z.ltb_ge; exact Hfull).
  destruct s as [rb l d]. cbn [rbuf loop disk] in *.
  destruct (pc l) eqn:Hpl; try discriminate Hpc; try congruence.
  - rewrite He in Hstep. inversion Hstep; subst s'.
    split; [| reflexivity]. unfold brimful, streams. cbn. rewrite Hpl.
    repeat split; try assumption; discriminate.
  - inversion Hstep; subst s'. split; [| reflexivity].
    unfold brimful, streams. cbn.
    destruct (loop_reachedEof l); repeat split; try assumption; discriminate.
  - rewrite Hge in Hstep. inversion Hstep; subst s'. split; [| reflexivity].
    unfold brimful, streams. cbn. repeat split; try assumption; discriminate.
  - rewrite He in Hstep. inversion Hstep; subst s'. split; [| reflexivity].
    unfold brimful, streams. cbn. repeat split; try assumption; discriminate.
Qed.

Lemma drift_brimful (n : nat) :
  forall s : System FS,
    brimful s -> brimful (drift n s) /\ rbuf (drift n s) = rbuf s.
Proof.
  induction n as [| k IH]; intros s Hs; cbn [drift]; [now split |].
  destruct (fillLoop_step s) as [s1 |] eqn:Hstep; [| now split].
  destruct (step_brimful s s1 Hs Hstep) as (Hs1 & Hr).
  destruct (IH s1 Hs1) as (Hk & Hrk). split; [exact Hk | congruence].
Qed.

(** What [fill_racing] keeps whatever it does: no binding is made. *)
Lemma fill_racing_keeps (s s' : System FS) :
  streams s -> fill_racing s = Done s' ->
  _fp (rbuf s') = _fp (rbuf s)
  /\ loop_fp (loop s') = loop_fp (loop s)
  /\ loop_req (loop s') = loop_req (loop s).
Proof.
  intros Hs Hf. unfold fill_racing in Hf.
  pose proof (drift_drifted before_dequeue s Hs) as Hd1.
  set (s1 := drift before_dequeue s) in *.
  assert (Hfp1 : _fp (rbuf s1) = _fp (rbuf s)).
  { destruct Hd1 as (Hsame & _). apply (f_equal _fp) in Hsame. exact Hsame. }
  destruct (fill_take (rbuf s1)) as [(it, rb) |] eqn:Ht.
  - destruct (fill_take_spec _ _ _ Ht) as (_ & rest & Hq & Hrb).
    assert (Hs2 : streams (with_rbuf rb s1)).
    { destruct Hd1 as (_ & _ & _ & _ & _ & _ & _ & (Hq1 & Hp1)).
      split; [subst rb; exact Hq1 | exact Hp1]. }
    pose proof (drift_drifted before_copy _ Hs2) as Hd2.
    set (s2 := drift before_copy (with_rbuf rb s1)) in *.
    destruct (fill_copy it (rbuf s2)) as [(b, rb') | |] eqn:Hc;
      cbn [obind] in Hf; try discriminate.
    inversion Hf; subst s'. cbn [rbuf loop with_rbuf snd].
    destruct Hd1 as (_ & _ & _ & _ & _ & Hl1 & Hr1 & _).
    destruct Hd2 as (Hsame2 & _ & _ & _ & _ & Hl2 & Hr2 & _).
    cbn [loop with_rbuf] in Hl2, Hr2.
    apply (f_equal _fp) in Hsame2. cbn in Hsame2.
    assert (Hfp' : _fp rb' = _fp (rbuf s2)).
    { unfold fill_copy in Hc.
      destruct (memmove _ _ _ _); cbn [obind] in Hc; try discriminate.
      destruct (memcpy _ _ _ _ _); cbn [obind] in Hc; try discriminate.
      destruct (if _ <? _ then _ else _); cbn [obind] in Hc; try discriminate.
      now inversion Hc. }
    repeat split; try congruence.
    rewrite Hfp', Hsame2, Hrb. cbn. exact Hfp1.
  - inversion Hf; subst s'.
    destruct Hd1 as (_ & _ & _ & _ & _ & Hl1 & Hr1 & _).
    repeat split; assumption.
Qed.

(** A [fill_racing] that finds an item with room for it: the item taken
    is the one at the head, whatever the loop has added meanwhile, and the
    copies complete, whatever the loop has read meanwhile; [s2] is the
    state in which they are made. *)
Lemma fill_racing_loads (s : System FS) (it : secondaryBufferItem_t)
    (rest : list secondaryBufferItem_t) :
  streams s ->
  rb_ok (rbuf s) ->
  _isEof (rbuf s) = false ->
  elements (secondaryBufferQueue (rbuf s)) = it :: rest ->
  item_ok (rbuf s) it ->
  _left (rbuf s) + item_length it <= _size (rbuf s) ->
  exists (s2 : System FS) (rb' : ReadBuffer),
    fill_racing s = Done (with_rbuf rb' s2)
    /\ fill_copy it (rbuf s2) = Done (true, rb')
    /\ with_secondaryBufferQueue (secondaryBufferQueue (rbuf s))
         (with_secondaryBuffer (secondaryBuffer (rbuf s)) (rbuf s2)) = rbuf s
    /\ rb_ok (rbuf s2)
    /\ (exists new : list secondaryBufferItem_t,
          elements (secondaryBufferQueue rb') = rest ++ new)
    /\ _left rb' = _left (rbuf s) + item_length it
    /\ _pos rb' = item_pos it
    /\ _isEof rb' = item_reachedEof it
    /\ rb_ok rb'
    /\ _fp rb' = _fp (rbuf s)
    /\ (before_copy = O -> brimful s ->
        secondaryBuffer (rbuf s2) = secondaryBuffer (rbuf s)).
Proof.
  intros Hs Hok Heof Hq Hit Hroom. unfold fill_racing.
  pose proof (drift_drifted before_dequeue s Hs) as Hd1.
  set (s1 := drift before_dequeue s) in *.
  destruct Hd1 as (Hsame1 & Hb1 & He1 & Hc1 & (new1 & Hn1) & _ & _ & (Hq1 & Hp1)).
  assert (Heof1 : _isEof (rbuf s1) = false).
  { apply (f_equal _isEof) in Hsame1. cbn in Hsame1. congruence. }
  rewrite Hq in Hn1. cbn [app] in Hn1.
  rewrite (fill_take_head (rbuf s1) it (rest ++ new1) Heof1 Hn1).
  set (rb1 := with_secondaryBufferQueue
                {| elements := rest ++ new1;
                   element_count := element_count (secondaryBufferQueue (rbuf s1)) |}
                (rbuf s1)).
  assert (Hs1 : streams (with_rbuf rb1 s1)) by (split; [exact Hq1 | exact Hp1]).
  pose proof (drift_drifted before_copy _ Hs1) as Hd2.
  assert (Hquiet : before_copy = O -> brimful s ->
                   secondaryBuffer (rbuf (drift before_copy (with_rbuf rb1 s1)))
                   = secondaryBuffer (rbuf s)).
  { intros H0 Hbrim. rewrite H0. cbn [drift rbuf with_rbuf].
    destruct (drift_brimful before_dequeue s Hbrim) as (_ & Hr).
    fold s1 in Hr. unfold rb1. rewrite Hr. reflexivity. }
  set (s2 := drift before_copy (with_rbuf rb1 s1)) in *.
  destruct Hd2 as (Hsame2 & Hb2 & He2 & Hc2 & (new2 & Hn2) & _ & _ & _).
  cbn [rbuf with_rbuf] in Hsame2, Hb2, He2, Hc2, Hn2.
  assert (Hsame : with_secondaryBufferQueue (secondaryBufferQueue (rbuf s))
                    (with_secondaryBuffer (secondaryBuffer (rbuf s)) (rbuf s2))
                  = rbuf s).
  { rewrite <- Hsame1 at 3.
    apply (with_pool_frame _ _ (secondaryBufferQueue rb1) (secondaryBufferQueue rb1) _
             (secondaryBuffer rb1) (secondaryBuffer rb1)).
    rewrite Hsame2. unfold rb1. destruct (rbuf s1). reflexivity. }
  assert (Hfields :
            (_isEof (rbuf s2), _left (rbuf s2), _size (rbuf s2), _head (rbuf s2),
             _ptr (rbuf s2), primary (rbuf s2), _fp (rbuf s2))
            = (_isEof (rbuf s), _left (rbuf s), _size (rbuf s), _head (rbuf s),
               _ptr (rbuf s), primary (rbuf s), _fp (rbuf s))).
  { apply (f_equal (fun x => (_isEof x, _left x, _size x, _head x, _ptr x, primary x,
                              _fp x))) in Hsame. exact Hsame. }
  injection Hfields as Hf1 Hf2 Hf3 Hf4 Hf5 Hf6 Hf7.
  assert (Hok2 : rb_ok (rbuf s2)).
  { unfold rb_ok. rewrite Hf2, Hf3, Hf4, Hf5, Hf6. exact Hok. }
  assert (Hit2 : item_ok (rbuf s2) it).
  { unfold item_ok in *. apply inside_spec in Hit. apply inside_spec.
    unfold rb1 in Hb2, He2. cbn in Hb2, He2. lia. }
  destruct (fill_copy_loads (rbuf s2) it Hok2) as
    (rb' & Hc & Hq' & Hleft & Hpos & Heof' & Hok' & Hfp & Hsb);
    [congruence | exact Hit2 | lia |].
  exists s2, rb'. rewrite Hc. cbn [obind snd].
  split; [reflexivity |]. split; [reflexivity |].
  split; [exact Hsame |]. split; [exact Hok2 |].
  split; [exists (new1 ++ new2); rewrite Hq', Hn2; unfold rb1; cbn;
          now rewrite app_assoc |].
  repeat split; try congruence; try apply Hok'.
  exact Hquiet.
Qed.





(** *** [reqBind] and [seek] *)

Lemma reqBind_answered (fp : FILptr) (flag : bool) (s : System FS) (fuel : nat) :
  quiescent s -> (3 <= fuel)%nat ->
  reqBind fuel fp flag s
  = if flag then
      s4 <- await fuel pool_full (answered {| req_fp := fp; req_flag := flag |} s) ;;
      fill_racing s4
    else Done (answered {| req_fp := fp; req_flag := flag |} s).
Proof.
  intros Hq Hfuel.
  destruct (handshake {| req_fp := fp; req_flag := flag |} s fuel Hq Hfuel)
    as (s1 & Ha & _ & q & Hrm & Hs).
  unfold reqBind. fold (requested {| req_fp := fp; req_flag := flag |} s).
  rewrite Ha. cbn [obind]. rewrite Hrm. cbn [obind snd]. now rewrite Hs.
Qed.

(** The request to connect, sent to the idle loop once the file is where
    [feeds] wants it: the pool fills and the first chunk is loaded. *)
Lemma connect_completes (s : System FS) (n : nat) :
  quiescent s ->
  elements (secondaryBufferQueue (rbuf s)) = [] ->
  element_count (secondaryBufferQueue (rbuf s)) = NUM_SECONDARY_BUFFERS ->
  0 < NUM_SECONDARY_BUFFERS ->
  0 < SECONDARY_BUFFER_SIZE ->
  0 <= loop_id (loop s) < NUM_SECONDARY_BUFFERS ->
  extent (secondaryBuffer (rbuf s))
  = NUM_SECONDARY_BUFFERS * SECONDARY_BUFFER_SIZE ->
  base (primary (rbuf s)) = _head (rbuf s) ->
  extent (primary (rbuf s)) = _size (rbuf s) ->
  SECONDARY_BUFFER_SIZE <= _size (rbuf s) < SIZE_MODULUS ->
  f_eof (disk s) (_fp (rbuf s)) = false ->
  n = Z.to_nat NUM_SECONDARY_BUFFERS ->
  feeds n (disk s) (_fp (rbuf s)) ->
  exists s' : System FS,
    forall fuel : nat, (3 * n + 1 <= fuel)%nat ->
      reqBind fuel (_fp (rbuf s)) true s = Done s'.
Proof.
  intros Hq Hel Hcnt HN HS Hid Hext Hb He Hsz Heof Hn Hfeed.
  set (r := {| req_fp := _fp (rbuf s); req_flag := true |}).
  set (s5 := with_loop (at_pc TopUp (loop (answered r s))) (answered r s)).
  destruct (top_up n s5) as (s6 & Ha & Hg); auto.
  - unfold queue_get_level. cbn. rewrite Hel. cbn. lia.
  - destruct Hg as (Hsame & Hbs & Hes & new & Hnew & Hall & Hlen).
    cbn [rbuf s5 with_loop answered req_flag r] in Hsame, Hbs, Hes, Hnew, Hall.
    cbn [secondaryBufferQueue bind] in Hnew. rewrite Hel in Hnew. cbn [app] in Hnew.
    destruct new as [| it rest]; [cbn in Hlen; lia |].
    inversion Hall as [| x l Hit _]; subst x l.
    destruct Hit as (Hi1 & Hi2 & Hi3). cbn [secondaryBuffer bind] in Hi1, Hi3, Hbs, Hes.
    assert (Hfields :
              (_isEof (rbuf s6), _left (rbuf s6), _size (rbuf s6), _head (rbuf s6),
               _ptr (rbuf s6), primary (rbuf s6))
              = (false, 0, _size (rbuf s), _head (rbuf s), _head (rbuf s),
                 primary (rbuf s))).
    { apply (f_equal (fun x => (_isEof x, _left x, _size x, _head x, _ptr x, primary x)))
        in Hsame. exact Hsame. }
    inversion Hfields as [[Hf1 Hf2 Hf3 Hf4 Hf5 Hf6]].
    assert (Hs5 : streams s5).
    { destruct Hq as (_ & Hq1 & _). split; [exact Hq1 | reflexivity]. }
    pose proof (await_drifted pool_full _ s5 s6 Hs5 Ha) as Hd.
    destruct (fill_racing_loads s6 it rest) as (s7 & rb' & Hfill & _).
    + apply Hd.
    + unfold rb_ok. rewrite Hf2, Hf3, Hf4, Hf5, Hf6. lia.
    + exact Hf1.
    + exact Hnew.
    + unfold item_ok. apply inside_spec. rewrite Hbs, Hes. lia.
    + rewrite Hf2, Hf3. lia.
    + exists (with_rbuf rb' s7). intros fuel Hfuel.
      rewrite reqBind_answered by (auto; lia). fold r.
      destruct fuel as [| k]; [lia |].
      assert (Hstart : await (S k) pool_full (answered r s) = await k pool_full s5).
      { cbn [await]. unfold pool_full at 1. cbn [answered req_flag r rbuf].
        unfold queue_get_level. cbn [secondaryBufferQueue bind]. rewrite Hel.
        cbn [length Z.of_nat].
        replace (0 <? NUM_SECONDARY_BUFFERS) with true by (symmetry; apply Z.ltb_lt; lia).
        cbn [negb]. unfold fillLoop_step at 1.
        cbn [pc loop answered req_flag r req_fp loop_reachedEof].
        rewrite Heof at 1. reflexivity. }
      rewrite Hstart.
      rewrite (await_more pool_full (3 * n) k s5 s6 Ha) by lia.
      cbn [obind]. exact Hfill.
Qed.

(** C9 (amended): [seek] never returns false: whenever it returns, it
    returns true, and what [f_lseek] reported plays no part in it.  From
    the idle loop it does return, with true, for every target position that
    leaves the file able to fill the whole pool, whatever code [f_lseek]
    gave. *)
Theorem seek_returns_true :
  (forall (fuel : nat) (fpos : Z) (s : System FS) (r : bool * System FS),
      seek fuel fpos s = Done r -> fst r = true)
  /\ (forall (fpos : Z) (s : System FS),
        seek_ready fpos s ->
        exists s' : System FS,
          forall fuel : nat,
            (3 * Z.to_nat NUM_SECONDARY_BUFFERS + 1 <= fuel)%nat ->
            seek fuel fpos s = Done (true, s')).
Proof.
  split.
  - intros fuel fpos s r Hs. unfold seek in Hs.
    destruct (reqBind fuel (_fp (rbuf s)) false s) as [s1 | |];
      cbn [obind] in Hs; try discriminate.
    destruct (reqBind fuel _ true _) as [s3 | |]; cbn [obind] in Hs; try discriminate.
    now inversion Hs.
  - intros fpos s (Hq & Hel & Hcnt & HN & HS & Hid & Hext & Hb & He & Hsz & Heof & Hfeed).
    set (r0 := {| req_fp := _fp (rbuf s); req_flag := false |}).
    set (s2 := with_disk (snd (f_lseek (disk s) (_fp (rbuf s)) fpos)) (answered r0 s)).
    destruct (connect_completes s2 (Z.to_nat NUM_SECONDARY_BUFFERS))
      as (s' & Hconn); auto.
    exists s'. intros fuel Hfuel. unfold seek.
    rewrite reqBind_answered by (auto; lia). fold r0. cbn [obind].
    change (with_disk _ (answered r0 s)) with s2.
    change (_fp (rbuf s2)) with (_fp (rbuf s)).
    change (_fp (rbuf s)) with (_fp (rbuf s2)) at 1.
    rewrite (Hconn fuel Hfuel). reflexivity.
Qed.

End CoresFacts.

(** ** The two cores in the small configuration *)

Lemma scenario_system_quiescent : quiescent scenario_system.
Proof. unfold quiescent. repeat split. Qed.

(** C9, as stated, fails: with the loop idle and a file of 24 bytes,
    [seek 50] never returns.  The position is clipped to the end of the
    file, the loop finds the end of the file when it binds and publishes
    nothing, and the wait of l.124 for a full pool has no end.  Nor does
    [seek 22], a position inside the file: the two bytes that remain give
    one chunk, and the pool of four is never full. *)
Lemma seek_never_returns :
  quiescent scenario_system
  /\ objsize (disk scenario_system) = 24
  /\ (forall fuel : nat, seek fuel 50 scenario_system = Blocked)
  /\ (forall fuel : nat, seek fuel 22 scenario_system = Blocked).
Proof.
  split; [exact scenario_system_quiescent |].
  split; [reflexivity |].
  split; intros fuel;
    (destruct fuel as [| [| [| k]]];
     [vm_compute; reflexivity | vm_compute; reflexivity | vm_compute; reflexivity |]);
    unfold seek;
    (rewrite reqBind_answered by (exact scenario_system_quiescent || lia));
    cbn [obind];
    (rewrite reqBind_answered by (unfold quiescent; repeat split; lia));
    cbn match;
    match goal with |- context [await _ pool_full ?x] =>
      assert (Hw : forall fuel, await fuel pool_full x = Blocked)
    end.
  - eapply await_later; [vm_compute; reflexivity | vm_compute; reflexivity |].
    apply await_stuck; vm_compute; reflexivity.
  - rewrite Hw. reflexivity.
  - do 6 (eapply await_later; [vm_compute; reflexivity | vm_compute; reflexivity |]).
    apply await_stuck; vm_compute; reflexivity.
  - rewrite Hw. reflexivity.
Qed.

(** [seek 4] on the same file: twenty bytes remain, the pool fills, and
    [seek] returns true with the first chunk loaded. *)
Lemma seek_returns_true_witness :
  exists s' : System MemFile,
    seek 13 4 scenario_system = Done (true, s')
    /\ _left (rbuf s') = 4 /\ tell (rbuf s') = 4.
Proof.
  destruct (@seek_returns_true MemFile MemFS scenario_config scenario_quiet)
    as (_ & Hret).
  destruct (Hret 4 scenario_system) as (s' & Hs').
  - unfold seek_ready. split; [exact scenario_system_quiescent |].
    repeat split; try (vm_compute; (reflexivity || discriminate)).
    all: intros _; reflexivity.
  - exists s'. split; [apply Hs'; cbn; lia |].
    specialize (Hs' 13%nat). vm_compute in Hs'.
    assert (Hfuel : (3 * Z.to_nat NUM_SECONDARY_BUFFERS + 1 <= 13)%nat) by (cbn; lia).
    specialize (Hs' Hfuel). inversion Hs'. split; reflexivity.
Defined.

(** When [f_lseek] fails and the file stays where it was, [seek 8] returns
    true all the same, with the chunk at the old position 0 loaded. *)
Lemma seek_ignores_failed_lseek :
  fst (@f_lseek MemFile LockedFS (disk scenario_system) 1 8) = FR_TIMEOUT
  /\ exists s' : System MemFile,
       @seek MemFile LockedFS scenario_config scenario_quiet 13 8 scenario_system = Done (true, s')
       /\ tell (rbuf s') = 0 /\ _left (rbuf s') = 4.
Proof.
  split; [reflexivity |].
  eexists. split; [vm_compute; reflexivity |]. split; reflexivity.
Qed.

(** [read_failure_stops] on a file object in error. *)
Lemma read_failure_stops_witness :
  exists s' : System MemFile,
    fillLoop_step scenario_broken = Some s'
    /\ pc (loop s') = Returned
    /\ secondaryBufferQueue (rbuf s') = secondaryBufferQueue (rbuf scenario_broken).
Proof.
  destruct (read_failure_stops scenario_broken FR_DISK_ERR [] (disk scenario_broken))
    as (s' & Hstep & Hpc & Hq & _).
  - reflexivity.
  - reflexivity.
  - left. discriminate.
  - exists s'. repeat split; assumption.
Defined.

(** * Further properties of the consumer API *)

(** ** The byte stream *)

Lemma window_arrive (items : list secondaryBufferItem_t) (rb : ReadBuffer) :
  window (arrive items rb) = window rb.
Proof.
  destruct (arrive_frame items rb) as (H1 & H2).
  inversion H1 as [[Ha1 Ha2 Ha3 Ha4 Ha5]]. inversion H2 as [[Hb1 Hb2 Hb3 Hb4 Hb5]].
  unfold window, buf, getLeft. now rewrite Ha3, Hb2, Hb4.
Qed.

Lemma window_advanced (rb : ReadBuffer) (n : Z) :
  rb_ok rb -> 0 <= n <= _left rb ->
  window (advanced n rb) = skipn (Z.to_nat n) (window rb).
Proof.
  intros Hok Hn. destruct (advanced_ok rb n Hok Hn) as (_ & Hleft).
  destruct Hok as (Hb & He & Hs & Hp & Hl & Hw).
  unfold window, buf, getLeft, load. rewrite Hleft. cbn [_ptr primary advanced].
  rewrite skipn_firstn_comm, skipn_skipn. f_equal; [lia | f_equal; lia].
Qed.

Lemma window_filled (rb rb' : ReadBuffer) (it : secondaryBufferItem_t)
    (rest : list secondaryBufferItem_t) :
  rb_ok rb ->
  elements (secondaryBufferQueue rb) = it :: rest ->
  fill rb = Done (true, rb') ->
  rb_ok rb'
  /\ window rb' = window rb ++ load (secondaryBuffer rb) (item_ptr it) (item_length it).
Proof.
  intros Hok Hq Hf.
  destruct (fill_true_only_with_room rb rb' Hok Hf)
    as (Heof & it' & rest' & Hq' & Hit & Hroom).
  rewrite Hq in Hq'. inversion Hq'; subst it' rest'.
  destruct (fill_loads rb it rest Hok Heof Hq Hit Hroom)
    as (rb2 & Hf2 & _ & Hptr & Hcells & Hl1 & Hl2 & Hleft & _ & _ & Hok' & Hfr & _).
  rewrite Hf in Hf2. inversion Hf2; subst rb2. split; [exact Hok' |].
  destruct Hok' as (Hb' & _).
  unfold window at 1, buf, getLeft, load. rewrite Hptr, <- Hb', Z.sub_diag, Hleft, Hcells.
  cbn [Z.to_nat skipn]. rewrite app_assoc, firstn_app.
  rewrite firstn_all2 by (rewrite length_app; lia).
  replace (Z.to_nat (_left rb + item_length it)
           - length (load (primary rb) (_ptr rb) (_left rb)
                     ++ load (secondaryBuffer rb) (item_ptr it) (item_length it)))%nat
    with 0%nat by (rewrite length_app; lia).
  cbn [firstn]. now rewrite app_nil_r.
Qed.


Lemma fill_false_same (rb rb' : ReadBuffer) :
  fill rb = Done (false, rb') -> rb' = rb /\ dequeues Fill rb = false.
Proof.
  unfold fill, dequeues. intros Hf.
  destruct (_isEof rb); [split; [now inversion Hf | reflexivity] |].
  destruct (queue_is_empty (secondaryBufferQueue rb));
    [split; [now inversion Hf | reflexivity] |].
  destruct (queue_remove_blocking (secondaryBufferQueue rb)) as [(it, q) | |];
    cbn [obind] in Hf; try discriminate.
  destruct (memmove _ _ _ _); cbn [obind] in Hf; try discriminate.
  destruct (memcpy _ _ _ _ _); cbn [obind] in Hf; try discriminate.
  destruct (if _ <? _ then _ else _); cbn [obind] in Hf; discriminate.
Qed.

(** What one [fill] does to the window. *)
Lemma fill_window (rb rb' : ReadBuffer) (b : bool) :
  rb_ok rb -> fill rb = Done (b, rb') ->
  rb_ok rb' /\ window rb' = window rb ++ fed Fill rb.
Proof.
  intros Hok Hf. destruct b.
  - destruct (fill_true_only_with_room rb rb' Hok Hf) as (Heof & it & rest & Hq & _).
    destruct (window_filled rb rb' it rest Hok Hq Hf) as (Hok' & Hw).
    split; [exact Hok' |]. rewrite Hw. unfold fed, dequeues.
    rewrite Heof, (queue_not_empty_cons _ _ _ Hq), Hq. reflexivity.
  - destruct (fill_false_same rb rb' Hf) as (Hsame & Hd). subst rb'.
    split; [exact Hok |]. unfold fed. rewrite Hd. now rewrite app_nil_r.
Qed.

(** What one call does to the window. *)
Lemma call_window (c : call) (rb rb' : ReadBuffer) (b : bool) :
  rb_ok rb -> call_ok c = true -> do_call c rb = Done (b, rb') ->
  rb_ok rb' /\ eaten c rb b ++ window rb' = window rb ++ fed c rb.
Proof.
  intros Hok Hc Hcall. destruct c as [| n]; cbn [do_call eaten] in *.
  - exact (fill_window rb rb' b Hok Hcall).
  - pose proof (call_ok_spec n Hc) as Hn. unfold shift in Hcall.
    destruct (_left rb <? n) eqn:Hlt.
    + inversion Hcall; subst b rb'. split; [exact Hok |].
      unfold fed, dequeues. rewrite Hlt. cbn. now rewrite app_nil_r.
    + apply Z.ltb_ge in Hlt. cbv zeta in Hcall.
      assert (Hrange : 0 <= n <= _left rb) by (unfold is_size_t in Hn; lia).
      destruct (advanced_ok rb n Hok Hrange) as (Hok1 & Hleft).
      assert (Hwin : firstn (Z.to_nat n) (window rb) ++ window (advanced n rb) = window rb)
        by (rewrite window_advanced by assumption; apply firstn_skipn).
      assert (Hge : (_left rb <? n) = false) by (apply Z.ltb_ge; lia).
      rewrite Hleft in Hcall. cbn [_fillThreshold advanced] in Hcall.
      destruct (_left rb - n <? _fillThreshold rb) eqn:Hthr.
      * destruct (fill (advanced n rb)) as [(b1, rb1) | |] eqn:Hf;
          cbn [obind snd] in Hcall; try discriminate.
        inversion Hcall; subst b rb'.
        destruct (fill_window (advanced n rb) rb1 b1 Hok1 Hf) as (Hok' & Hw).
        split; [exact Hok' |]. rewrite Hw, app_assoc, Hwin. f_equal.
        unfold fed, dequeues. rewrite Hge, Hthr. reflexivity.
      * inversion Hcall; subst b rb'. split; [exact Hok1 |].
        rewrite Hwin. unfold fed, dequeues. rewrite Hge, Hthr. cbn.
        now rewrite app_nil_r.
Qed.

(** X1: through any sequence of [fill] and [shift] calls, with items
    arriving in between, the bytes the decoder has stepped over followed by
    the bytes still in its window are the bytes that were in the window at
    the start followed by the chunks taken off the channel, in that order:
    nothing is lost, repeated or reordered. *)
Theorem stream_in_order (rb rb' : ReadBuffer)
    (tr : list (list secondaryBufferItem_t * call)) (out inp : list byte) :
  rb_ok rb ->
  forallb (fun e => call_ok (snd e)) tr = true ->
  observe rb tr = Done (out, inp, rb') ->
  rb_ok rb' /\ out ++ window rb' = window rb ++ inp.
Proof.
  revert rb out inp. induction tr as [| (items, c) more IH]; intros rb out inp Hok Hcalls Hobs.
  - cbn in Hobs. inversion Hobs; subst. split; [exact Hok |]. now rewrite app_nil_r.
  - cbn [forallb snd] in Hcalls. apply andb_true_iff in Hcalls.
    destruct Hcalls as (Hc & Hmore).
    cbn [observe] in Hobs.
    destruct (do_call c (arrive items rb)) as [(b, rb1) | |] eqn:Hcall;
      cbn [obind fst snd] in Hobs; try discriminate.
    destruct (observe rb1 more) as [((out1, inp1), rb2) | |] eqn:Hrest;
      cbn [obind fst snd] in Hobs; try discriminate.
    inversion Hobs; subst out inp rb'.
    destruct (call_window c (arrive items rb) rb1 b (arrive_ok items rb Hok) Hc Hcall)
      as (Hok1 & Hw1).
    destruct (IH rb1 out1 inp1 Hok1 Hmore Hrest) as (Hok2 & Hw2).
    split; [exact Hok2 |].
    rewrite <- app_assoc, Hw2, app_assoc, Hw1, window_arrive, <- app_assoc.
    reflexivity.
Qed.

(** [stream_in_order] on the scenario: two chunks loaded, three bytes
    stepped over. *)
Lemma stream_in_order_witness :
  exists (out inp : list byte) (rb' : ReadBuffer),
    observe (scenario_fresh 4) scenario_trace = Done (out, inp, rb')
    /\ out ++ window rb' = window (scenario_fresh 4) ++ inp
    /\ out = [Byte.x01; Byte.x02; Byte.x03; Byte.x04;
              Byte.x05; Byte.x06; Byte.x07; Byte.x08].
Proof.
  do 3 eexists. split; [vm_compute; reflexivity |]. split; [| reflexivity].
  eapply (stream_in_order (scenario_fresh 4) _ scenario_trace).
  - concrete.
  - reflexivity.
  - vm_compute. reflexivity.
Defined.

(** ** The logical position *)

Lemma size_sub_shift (p l n : Z) :
  size_sub p (l - n) = size_add (size_sub p l) n.
Proof.
  unfold size_sub, size_add. rewrite Z.add_mod_idemp_l by (unfold SIZE_MODULUS; lia).
  f_equal. lia.
Qed.

Lemma size_sub_chain (p l n len : Z) :
  size_sub (size_add p len) (l - n + len) = size_add (size_sub p l) n.
Proof.
  unfold size_sub, size_add.
  rewrite Zminus_mod_idemp_l, Z.add_mod_idemp_l by (unfold SIZE_MODULUS; lia).
  f_equal. lia.
Qed.

(** X2: a successful [shift n] moves [tell] forward by exactly [n] (in
    [size_t]), whether or not it refills the buffer, provided the chunk a
    refill takes continues the file where the last one ended (its position
    is the stored position plus its length). *)
Theorem tell_advances (rb rb' : ReadBuffer) (n : Z) :
  rb_ok rb -> is_size_t n ->
  shift n rb = Done (true, rb') ->
  (forall it, dequeues (Shift n) rb = true ->
              hd_error (elements (secondaryBufferQueue rb)) = Some it ->
              item_pos it = size_add (_pos rb) (item_length it)) ->
  tell rb' = size_add (tell rb) n.
Proof.
  intros Hok Hn Hs Hchain. unfold shift in Hs.
  destruct (_left rb <? n) eqn:Hlt; [discriminate |].
  cbv zeta in Hs. pose proof Hlt as Hge. apply Z.ltb_ge in Hlt.
  assert (Hrange : 0 <= n <= _left rb) by (unfold is_size_t in Hn; lia).
  destruct (advanced_ok rb n Hok Hrange) as (Hok1 & Hleft).
  rewrite Hleft in Hs. cbn [_fillThreshold advanced] in Hs.
  destruct (_left rb - n <? _fillThreshold rb) eqn:Hthr.
  - destruct (fill (advanced n rb)) as [(b1, rb1) | |] eqn:Hf;
      cbn [obind snd] in Hs; try discriminate.
    inversion Hs; subst rb'. destruct b1.
    + destruct (fill_true_only_with_room _ _ Hok1 Hf)
        as (Heof & it & rest & Hq & Hit & Hroom).
      destruct (fill_loads _ it rest Hok1 Heof Hq Hit Hroom)
        as (rb2 & Hf2 & _ & _ & _ & _ & _ & Hl & Hp & _).
      rewrite Hf in Hf2. inversion Hf2; subst rb2.
      unfold tell. rewrite Hl, Hp, Hleft.
      cbn [secondaryBufferQueue advanced _isEof] in Hq, Heof.
      rewrite (Hchain it).
      * apply size_sub_chain.
      * unfold dequeues. rewrite Hge, Hthr, Heof, (queue_not_empty_cons _ _ _ Hq).
        reflexivity.
      * now rewrite Hq.
    + destruct (fill_false_same _ _ Hf) as (Hsame & _). subst rb1.
      unfold tell. rewrite Hleft. cbn [_pos advanced]. apply size_sub_shift.
  - inversion Hs; subst rb'. unfold tell. rewrite Hleft. cbn [_pos advanced].
    apply size_sub_shift.
Qed.

(** [tell_advances] on the scenario: position 0 with 4 bytes unread,
    [shift 3] refills and the position is 3. *)
Lemma tell_advances_witness :
  tell scenario_first = 0
  /\ exists rb' : ReadBuffer,
       shift 3 scenario_first = Done (true, rb') /\ tell rb' = size_add 0 3.
Proof.
  split; [reflexivity |].
  eexists. split; [vm_compute; reflexivity |].
  apply (tell_advances scenario_first _ 3).
  - concrete.
  - concrete.
  - vm_compute. reflexivity.
  - intros it _ Hhd. vm_compute in Hhd. inversion Hhd. reflexivity.
Defined.

(** ** Shifts in a row *)

Lemma advanced_advanced (rb : ReadBuffer) (a b : Z) :
  advanced b (advanced a rb) = advanced (a + b) rb.
Proof.
  unfold advanced. cbn. f_equal.
  - unfold size_sub. rewrite Zminus_mod_idemp_l. f_equal. lia.
  - lia.
Qed.

(** X3: a [shift a] that leaves the count at or above the threshold
    refills nothing, and a [shift b] after it is the same as one
    [shift (a + b)]: same result, same cursor, same count, same refill. *)
Theorem shift_shift (rb : ReadBuffer) (a b : Z) :
  rb_ok rb -> 0 <= a -> 0 <= b -> a + b <= _left rb ->
  _fillThreshold rb <= _left rb - a ->
  shift a rb = Done (true, advanced a rb)
  /\ shift b (advanced a rb) = shift (a + b) rb.
Proof.
  intros Hok Ha Hb Hab Hthr.
  destruct (advanced_ok rb a Hok) as (Hok1 & Hleft); [lia |].
  split.
  - unfold shift. replace (_left rb <? a) with false by (symmetry; apply Z.ltb_ge; lia).
    cbv zeta. rewrite Hleft. cbn [_fillThreshold advanced].
    now replace (_left rb - a <? _fillThreshold rb) with false
      by (symmetry; apply Z.ltb_ge; lia).
  - unfold shift. rewrite Hleft.
    replace (_left rb - a <? b) with false by (symmetry; apply Z.ltb_ge; lia).
    replace (_left rb <? a + b) with false by (symmetry; apply Z.ltb_ge; lia).
    cbv zeta. now rewrite advanced_advanced.
Qed.

Lemma shift_shift_witness :
  shift 1 (scenario_full 4) = Done (true, advanced 1 (scenario_full 4))
  /\ shift 2 (advanced 1 (scenario_full 4)) = shift 3 (scenario_full 4).
Proof.
  apply (shift_shift (scenario_full 4) 1 2); concrete.
Defined.

(** ** [shiftAll] *)

Lemma window_length (rb : ReadBuffer) :
  rb_ok rb -> Z.of_nat (length (window rb)) = _left rb.
Proof.
  intros (Hb & He & Hs & Hp & Hl & Hw). unfold window, buf, getLeft.
  apply load_length, inside_spec. lia.
Qed.

(** X11: [shiftAll] never fails.  On a well-formed buffer whose automatic
    fill, if one is due, has room, it returns true, and the window after it
    holds nothing of the old window: exactly the chunk the automatic fill
    has loaded, or nothing at all when no fill was made. *)
Theorem shiftAll_empties (rb : ReadBuffer) :
  rb_ok rb ->
  room (Shift (_left rb)) rb = true ->
  exists rb' : ReadBuffer,
    shiftAll rb = Done (true, rb')
    /\ rb_ok rb'
    /\ window rb' = fed (Shift (_left rb)) rb
    /\ getLeft rb' = Z.of_nat (length (fed (Shift (_left rb)) rb)).
Proof.
  intros Hok Hroom.
  assert (Hn : is_size_t (_left rb)).
  { destruct Hok as (_ & _ & Hs & Hp & Hl & Hw). unfold is_size_t. lia. }
  destruct (shift_total rb (_left rb) Hok Hn Hroom) as (b & rb' & Hs & _).
  assert (Hb : b = true).
  { unfold shift in Hs. rewrite Z.ltb_irrefl in Hs. cbv zeta in Hs.
    destruct (_left (advanced (_left rb) rb) <? _fillThreshold (advanced (_left rb) rb)).
    - destruct (fill (advanced (_left rb) rb)) as [(b1, rb1) | |];
        cbn [obind] in Hs; inversion Hs; reflexivity.
    - inversion Hs; reflexivity. }
  subst b.
  assert (Hc : call_ok (Shift (_left rb)) = true).
  { unfold call_ok. apply andb_true_iff. unfold is_size_t in Hn.
    split; [apply Z.leb_le | apply Z.ltb_lt]; lia. }
  destruct (call_window (Shift (_left rb)) rb rb' true Hok Hc Hs) as (Hok' & Hw).
  cbn [eaten] in Hw.
  rewrite firstn_all2 in Hw by (pose proof (window_length rb Hok); lia).
  apply app_inv_head in Hw.
  exists rb'. split; [exact Hs |]. split; [exact Hok' |]. split; [exact Hw |].
  rewrite <- Hw. symmetry. exact (window_length rb' Hok').
Qed.

(** * Further properties of the Fill Loop *)

Lemma fill_keeps_pool (rb rb' : ReadBuffer) (b : bool) :
  fill rb = Done (b, rb') -> secondaryBuffer rb' = secondaryBuffer rb.
Proof.
  unfold fill. intros Hf.
  destruct (_isEof rb); [now inversion Hf |].
  destruct (queue_is_empty (secondaryBufferQueue rb)); [now inversion Hf |].
  destruct (queue_remove_blocking (secondaryBufferQueue rb)) as [(it, q) | |];
    cbn [obind] in Hf; try discriminate.
  destruct (memmove _ _ _ _); cbn [obind] in Hf; try discriminate.
  destruct (memcpy _ _ _ _ _); cbn [obind] in Hf; try discriminate.
  destruct (if _ <? _ then _ else _); cbn [obind] in Hf; try discriminate.
  now inversion Hf.
Qed.

Lemma shift_keeps_pool (rb rb' : ReadBuffer) (n : Z) (b : bool) :
  shift n rb = Done (b, rb') -> secondaryBuffer rb' = secondaryBuffer rb.
Proof.
  unfold shift. intros Hs.
  destruct (_left rb <? n); [now inversion Hs |]. cbv zeta in Hs.
  destruct (_left (advanced n rb) <? _fillThreshold (advanced n rb)).
  - destruct (fill (advanced n rb)) as [(b1, rb1) | |] eqn:Hf;
      cbn [obind snd] in Hs; try discriminate.
    inversion Hs; subst. exact (fill_keeps_pool _ _ _ Hf).
  - now inversion Hs.
Qed.

Section CoresMoreFacts.

Context {FS : Type} {fatfs : FatFs FS} {config : PoolConfig} {race : Interleaving}.

Lemma core0_keeps_pool (s s' : System FS) :
  core0_step s s' -> secondaryBuffer (rbuf s') = secondaryBuffer (rbuf s).
Proof.
  intros Hstep.
  destruct Hstep as [s r | s r q Hrm | s b rb Hf | s n b rb Hs | s it rb Ht
                    | s it b rb Hc | s n Hn | s fp | s fp fpos];
    cbn; try reflexivity.
  - exact (fill_keeps_pool _ _ _ Hf).
  - exact (shift_keeps_pool _ _ _ _ Hs).
  - destruct (fill_take_spec _ _ _ Ht) as (_ & rest & _ & Hrb). now subst rb.
  - pose proof (fill_copy_frame _ _ _ _ Hc) as Hfr.
    now injection Hfr as _ _ _ Hsb _.
Qed.

(** An invariant of both cores holds in all the states they reach. *)
Lemma steps_invariant (P : System FS -> Prop) (s0 s : System FS) :
  P s0 ->
  (forall a b, P a -> core0_step a b -> P b) ->
  (forall a b, P a -> fillLoop_step a = Some b -> P b) ->
  steps s0 s -> P s.
Proof.
  intros H0 Hc0 Hc1 Hsteps. induction Hsteps as [s0 | s0 s1 s2 Hs IH Hstep].
  - exact H0.
  - destruct Hstep as [s1 s2 Hstep | s1 s2 Hstep].
    + exact (Hc0 s1 s2 (IH H0) Hstep).
    + exact (Hc1 s1 s2 (IH H0) Hstep).
Qed.

Ltac five := split; [| split; [| split; [| split]]].

Ltac not_reading := intros [? | ?]; discriminate.

Ltac settle :=
  try assumption; try reflexivity; try not_reading; try (intro; discriminate).

Lemma loop_keeps_core0 (b0 : Z) (s s' : System FS) :
  loop_keeps b0 s -> core0_step s s' -> loop_keeps b0 s'.
Proof.
  intros (Hb & Hid & Heof & Hq & Hit) Hstep.
  destruct (core0_step_queues s s' Hstep) as (Hl & _ & (k & Hk) & _).
  pose proof (core0_keeps_pool s s' Hstep) as Hsb.
  unfold loop_keeps. rewrite Hl, Hsb, Hk.
  five; try assumption. now apply Forall_skipn.
Qed.

Lemma loop_keeps_core1 (b0 : Z) (s s' : System FS) :
  0 < NUM_SECONDARY_BUFFERS ->
  loop_keeps b0 s -> fillLoop_step s = Some s' -> loop_keeps b0 s'.
Proof.
  intros HN (Hb & Hid & Heof & Hq & Hit) Hstep. unfold fillLoop_step in Hstep.
  destruct s as [rb l d]. cbn [rbuf loop disk] in *.
  destruct (pc l) eqn:Hpc.
  - (* Idle *)
    destruct (queue_is_empty (bindReqQueue rb)).
    + inversion Hstep; subst s'. unfold loop_keeps; cbn; rewrite Hpc.
      five; settle.
    + destruct (queue_remove_blocking (bindReqQueue rb)) as [(r, q) | |];
        inversion Hstep; subst s'; unfold loop_keeps; cbn; try rewrite Hpc;
        (five; settle).
  - (* Requested *)
    destruct (req_flag (loop_req l)); inversion Hstep; subst s';
      unfold loop_keeps; cbn; (five; settle).
  - (* Respond *)
    inversion Hstep; subst s'. unfold loop_keeps. cbn.
    five; try assumption; destruct (req_flag (loop_req l)); settle.
  - (* Streaming *)
    inversion Hstep; subst s'. unfold loop_keeps. cbn.
    five; try assumption.
    + destruct (loop_reachedEof l); [not_reading | reflexivity].
    + destruct (loop_reachedEof l); intro; discriminate.
  - (* TopUp *)
    specialize (Heof (or_introl eq_refl)).
    destruct (queue_get_level (secondaryBufferQueue rb) <? NUM_SECONDARY_BUFFERS);
      inversion Hstep; subst s'; unfold loop_keeps; cbn;
      (five; settle; intros _; exact Heof).
  - (* Reading *)
    destruct (f_read d (loop_fp l) SECONDARY_BUFFER_SIZE) as ((fr, data), d').
    destruct (negb (is_FR_OK fr) || (Z.of_nat (length data) =? 0)) eqn:Hbad;
      inversion Hstep; subst s'; unfold loop_keeps; cbn.
    + five; settle.
    + apply orb_false_iff in Hbad. destruct Hbad as (_ & Hbr). apply Z.eqb_neq in Hbr.
      five; settle.
      intros _. split; cbn; [lia |].
      exists (loop_id l). split; [exact Hid |]. unfold slot. cbn. now rewrite Hb.
  - (* Publish *)
    specialize (Hit eq_refl).
    inversion Hstep; subst s'. unfold loop_keeps. cbn.
    five; try assumption.
    + apply Z.rem_bound_pos; lia.
    + destruct (loop_reachedEof l) eqn:He; [not_reading | reflexivity].
    + unfold queue_try_add. destruct (queue_is_full (secondaryBufferQueue rb)); cbn;
        [assumption |].
      apply Forall_app. split; [assumption | constructor; [assumption | constructor]].
    + destruct (loop_reachedEof l); intro; discriminate.
  - (* Poll *)
    destruct (queue_is_empty (bindReqQueue rb)).
    + inversion Hstep; subst s'. unfold loop_keeps; cbn.
      five; settle.
    + destruct (queue_remove_blocking (bindReqQueue rb)) as [(r, q) | |];
        inversion Hstep; subst s'; unfold loop_keeps; cbn; try rewrite Hpc.
      * five; try assumption; destruct (req_flag r); settle.
      * five; settle.
      * five; settle.
  - (* Draining *)
    destruct (queue_is_empty (secondaryBufferQueue rb)).
    + inversion Hstep; subst s'. unfold loop_keeps; cbn.
      five; settle.
    + unfold queue_remove_blocking in Hstep.
      destruct (elements (secondaryBufferQueue rb)) as [| it rest] eqn:Hel;
        inversion Hstep; subst s'; unfold loop_keeps; cbn; try rewrite Hpc.
      * five; settle. rewrite Hel. constructor.
      * inversion Hq; subst.
        five; settle.
  - (* Respond2 *)
    inversion Hstep; subst s'. unfold loop_keeps. cbn.
    five; try assumption; destruct (req_flag (loop_req l)); settle.
  - (* Returned *)
    discriminate.
Qed.

(** X4: in every state the two cores reach once the loop has set up its
    queues, the loop stands before the test of l.157 or before a read only
    with its end-of-file flag clear: once a read has found the end of the
    file, no further read is made until a new request to connect has been
    taken.  The slot index stays within 0 .. N-1, and every item on the
    channel holds at least one byte and starts at one of the N slots. *)
Theorem no_read_after_eof (s0 s : System FS) :
  0 < NUM_SECONDARY_BUFFERS ->
  steps (fillLoop_enter s0) s ->
  (pc (loop s) = TopUp \/ pc (loop s) = Reading -> loop_reachedEof (loop s) = false)
  /\ 0 <= loop_id (loop s) < NUM_SECONDARY_BUFFERS
  /\ Forall (is_chunk (base (secondaryBuffer (rbuf s0))))
       (elements (secondaryBufferQueue (rbuf s))).
Proof.
  intros HN Hsteps.
  assert (Hinv : loop_keeps (base (secondaryBuffer (rbuf s0))) s).
  { apply (steps_invariant _ (fillLoop_enter s0) s); [| | | exact Hsteps].
    - unfold loop_keeps. cbn.
      five; [reflexivity | lia | reflexivity | constructor | intro; discriminate].
    - intros a b Ha Hab. exact (loop_keeps_core0 _ a b Ha Hab).
    - intros a b Ha Hab. exact (loop_keeps_core1 _ a b HN Ha Hab). }
  destruct Hinv as (_ & Hid & Heof & Hq & _). auto.
Qed.

Ltac three := split; [| split].

Lemma pool_keeps_core0 (s s' : System FS) :
  pool_keeps s -> core0_step s s' -> pool_keeps s'.
Proof.
  intros (He & Hq & Hit) Hstep.
  destruct (core0_step_queues s s' Hstep) as (Hl & _ & (k & Hk) & _).
  pose proof (core0_keeps_pool s s' Hstep) as Hsb.
  unfold pool_keeps. rewrite Hl, Hsb, Hk.
  three; try assumption. now apply Forall_skipn.
Qed.

Lemma pool_keeps_core1 (b0 : Z) (s s' : System FS) :
  0 < SECONDARY_BUFFER_SIZE ->
  reads_bounded ->
  loop_keeps b0 s ->
  pool_keeps s -> fillLoop_step s = Some s' -> pool_keeps s'.
Proof.
  intros HS Hlaw (_ & Hid & _) (He & Hq & Hit) Hstep. unfold fillLoop_step in Hstep.
  destruct s as [rb l d]. cbn [rbuf loop disk] in *.
  destruct (pc l) eqn:Hpc.
  - (* Idle *)
    destruct (queue_is_empty (bindReqQueue rb)).
    + inversion Hstep; subst s'. unfold pool_keeps; cbn; rewrite Hpc. three; settle.
    + destruct (queue_remove_blocking (bindReqQueue rb)) as [(r, q) | |];
        inversion Hstep; subst s'; unfold pool_keeps; cbn; try rewrite Hpc;
        (three; settle).
  - (* Requested *)
    destruct (req_flag (loop_req l)); inversion Hstep; subst s';
      unfold pool_keeps; cbn; (three; settle).
  - (* Respond *)
    inversion Hstep; subst s'. unfold pool_keeps. cbn.
    three; try assumption; destruct (req_flag (loop_req l)); settle.
  - (* Streaming *)
    inversion Hstep; subst s'. unfold pool_keeps. cbn.
    three; try assumption; destruct (loop_reachedEof l); settle.
  - (* TopUp *)
    destruct (queue_get_level (secondaryBufferQueue rb) <? NUM_SECONDARY_BUFFERS);
      inversion Hstep; subst s'; unfold pool_keeps; cbn; (three; settle).
  - (* Reading *)
    destruct (f_read d (loop_fp l) SECONDARY_BUFFER_SIZE) as ((fr, data), d') eqn:Hread.
    assert (Hlen : Z.of_nat (length data) <= SECONDARY_BUFFER_SIZE)
      by (eapply Hlaw; [| exact Hread]; lia).
    assert (Hin : inside (secondaryBuffer rb) (slot rb (loop_id l))
                    (Z.of_nat (length data)) = true)
      by (apply slot_in_pool; auto; lia).
    destruct (negb (is_FR_OK fr) || (Z.of_nat (length data) =? 0));
      inversion Hstep; subst s'; unfold pool_keeps; cbn;
      (three; settle; try (rewrite store_extent; assumption)).
    intros _. exact Hlen.
  - (* Publish *)
    specialize (Hit eq_refl).
    inversion Hstep; subst s'. unfold pool_keeps. cbn.
    three; try assumption.
    + unfold queue_try_add. destruct (queue_is_full (secondaryBufferQueue rb)); cbn;
        [assumption |].
      apply Forall_app. split; [assumption | constructor; [assumption | constructor]].
    + intros _. exact Hit.
  - (* Poll *)
    destruct (queue_is_empty (bindReqQueue rb)).
    + inversion Hstep; subst s'. unfold pool_keeps; cbn. three; settle.
    + destruct (queue_remove_blocking (bindReqQueue rb)) as [(r, q) | |];
        inversion Hstep; subst s'; unfold pool_keeps; cbn; try rewrite Hpc.
      * three; try assumption; destruct (req_flag r); settle.
      * three; settle.
      * three; settle.
  - (* Draining *)
    destruct (queue_is_empty (secondaryBufferQueue rb)).
    + inversion Hstep; subst s'. unfold pool_keeps; cbn. three; settle.
    + unfold queue_remove_blocking in Hstep.
      destruct (elements (secondaryBufferQueue rb)) as [| it rest] eqn:Hel;
        inversion Hstep; subst s'; unfold pool_keeps; cbn; try rewrite Hpc.
      * three; settle. rewrite Hel. constructor.
      * inversion Hq; subst. three; settle.
  - (* Respond2 *)
    inversion Hstep; subst s'. unfold pool_keeps. cbn.
    three; try assumption; destruct (req_flag (loop_req l)); settle.
  - (* Returned *)
    discriminate.
Qed.

(** X5: when the secondary storage has N slots of SECONDARY_BUFFER_SIZE
    bytes and the file system never returns more bytes than asked for,
    then in every state the two cores reach, every item on the channel
    lies inside the secondary storage: the copy of l.73 never reads outside
    it, and the reads of the loop never write outside it (the storage
    keeps its extent). *)
Theorem queued_items_in_pool (s0 s : System FS) :
  0 < NUM_SECONDARY_BUFFERS ->
  0 < SECONDARY_BUFFER_SIZE ->
  reads_bounded ->
  extent (secondaryBuffer (rbuf s0))
  = NUM_SECONDARY_BUFFERS * SECONDARY_BUFFER_SIZE ->
  steps (fillLoop_enter s0) s ->
  Forall (item_ok (rbuf s)) (elements (secondaryBufferQueue (rbuf s)))
  /\ extent (secondaryBuffer (rbuf s)) = extent (secondaryBuffer (rbuf s0))
  /\ base (secondaryBuffer (rbuf s)) = base (secondaryBuffer (rbuf s0)).
Proof.
  intros HN HS Hlaw Hext Hsteps.
  set (b0 := base (secondaryBuffer (rbuf s0))).
  assert (Hinv : loop_keeps b0 s /\ pool_keeps s).
  { apply (steps_invariant (fun x => loop_keeps b0 x /\ pool_keeps x)
             (fillLoop_enter s0) s); [| | | exact Hsteps].
    - split.
      + unfold loop_keeps. cbn.
        five; [reflexivity | lia | reflexivity | constructor | intro; discriminate].
      + unfold pool_keeps. cbn.
        three; [exact Hext | constructor | intro; discriminate].
    - intros a b (Ha1 & Ha2) Hab. split.
      + exact (loop_keeps_core0 _ a b Ha1 Hab).
      + exact (pool_keeps_core0 a b Ha2 Hab).
    - intros a b (Ha1 & Ha2) Hab. split.
      + exact (loop_keeps_core1 _ a b HN Ha1 Hab).
      + exact (pool_keeps_core1 b0 a b HS Hlaw Ha1 Ha2 Hab). }
  destruct Hinv as ((Hb & _ & _ & Hq1 & _) & (He & Hq2 & _)).
  split; [| split; [now rewrite He, Hext | exact Hb]].
  apply Forall_forall. intros it Hin.
  rewrite Forall_forall in Hq1, Hq2.
  destruct (Hq1 it Hin) as (Hpos & k & Hk & Hptr). specialize (Hq2 it Hin).
  unfold item_ok. apply inside_spec. rewrite Hb, He, Hptr. nia.
Qed.

(** *** What [seek] loads *)









(** X17: the loop refills the pool.  With [n] free places on the channel,
    the loop at the test of l.157 and a file whose next [n] reads succeed
    with 1 to SECONDARY_BUFFER_SIZE bytes, none but the last reaching the
    end of the file, the pool is full after three moves of the loop per
    chunk: [n] items have been added behind those queued, each inside
    the secondary storage, and nothing else of the object has changed but
    the bytes of that storage. *)
Theorem pool_refills (n : nat) (s : System FS) :
  0 < NUM_SECONDARY_BUFFERS ->
  0 < SECONDARY_BUFFER_SIZE ->
  (n <> O -> pc (loop s) = TopUp) ->
  queue_get_level (secondaryBufferQueue (rbuf s))
  = NUM_SECONDARY_BUFFERS - Z.of_nat n ->
  element_count (secondaryBufferQueue (rbuf s)) = NUM_SECONDARY_BUFFERS ->
  0 <= loop_id (loop s) < NUM_SECONDARY_BUFFERS ->
  extent (secondaryBuffer (rbuf s))
  = NUM_SECONDARY_BUFFERS * SECONDARY_BUFFER_SIZE ->
  feeds n (disk s) (loop_fp (loop s)) ->
  exists s' : System FS,
    await (3 * n) pool_full s = Done s'
    /\ grown n s s'
    /\ queue_get_level (secondaryBufferQueue (rbuf s')) = NUM_SECONDARY_BUFFERS.
Proof.
  intros HN HS Hpc Hlv Hcnt Hid Hext Hfeed.
  destruct (top_up n s HN HS Hpc Hlv Hcnt Hid Hext Hfeed) as (s' & Ha & Hg).
  exists s'. split; [exact Ha |]. split; [exact Hg |].
  destruct Hg as (_ & _ & _ & new & Hnew & _ & Hlen).
  unfold queue_get_level in *. rewrite Hnew, length_app. lia.
Qed.

(** *** Requests that reach the loop while it streams *)

Lemma await_step (cond : System FS -> bool) (k : nat) (s s1 : System FS) :
  cond s = false -> fillLoop_step s = Some s1 ->
  await (S k) cond s = await k cond s1.
Proof. intros Hc Hs. cbn [await]. now rewrite Hc, Hs. Qed.

(** The loop of l.176-178 empties the channel, and l.180 answers. *)
Lemma drain (els : list secondaryBufferItem_t) :
  forall s : System FS,
    pc (loop s) = Draining ->
    elements (secondaryBufferQueue (rbuf s)) = els ->
    elements (bindRespQueue (rbuf s)) = [] ->
    0 < element_count (bindRespQueue (rbuf s)) ->
    req_flag (loop_req (loop s)) = false ->
    exists s' : System FS,
      await (length els + 2) response_ready s = Done s'
      /\ pc (loop s') = Idle
      /\ secondaryBufferQueue (rbuf s')
         = {| elements := [];
              element_count := element_count (secondaryBufferQueue (rbuf s)) |}
      /\ bindRespQueue (rbuf s')
         = {| elements := [loop_req (loop s)];
              element_count := element_count (bindRespQueue (rbuf s)) |}
      /\ with_bindRespQueue (bindRespQueue (rbuf s))
           (with_secondaryBufferQueue (secondaryBufferQueue (rbuf s)) (rbuf s'))
         = rbuf s
      /\ disk s' = disk s
      /\ loop_req (loop s') = loop_req (loop s).
Proof.
  induction els as [| it rest IH]; intros s Hpc Hel Hresp Hcap Hflag.
  - destruct s as [rb l d]. destruct l as [lid lpos lfp leof lreq litem lpc].
    destruct rb as [rfp rsize rleft rthr reof rhead rptr rpos rprim rsec
                      q1 [q2 c2] [q3 c3]].
    cbn in Hpc, Hel, Hresp, Hcap, Hflag. subst lpc q2 q3.
    assert (Hf2 : (c2 <=? 0) = false) by (apply Z.leb_gt; exact Hcap).
    eexists. split.
    + cbn [length Nat.add]. unfold await, response_ready, fillLoop_step, queue_try_add,
        queue_is_full, queue_is_empty, queue_get_level.
      cbn. rewrite Hf2. cbn. rewrite Hflag. reflexivity.
    + cbn. repeat split.
  - destruct s as [rb l d]. destruct l as [lid lpos lfp leof lreq litem lpc].
    destruct rb as [rfp rsize rleft rthr reof rhead rptr rpos rprim rsec
                      q1 [q2 c2] [q3 c3]].
    cbn in Hpc, Hel, Hresp, Hcap, Hflag. subst lpc q2 q3.
    set (rb1 := {| _fp := rfp; _size := rsize; _left := rleft;
                   _fillThreshold := rthr; _isEof := reof; _head := rhead;
                   _ptr := rptr; _pos := rpos; primary := rprim;
                   secondaryBuffer := rsec; bindReqQueue := q1;
                   bindRespQueue := {| elements := []; element_count := c2 |};
                   secondaryBufferQueue :=
                     {| elements := rest; element_count := c3 |} |}).
    set (s1 := {| rbuf := rb1;
                  loop := {| loop_id := lid; loop_pos := lpos; loop_fp := lfp;
                             loop_reachedEof := leof; loop_req := lreq;
                             loop_item := it; pc := Draining |};
                  disk := d |}).
    destruct (IH s1) as (s' & Ha & Hpc' & Hsq & Hrq & Hframe & Hd & Hreq);
      try reflexivity; try assumption.
    exists s'. cbn [length Nat.add].
    split; [| split; [| split; [| split; [| split; [| split]]]]];
      try assumption.
    cbn [rbuf s1 rb1 bindRespQueue secondaryBufferQueue] in Hframe |- *.
    destruct (rbuf s'). cbn in Hframe |- *. inversion Hframe. reflexivity.
Qed.

(** The poll of l.173 finds the request that core 0 has sent. *)
Lemma poll_takes (r : bindReq_t) (s : System FS) (k : nat) :
  pool_spin s ->
  exists j : nat,
    (j <= 3)%nat
    /\ await (j + k) response_ready (requested r s)
       = await k response_ready
           (with_loop (at_pc (if req_flag r then Respond2 else Draining)
                         (with_req r (loop s))) s).
Proof.
  intros (Hpc & Hq1 & Hq2 & Hc1 & Hc2).
  destruct s as [rb l d]. destruct l as [lid lpos lfp leof lreq litem lpc].
  destruct rb as [rfp rsize rleft rthr reof rhead rptr rpos rprim rsec
                    [q1 c1] [q2 c2] q3].
  cbn in Hpc, Hq1, Hq2, Hc1, Hc2. subst q1 q2.
  assert (Hf1 : (c1 <=? 0) = false) by (apply Z.leb_gt; exact Hc1).
  unfold requested, queue_try_add, queue_is_full, queue_get_level.
  cbn. rewrite Hf1. cbn.
  destruct Hpc as [-> | ([-> | ->] & -> & Hfull)].
  - exists 1%nat. split; [lia |]. reflexivity.
  - exists 3%nat. split; [lia |].
    apply Z.ltb_ge in Hfull.
    cbn [Nat.add].
    erewrite await_step; [| reflexivity | reflexivity].
    erewrite await_step; [| reflexivity | cbn; unfold fillLoop_step; cbn;
                                           rewrite Hfull; reflexivity].
    reflexivity.
  - exists 2%nat. split; [lia |].
    apply Z.ltb_ge in Hfull.
    cbn [Nat.add].
    erewrite await_step; [| reflexivity | unfold fillLoop_step; cbn;
                                           rewrite Hfull; reflexivity].
    reflexivity.
Qed.

(** X7: a disconnect that reaches the loop while it streams empties the
    channel.  With the loop at the poll of l.173, or on its way there with
    the pool full, [reqBind fp false] returns; the channel is empty after
    it, nothing else of the object and nothing of the file system has
    changed, and the loop is idle again. *)
Theorem disconnect_drains (fp : FILptr) (s : System FS) (fuel : nat) :
  pool_spin s ->
  (length (elements (secondaryBufferQueue (rbuf s))) + 5 <= fuel)%nat ->
  exists s' : System FS,
    reqBind fuel fp false s = Done s'
    /\ secondaryBufferQueue (rbuf s')
       = {| elements := [];
            element_count := element_count (secondaryBufferQueue (rbuf s)) |}
    /\ with_secondaryBufferQueue (secondaryBufferQueue (rbuf s)) (rbuf s') = rbuf s
    /\ disk s' = disk s
    /\ quiescent s'.
Proof.
  intros Hspin Hfuel.
  set (r := {| req_fp := fp; req_flag := false |}).
  set (n := length (elements (secondaryBufferQueue (rbuf s)))) in *.
  destruct (poll_takes r s (n + 2) Hspin) as (j & Hj & Hpoll).
  destruct Hspin as (_ & Hq1 & Hq2 & Hc1 & Hc2).
  cbn [req_flag r] in Hpoll.
  destruct (drain (elements (secondaryBufferQueue (rbuf s)))
              (with_loop (at_pc Draining (with_req r (loop s))) s))
    as (s1 & Ha & Hpc1 & Hsq & Hrq & Hframe & Hd & _);
    try reflexivity; try assumption.
  fold n in Ha. rewrite <- Hpoll in Ha.
  cbn [rbuf with_loop loop at_pc with_req loop_req] in Hsq, Hrq, Hframe.
  assert (Hresp : bindRespQueue (rbuf s)
                  = {| elements := [];
                       element_count := element_count (bindRespQueue (rbuf s)) |}).
  { rewrite <- Hq2. symmetry. apply queue_eta. }
  exists (with_rbuf (with_bindRespQueue (bindRespQueue (rbuf s)) (rbuf s1)) s1).
  split; [| split; [| split; [| split]]].
  - unfold reqBind. fold r. fold (requested r s).
    rewrite (await_more response_ready (j + (n + 2)) fuel _ s1 Ha) by lia.
    cbn [obind]. unfold queue_remove_blocking. rewrite Hrq.
    cbn [elements element_count obind snd]. rewrite <- Hresp. reflexivity.
  - exact Hsq.
  - etransitivity; [| exact Hframe]. reflexivity.
  - exact Hd.
  - unfold quiescent. cbn [rbuf with_rbuf loop].
    apply (f_equal bindReqQueue) in Hframe.
    destruct (rbuf s1). cbn in Hframe |- *. subst.
    repeat split; assumption.
Qed.

Lemma fill_keeps_fp (rb rb' : ReadBuffer) (b : bool) :
  fill rb = Done (b, rb') -> _fp rb' = _fp rb.
Proof.
  unfold fill. intros Hf.
  destruct (_isEof rb); [now inversion Hf |].
  destruct (queue_is_empty (secondaryBufferQueue rb)); [now inversion Hf |].
  destruct (queue_remove_blocking (secondaryBufferQueue rb)) as [(it, q) | |];
    cbn [obind] in Hf; try discriminate.
  destruct (memmove _ _ _ _); cbn [obind] in Hf; try discriminate.
  destruct (memcpy _ _ _ _ _); cbn [obind] in Hf; try discriminate.
  destruct (if _ <? _ then _ else _); cbn [obind] in Hf; try discriminate.
  now inversion Hf.
Qed.

(** X8: a request to connect that reaches the loop while it streams with
    the pool full binds nothing (l.181, "otherwise ignore").  The loop
    only notes the request and streams on, so [reqBind fp' true] is then
    nothing but the fill of l.125, made on the object as it stands while
    the loop runs; and whatever the loop does meanwhile, when [reqBind]
    returns the object and the loop still hold the file they had,
    whatever [fp'] is. *)
Theorem connect_while_streaming (fp' : FILptr) (s : System FS) (fuel : nat) :
  pool_spin s ->
  NUM_SECONDARY_BUFFERS <= queue_get_level (secondaryBufferQueue (rbuf s)) ->
  (4 <= fuel)%nat ->
  let r := {| req_fp := fp'; req_flag := true |} in
  reqBind fuel fp' true s
  = fill_racing (with_loop (at_pc Streaming (with_req r (loop s))) s)
  /\ forall s' : System FS,
       reqBind fuel fp' true s = Done s' ->
       _fp (rbuf s') = _fp (rbuf s)
       /\ loop_fp (loop s') = loop_fp (loop s)
       /\ loop_req (loop s') = r.
Proof.
  intros Hspin Hfull Hfuel r.
  set (s3 := with_loop (at_pc Streaming (with_req r (loop s))) s).
  assert (Hs3 : streams s3).
  { destruct Hspin as (_ & Hq1 & _). split; [exact Hq1 | reflexivity]. }
  assert (Heq : reqBind fuel fp' true s = fill_racing s3).
  { destruct (poll_takes r s 1 Hspin) as (j & Hj & Hpoll).
    destruct Hspin as (_ & Hq1 & Hq2 & Hc1 & Hc2).
    cbn [req_flag r] in Hpoll.
    assert (Hf2 : (element_count (bindRespQueue (rbuf s)) <=? 0) = false)
      by (apply Z.leb_gt; exact Hc2).
    assert (Ha : await (j + 1) response_ready (requested r s)
                 = Done (with_rbuf
                           (with_bindRespQueue
                              {| elements := [r];
                                 element_count := element_count (bindRespQueue (rbuf s)) |}
                              (rbuf s)) s3)).
    { rewrite Hpoll. clear Hs3. unfold s3.
      destruct s as [rb l d].
      destruct rb as [rfp rsize rleft rthr reof rhead rptr rpos rprim rsec
                        q1 [q2 c2] q3].
      cbn in Hq2, Hf2. subst q2.
      unfold await, response_ready, fillLoop_step, queue_try_add,
        queue_is_full, queue_is_empty, queue_get_level.
      cbn. rewrite Hf2. cbn. reflexivity. }
    unfold reqBind. fold r. fold (requested r s).
    rewrite (await_more response_ready (j + 1) fuel _ _ Ha) by lia.
    cbn [obind]. unfold queue_remove_blocking at 1.
    cbn [rbuf with_rbuf with_bindRespQueue bindRespQueue elements element_count
         obind snd].
    replace (with_rbuf _ (with_rbuf _ s3)) with s3.
    - assert (Hp : pool_full s3 = true).
      { unfold pool_full. cbn [rbuf s3 with_loop].
        apply negb_true_iff, Z.ltb_ge. exact Hfull. }
      assert (Hw : await fuel pool_full s3 = Done s3)
        by (destruct fuel; cbn [await]; now rewrite Hp).
      rewrite Hw. reflexivity.
    - clear Hs3 Ha. unfold s3. destruct s as [rb l d].
      destruct rb as [rfp rsize rleft rthr reof rhead rptr rpos rprim rsec
                        q1 [q2 c2] q3].
      cbn in Hq2. subst q2. reflexivity. }
  split; [exact Heq |].
  intros s' Hs'. rewrite Heq in Hs'.
  exact (fill_racing_keeps s3 s' Hs3 Hs').
Qed.

(** *** Chunks left on the channel when the loop goes idle *)

(** The request to connect, sent to the idle loop while the channel still
    holds [it :: rest]: the loop adds the [n] chunks that were missing and
    the fill of l.125 loads [it]. *)
Lemma connect_keeps_head (s : System FS) (n : nat) (it : secondaryBufferItem_t)
    (rest : list secondaryBufferItem_t) :
  quiescent s ->
  elements (secondaryBufferQueue (rbuf s)) = it :: rest ->
  element_count (secondaryBufferQueue (rbuf s)) = NUM_SECONDARY_BUFFERS ->
  0 < NUM_SECONDARY_BUFFERS ->
  0 < SECONDARY_BUFFER_SIZE ->
  0 <= loop_id (loop s) < NUM_SECONDARY_BUFFERS ->
  extent (secondaryBuffer (rbuf s))
  = NUM_SECONDARY_BUFFERS * SECONDARY_BUFFER_SIZE ->
  base (primary (rbuf s)) = _head (rbuf s) ->
  extent (primary (rbuf s)) = _size (rbuf s) ->
  _size (rbuf s) < SIZE_MODULUS ->
  item_ok (rbuf s) it ->
  item_length it <= _size (rbuf s) ->
  Z.of_nat n = NUM_SECONDARY_BUFFERS - Z.of_nat (length (it :: rest)) ->
  (n <> O -> f_eof (disk s) (_fp (rbuf s)) = false) ->
  feeds n (disk s) (_fp (rbuf s)) ->
  exists s' : System FS,
    (forall fuel : nat, (3 * n + 3 <= fuel)%nat ->
       reqBind fuel (_fp (rbuf s)) true s = Done s')
    /\ tell (rbuf s') = size_sub (item_pos it) (item_length it)
    /\ getLeft (rbuf s') = item_length it
    /\ _isEof (rbuf s') = item_reachedEof it
    /\ _fp (rbuf s') = _fp (rbuf s)
    /\ exists new : list secondaryBufferItem_t,
         elements (secondaryBufferQueue (rbuf s')) = rest ++ new
         /\ (n <= length new)%nat.
Proof.
  intros Hq Hel Hcnt HN HS Hid Hext Hb He Hsz Hit Hlen Hn Heof Hfeed.
  set (r := {| req_fp := _fp (rbuf s); req_flag := true |}).
  set (s5 := with_loop (at_pc TopUp (loop (answered r s))) (answered r s)).
  assert (Hs5 : streams s5).
  { destruct Hq as (_ & Hq1 & _). split; [exact Hq1 | reflexivity]. }
  assert (Hpool : exists s6 : System FS,
             (forall fuel : nat, (3 * n + 1 <= fuel)%nat ->
                await fuel pool_full (answered r s) = Done s6)
             /\ grown n s5 s6 /\ streams s6).
  { destruct n as [| m].
    - exists (answered r s). split; [| split].
      + intros fuel _.
        assert (Hp : pool_full (answered r s) = true).
        { unfold pool_full, queue_get_level. cbn [answered req_flag r rbuf].
          change (secondaryBufferQueue (bind (req_fp r) (rbuf s)))
            with (secondaryBufferQueue (rbuf s)).
          rewrite Hel. apply negb_true_iff, Z.ltb_ge. lia. }
        destruct fuel; cbn [await]; now rewrite Hp.
      + unfold grown. change (rbuf s5) with (rbuf (answered r s)).
        rewrite with_pool_same. repeat split.
        exists []. rewrite app_nil_r. repeat split. constructor.
      + destruct Hq as (_ & Hq1 & _). split; [exact Hq1 | reflexivity].
    - specialize (Heof (Nat.neq_succ_0 m)).
      destruct (top_up (S m) s5) as (s6 & Ha & Hg); auto.
      + unfold queue_get_level. cbn. rewrite Hel. lia.
      + exists s6. split; [| split; [exact Hg |]].
        * intros fuel Hfuel. destruct fuel as [| k]; [lia |].
          assert (Hstart : await (S k) pool_full (answered r s)
                           = await k pool_full s5).
          { cbn [await]. unfold pool_full at 1. cbn [answered req_flag r rbuf].
            unfold queue_get_level. cbn [secondaryBufferQueue bind].
            replace (Z.of_nat (length (elements (secondaryBufferQueue (rbuf s))))
                     <? NUM_SECONDARY_BUFFERS) with true
              by (symmetry; apply Z.ltb_lt; rewrite Hel; lia).
            cbn [negb]. unfold fillLoop_step at 1.
            cbn [pc loop answered req_flag r req_fp loop_reachedEof].
            rewrite Heof at 1. reflexivity. }
          rewrite Hstart.
          apply (await_more pool_full (3 * S m) k s5 s6 Ha). lia.
        * apply (await_drifted pool_full _ s5 s6 Hs5 Ha). }
  destruct Hpool as (s6 & Ha & (Hsame & Hbs & Hes & new & Hnew & _ & Hnlen) & Hs6).
  cbn [rbuf s5 with_loop answered req_flag r] in Hsame, Hbs, Hes, Hnew.
  cbn [secondaryBufferQueue secondaryBuffer bind] in Hnew, Hbs, Hes.
  rewrite Hel in Hnew. cbn [app] in Hnew.
  assert (Hfields :
            (_isEof (rbuf s6), _left (rbuf s6), _size (rbuf s6), _head (rbuf s6),
             _ptr (rbuf s6), primary (rbuf s6))
            = (false, 0, _size (rbuf s), _head (rbuf s), _head (rbuf s),
               primary (rbuf s))).
  { apply (f_equal (fun x => (_isEof x, _left x, _size x, _head x, _ptr x, primary x)))
      in Hsame. exact Hsame. }
  assert (Hf7 : _fp (rbuf s6) = _fp (rbuf s))
    by (apply (f_equal _fp) in Hsame; exact Hsame).
  injection Hfields as Hf1 Hf2 Hf3 Hf4 Hf5 Hf6.
  pose proof Hit as Hit'. apply inside_spec in Hit'.
  destruct (fill_racing_loads s6 it (rest ++ new)) as
    (s7 & rb' & Hfill & _ & _ & _ & (new' & Hq') & Hleft & Hpos & Heof6 & _ & Hfp & _);
    auto.
  { unfold rb_ok. rewrite Hf2, Hf3, Hf4, Hf5, Hf6. lia. }
  { unfold item_ok. apply inside_spec. rewrite Hbs, Hes. exact Hit'. }
  { rewrite Hf2, Hf3. lia. }
  exists (with_rbuf rb' s7). cbn [rbuf with_rbuf].
  split; [| split; [| split; [| split; [| split]]]].
  - intros fuel Hfuel.
    rewrite reqBind_answered by (auto; lia). fold r.
    rewrite (Ha fuel) by lia. cbn [obind]. exact Hfill.
  - unfold tell. rewrite Hpos, Hleft, Hf2. reflexivity.
  - unfold getLeft. rewrite Hleft, Hf2. reflexivity.
  - exact Heof6.
  - rewrite Hfp. exact Hf7.
  - exists (new ++ new'). split; [rewrite Hq'; now rewrite app_assoc |].
    rewrite length_app. lia.
Qed.

(** X9: [seek] does not discard the chunks that were still queued when
    the loop left its streaming loop at the end of the file.  With the
    loop idle and [it :: rest] on the channel, [n] places being free, the
    disconnect of l.99 is answered without the discarding loop of l.176
    being reached.  If the pool is full of such chunks ([n] = 0), [seek]
    returns true for every position; if it is not, it does so for every
    position that leaves the file before its end and able to feed the [n]
    chunks that are missing.  Either way, and whatever core 1 does while
    core 0 is inside the fill of l.125, that fill loads [it]: [seek]
    returns with [tell] at the start of that old chunk and [getLeft] its
    length, the rest of the old chunks still queued ahead of at least [n]
    new ones. *)
Theorem seek_keeps_stale_chunks (fpos : Z) (s : System FS) (n : nat)
    (it : secondaryBufferItem_t) (rest : list secondaryBufferItem_t) :
  quiescent s ->
  elements (secondaryBufferQueue (rbuf s)) = it :: rest ->
  element_count (secondaryBufferQueue (rbuf s)) = NUM_SECONDARY_BUFFERS ->
  0 < NUM_SECONDARY_BUFFERS ->
  0 < SECONDARY_BUFFER_SIZE ->
  0 <= loop_id (loop s) < NUM_SECONDARY_BUFFERS ->
  extent (secondaryBuffer (rbuf s))
  = NUM_SECONDARY_BUFFERS * SECONDARY_BUFFER_SIZE ->
  base (primary (rbuf s)) = _head (rbuf s) ->
  extent (primary (rbuf s)) = _size (rbuf s) ->
  _size (rbuf s) < SIZE_MODULUS ->
  item_ok (rbuf s) it ->
  item_length it <= _size (rbuf s) ->
  Z.of_nat n = NUM_SECONDARY_BUFFERS - Z.of_nat (length (it :: rest)) ->
  (n <> O ->
   f_eof (snd (f_lseek (disk s) (_fp (rbuf s)) fpos)) (_fp (rbuf s)) = false) ->
  feeds n (snd (f_lseek (disk s) (_fp (rbuf s)) fpos)) (_fp (rbuf s)) ->
  exists s' : System FS,
    (forall fuel : nat, (3 * n + 3 <= fuel)%nat ->
       seek fuel fpos s = Done (true, s'))
    /\ tell (rbuf s') = size_sub (item_pos it) (item_length it)
    /\ getLeft (rbuf s') = item_length it
    /\ _fp (rbuf s') = _fp (rbuf s)
    /\ exists new : list secondaryBufferItem_t,
         elements (secondaryBufferQueue (rbuf s')) = rest ++ new
         /\ (n <= length new)%nat.
Proof.
  intros Hq Hel Hcnt HN HS Hid Hext Hb He Hsz Hit Hlen Hn Heof Hfeed.
  set (r0 := {| req_fp := _fp (rbuf s); req_flag := false |}).
  set (s2 := with_disk (snd (f_lseek (disk s) (_fp (rbuf s)) fpos)) (answered r0 s)).
  destruct (connect_keeps_head s2 n it rest)
    as (s' & Hconn & Htell & Hleft & _ & Hfp & Hnew); auto.
  exists s'. split; [| split; [| split; [| split]]]; try assumption.
  intros fuel Hfuel. unfold seek.
  rewrite reqBind_answered by (auto; lia). fold r0. cbn [obind].
  change (with_disk _ (answered r0 s)) with s2.
  change (_fp (rbuf s2)) with (_fp (rbuf s)).
  change (_fp (rbuf s)) with (_fp (rbuf s2)) at 1.
  rewrite (Hconn fuel Hfuel). reflexivity.
Qed.

(** *** A file that cannot fill the pool *)

Lemma await_defined (cond : System FS -> bool) (fuel : nat) (s : System FS) :
  await fuel cond s <> Undefined.
Proof.
  revert s. induction fuel as [| k IH]; intros s; cbn [await];
    destruct (cond s); try discriminate.
  destruct (fillLoop_step s) as [s1 |]; [apply IH | discriminate].
Qed.

(** From a quiescent state [reqBind] either is still waiting for the
    answer, or has got it and goes on as [reqBind_answered] says. *)
Lemma reqBind_cases (fp : FILptr) (flag : bool) (s : System FS) (fuel : nat) :
  quiescent s ->
  reqBind fuel fp flag s = Blocked
  \/ reqBind fuel fp flag s
     = (if flag then
          s4 <- await fuel pool_full (answered {| req_fp := fp; req_flag := flag |} s) ;;
          fill_racing s4
        else Done (answered {| req_fp := fp; req_flag := flag |} s)).
Proof.
  intros Hq.
  set (r := {| req_fp := fp; req_flag := flag |}).
  destruct (handshake r s (Nat.max fuel 3) Hq (Nat.le_max_r _ _))
    as (s1 & Ha & _ & q & Hrm & Hs).
  unfold reqBind. fold r. fold (requested r s).
  destruct (await fuel response_ready (requested r s)) as [x | |] eqn:Hx.
  - right.
    pose proof (await_more response_ready fuel (Nat.max fuel 3) _ x Hx
                  (Nat.le_max_l _ _)) as Hx'.
    rewrite Ha in Hx'. inversion Hx'; subst x.
    cbn [obind]. rewrite Hrm. cbn [obind snd]. now rewrite Hs.
  - exfalso. exact (await_defined _ _ _ Hx).
  - left. reflexivity.
Qed.

(** Bound to a file that is at its end, the loop publishes nothing and
    goes back to l.144: a pool that is not full never fills. *)
Lemma pool_never_fills (r : bindReq_t) (s : System FS) :
  quiescent s ->
  req_flag r = true ->
  f_eof (disk s) (req_fp r) = true ->
  queue_get_level (secondaryBufferQueue (rbuf s)) < NUM_SECONDARY_BUFFERS ->
  forall fuel : nat, await fuel pool_full (answered r s) = Blocked.
Proof.
  intros (Hpc & Hq1 & Hq2 & Hc1 & Hc2) Hflag Heof Hlv.
  assert (Hlow : (queue_get_level (secondaryBufferQueue (rbuf s))
                  <? NUM_SECONDARY_BUFFERS) = true) by (apply Z.ltb_lt; exact Hlv).
  unfold answered. rewrite Hflag.
  eapply await_later.
  - unfold pool_full. cbn [rbuf bind secondaryBufferQueue]. now rewrite Hlow.
  - unfold fillLoop_step. cbn [loop pc loop_reachedEof]. rewrite Heof. reflexivity.
  - apply await_stuck.
    + unfold pool_full. cbn [rbuf with_loop bind secondaryBufferQueue]. now rewrite Hlow.
    + unfold fillLoop_step. cbn [loop with_loop at_pc pc rbuf bind bindReqQueue].
      unfold queue_is_empty, queue_get_level. rewrite Hq1. reflexivity.
Qed.

(** X18: [seek] to the end of the file never returns.  With the loop idle
    and the pool not full, if the file is at its end after [f_lseek] (a
    position at or past the end, or an empty file), the loop binds, finds
    the end of the file and publishes nothing, and the wait of l.124 for
    a full pool has no end: whatever the number of moves the loop is
    given, [seek] is still blocked. *)
Theorem seek_to_eof_hangs (fpos : Z) (s : System FS) :
  quiescent s ->
  queue_get_level (secondaryBufferQueue (rbuf s)) < NUM_SECONDARY_BUFFERS ->
  f_eof (snd (f_lseek (disk s) (_fp (rbuf s)) fpos)) (_fp (rbuf s)) = true ->
  forall fuel : nat, seek fuel fpos s = Blocked.
Proof.
  intros Hq Hlv Heof fuel. unfold seek.
  destruct (reqBind_cases (_fp (rbuf s)) false s fuel Hq) as [Hb | Hd].
  - rewrite Hb. reflexivity.
  - rewrite Hd. cbn [obind].
    set (r0 := {| req_fp := _fp (rbuf s); req_flag := false |}).
    set (s2 := with_disk (snd (f_lseek (disk (answered r0 s))
                                 (_fp (rbuf (answered r0 s))) fpos))
                 (answered r0 s)).
    assert (Hq2 : quiescent s2) by exact Hq.
    destruct (reqBind_cases (_fp (rbuf s2)) true s2 fuel Hq2) as [Hb | Hd2].
    + rewrite Hb. reflexivity.
    + rewrite Hd2.
      rewrite (pool_never_fills {| req_fp := _fp (rbuf s2); req_flag := true |} s2);
        try assumption; reflexivity.
Qed.

Lemma moves_steps (n : nat) (s s' : System FS) :
  moves n s = Some s' -> steps s s'.
Proof.
  revert s. induction n as [| n IH]; intros s Hm; cbn in Hm.
  - inversion Hm. apply steps_refl.
  - destruct (fillLoop_step s) as [s1 |] eqn:Hstep; [| discriminate].
    specialize (IH s1 Hm).
    clear Hm. induction IH as [x | x y z Hxy IHxy Hyz].
    + eapply steps_more; [apply steps_refl | apply step_core1; exact Hstep].
    + eapply steps_more; [apply IHxy; exact Hstep | exact Hyz].
Qed.

End CoresMoreFacts.

Lemma memfs_reads_bounded : @reads_bounded MemFile MemFS.
Proof.
  intros d d' fp btr fr data Hbtr Hread. cbn in Hread.
  destruct (is_FR_OK (err d)); inversion Hread; subst data; cbn; [| lia].
  rewrite length_firstn. lia.
Qed.

(** [auto_fill_bounded] on the small configuration: threshold 4, chunks
    of 4 bytes, a buffer of 16. *)
Lemma auto_fill_bounded_witness :
  exists results : list (bool * ReadBuffer),
    run scenario_first [([scenario_item 2], Shift 3); ([], Shift 5)] = Done results
    /\ Forall (fun r => 0 <= _left (snd r) <= 16) results.
Proof.
  destruct (auto_fill_bounded scenario_first 4
              [([scenario_item 2], Shift 3); ([], Shift 5)])
    as (results & Hrun & _ & Hall).
  - unfold rb_ok. cbn. repeat split; try lia; reflexivity.
  - cbn. lia.
  - cbn. constructor; [| constructor]. split; [reflexivity | cbn; lia].
  - unfold shifts_only. constructor; [| constructor; [| constructor]].
    + split; [constructor; [| constructor]; split; [reflexivity | cbn; lia] |].
      exists 3. split; [reflexivity | unfold is_size_t, SIZE_MODULUS; lia].
    + split; [constructor |].
      exists 5. split; [reflexivity | unfold is_size_t, SIZE_MODULUS; lia].
  - exists results. split; [exact Hrun |].
    assert (Hres : exists r, Done results = Done r /\
                             Forall (fun x => _size (snd x) = 16) r).
    { rewrite <- Hrun. eexists. split; [vm_compute; reflexivity |].
      repeat constructor. }
    destruct Hres as (r & Heq & Hsz). inversion Heq; subst r.
    rewrite Forall_forall in Hall, Hsz |- *. intros x Hx.
    rewrite <- (Hsz x Hx). exact (Hall x Hx).
Defined.

(** [shiftAll_empties] on the buffer that holds the first chunk, the second
    one queued: the window then holds the second chunk. *)
Lemma shiftAll_empties_witness :
  exists rb' : ReadBuffer,
    shiftAll scenario_first = Done (true, rb')
    /\ window rb' = [Byte.x05; Byte.x06; Byte.x07; Byte.x08].
Proof.
  destruct (shiftAll_empties scenario_first) as (rb' & Hs & _ & Hw & _).
  - unfold rb_ok. cbn. repeat split; try lia; reflexivity.
  - reflexivity.
  - exists rb'. split; [exact Hs | exact Hw].
Defined.

(** [pool_refills] on the small configuration after [seek 4]: one place
    is free and the loop fills it in three moves. *)
Lemma pool_refills_witness :
  exists s : System MemFile,
    scenario_after_seek = Some s
    /\ queue_get_level (secondaryBufferQueue (rbuf s)) = 3
    /\ exists s' : System MemFile,
         await 3 pool_full s = Done s'
         /\ queue_get_level (secondaryBufferQueue (rbuf s')) = 4.
Proof.
  eexists. split; [vm_compute; reflexivity |].
  split; [reflexivity |].
  match goal with
  | |- exists s', await _ _ ?S = Done s' /\ _ =>
      destruct (@pool_refills MemFile MemFS scenario_config 1 S)
        as (s' & Ha & _ & Hl)
  end.
  - reflexivity.
  - reflexivity.
  - intros _. reflexivity.
  - reflexivity.
  - reflexivity.
  - split; [discriminate | reflexivity].
  - reflexivity.
  - cbn. repeat split; try reflexivity; try discriminate.
    intros H. now contradiction H.
  - exists s'. split; [exact Ha | exact Hl].
Defined.

(** [seek_to_eof_hangs] on the file of 24 bytes: [seek 24] is blocked
    however long the loop runs. *)
Lemma seek_to_eof_hangs_witness :
  seek 1000 24 scenario_system = Blocked.
Proof.
  apply (@seek_to_eof_hangs MemFile MemFS scenario_config scenario_quiet 24
           scenario_system).
  - exact scenario_system_quiescent.
  - reflexivity.
  - reflexivity.
Defined.

(** [disconnect_idle_noop] on the loop that has gone idle at the end of
    file 1, four bytes unread in the window and four chunks queued: a
    disconnect that names file 7 returns after three moves of the loop, not
    after two, and has left all that as it was; the loop has noted the
    request. *)
Lemma disconnect_idle_noop_witness :
  exists s : System MemFile,
    scenario_idle_at_eof = Some s
    /\ _fp (rbuf s) = 1
    /\ loop_req (loop s) = {| req_fp := 1; req_flag := true |}
    /\ exists s' : System MemFile,
         reqBind 3 7 false s = Done s'
         /\ rbuf s' = rbuf s
         /\ getLeft (rbuf s') = 4
         /\ length (elements (secondaryBufferQueue (rbuf s'))) = 4%nat
         /\ pc (loop s') = Idle
         /\ loop_fp (loop s') = 1
         /\ loop_req (loop s') = {| req_fp := 7; req_flag := false |}
         /\ reqBind 3 7 false s' = Done s'
         /\ reqBind 2 7 false s = Blocked.
Proof.
  eexists. split; [vm_compute; reflexivity |].
  split; [reflexivity |]. split; [reflexivity |].
  match goal with
  | |- exists s', reqBind _ _ _ ?S = Done s' /\ _ =>
      destruct (@disconnect_idle_noop MemFile MemFS scenario_config scenario_quiet
                  7 S 3)
        as (_ & (s' & Hr & Hs' & Hrb & _ & Hpc & _ & Hreq & _ & Hagain) & Hwait)
  end.
  - unfold quiescent. repeat split.
  - lia.
  - exists s'. split; [exact Hr |]. split; [exact Hrb |].
    split; [rewrite Hrb; reflexivity |]. split; [rewrite Hrb; reflexivity |].
    split; [exact Hpc |]. split; [rewrite Hs'; reflexivity |].
    split; [exact Hreq |]. split; [exact Hagain |].
    apply Hwait. lia.
Defined.



(** When core 1 makes three moves between the dequeue of l.69 and the
    copies, it has read the next chunk into the slot just freed: [seek 4]
    returns with [tell] at 4 and the window holding bytes 20 to 23 of the
    file. *)
Lemma seek_window_race :
  exists s' : System MemFile,
    @seek MemFile MemFS scenario_config scenario_racing 13 4 scenario_system
    = Done (true, s')
    /\ getLeft (rbuf s') = 4
    /\ tell (rbuf s') = 4
    /\ window (rbuf s') = [Byte.x55; Byte.x56; Byte.x57; Byte.x58]
    /\ firstn 4 (skipn 20 (content scenario_file))
       = [Byte.x55; Byte.x56; Byte.x57; Byte.x58].
Proof.
  eexists. split; [vm_compute; reflexivity |]. repeat split.
Qed.

(** [disconnect_drains] on the small configuration: four chunks are
    queued when the disconnect is sent, none when it returns. *)
Lemma disconnect_drains_witness :
  exists s : System MemFile,
    scenario_streaming = Some s
    /\ length (elements (secondaryBufferQueue (rbuf s))) = 4%nat
    /\ exists s' : System MemFile,
         reqBind 9 1 false s = Done s'
         /\ elements (secondaryBufferQueue (rbuf s')) = []
         /\ pc (loop s') = Idle.
Proof.
  eexists. split; [vm_compute; reflexivity |].
  split; [reflexivity |].
  match goal with
  | |- exists s', reqBind _ _ _ ?S = Done s' /\ _ =>
      destruct (@disconnect_drains MemFile MemFS scenario_config scenario_quiet 1 S 9)
        as (s' & Hr & Hq & _ & _ & Hpc & _)
  end.
  - split; [left; reflexivity | repeat split; reflexivity].
  - cbn. lia.
  - exists s'. split; [exact Hr |]. split; [now rewrite Hq | exact Hpc].
Defined.

(** [connect_while_streaming] on the small configuration, core 1 making
    three moves inside the fill: a request to connect to file 7 leaves the
    object and the loop on file 1. *)
Lemma connect_while_streaming_witness :
  exists s : System MemFile,
    scenario_streaming = Some s
    /\ exists s' : System MemFile,
         @reqBind MemFile MemFS scenario_config scenario_racing 4 7 true s = Done s'
         /\ _fp (rbuf s') = 1
         /\ loop_fp (loop s') = 1
         /\ loop_req (loop s') = {| req_fp := 7; req_flag := true |}.
Proof.
  eexists. split; [vm_compute; reflexivity |].
  match goal with
  | |- exists s', reqBind _ _ _ ?S = Done s' /\ _ =>
      assert (Hspin : pool_spin S)
        by (split; [left; reflexivity | repeat split; reflexivity]);
      assert (Hfull : NUM_SECONDARY_BUFFERS
                      <= queue_get_level (secondaryBufferQueue (rbuf S)))
        by (vm_compute; discriminate);
      destruct (@connect_while_streaming MemFile MemFS scenario_config scenario_racing
                  7 S 4 Hspin Hfull ltac:(lia)) as (_ & Hkeep)
  end.
  eexists. split; [vm_compute; reflexivity |].
  match goal with
  | |- _fp (rbuf ?S') = _ /\ _ =>
      destruct (Hkeep S') as (H1 & H2 & H3); [vm_compute; reflexivity |]
  end.
  split; [rewrite H1; reflexivity |]. split; [rewrite H2; reflexivity | exact H3].
Defined.

(** [seek_keeps_stale_chunks] on the small configuration: the loop went
    idle at the end of the file with the chunks of bytes 8 to 23 queued;
    [seek 0] moves the file to 0 and returns with [tell] at 8. *)
Lemma seek_keeps_stale_chunks_witness :
  exists s : System MemFile,
    scenario_idle_at_eof = Some s
    /\ exists s' : System MemFile,
         seek 3 0 s = Done (true, s')
         /\ f_tell (disk s') 1 = 0
         /\ tell (rbuf s') = 8
         /\ getLeft (rbuf s') = 4.
Proof.
  eexists. split; [vm_compute; reflexivity |].
  match goal with
  | |- exists s', seek _ _ ?S = _ /\ _ =>
      edestruct (@seek_keeps_stale_chunks MemFile MemFS scenario_config scenario_quiet
                   0 S 0%nat)
        as (s' & Hs & Ht & Hl & _)
  end.
  - unfold quiescent. repeat split.
  - reflexivity.
  - reflexivity.
  - reflexivity.
  - reflexivity.
  - split; [discriminate | reflexivity].
  - reflexivity.
  - reflexivity.
  - reflexivity.
  - reflexivity.
  - reflexivity.
  - discriminate.
  - reflexivity.
  - intros H. now contradiction H.
  - exact I.
  - exists s'. split; [apply Hs; lia |].
    split; [| split; [rewrite Ht; reflexivity | rewrite Hl; reflexivity]].
    specialize (Hs 3%nat (le_n _)). vm_compute in Hs. inversion Hs. reflexivity.
Defined.

Lemma scenario_after_steps (n : nat) (s : System MemFile) :
  scenario_after n = Some s -> steps (fillLoop_enter scenario_boot) s.
Proof.
  intros Hm. apply moves_steps in Hm.
  assert (Hfirst : steps (fillLoop_enter scenario_boot)
                     (requested {| req_fp := 1; req_flag := true |} scenario_system)).
  { eapply steps_more; [apply steps_refl |]. apply step_core0.
    apply (c0_request scenario_system {| req_fp := 1; req_flag := true |}). }
  induction Hm as [x | x y z Hxy IHxy Hyz].
  - exact Hfirst.
  - eapply steps_more; [apply IHxy; exact Hfirst | exact Hyz].
Qed.

(** [backpressure] on the small configuration as the loop fills the pool.
    Fifteen moves after the request to connect it is about to publish the
    fourth chunk, with three queued; one move later four are queued, the
    loop is at the test of l.157, and its next move passes the read by. *)
Lemma backpressure_witness :
  (exists s : System MemFile,
      scenario_after 15 = Some s
      /\ pc (loop s) = Publish
      /\ queue_get_level (secondaryBufferQueue (rbuf s)) = 3
      /\ queue_get_level (secondaryBufferQueue (rbuf s)) < 4)
  /\ (exists s : System MemFile,
        scenario_after 16 = Some s
        /\ pc (loop s) = TopUp
        /\ queue_get_level (secondaryBufferQueue (rbuf s)) = 4
        /\ queue_get_level (secondaryBufferQueue (rbuf s)) <= 4
        /\ fillLoop_step s = Some (with_loop (at_pc Poll (loop s)) s)).
Proof.
  split.
  - eexists. split; [vm_compute; reflexivity |].
    split; [reflexivity |]. split; [reflexivity |].
    refine (proj1 (proj2 (backpressure _ _ _)) _).
    + reflexivity.
    + exists scenario_boot. apply (scenario_after_steps 15). vm_compute. reflexivity.
    + right. reflexivity.
  - eexists. split; [vm_compute; reflexivity |].
    split; [reflexivity |]. split; [reflexivity |].
    match goal with
    | |- _ /\ fillLoop_step ?S = _ =>
        destruct (backpressure S) as (Hle & _ & Hpass)
    end.
    + reflexivity.
    + exists scenario_boot. apply (scenario_after_steps 16). vm_compute. reflexivity.
    + split; [exact Hle |]. apply Hpass; reflexivity.
Defined.

(** [no_read_after_eof] on the small configuration, five moves after the
    request to connect: the loop is about to read its first chunk. *)
Lemma no_read_after_eof_witness :
  exists s : System MemFile,
    scenario_after 5 = Some s
    /\ pc (loop s) = Reading
    /\ loop_reachedEof (loop s) = false
    /\ 0 <= loop_id (loop s) < 4.
Proof.
  eexists. split; [vm_compute; reflexivity |].
  split; [reflexivity |].
  destruct (@no_read_after_eof MemFile MemFS scenario_config scenario_boot
              _ ltac:(reflexivity)
              (scenario_after_steps 5 _ ltac:(vm_compute; reflexivity)))
    as (Heof & Hid & _).
  split; [apply Heof; right; reflexivity | exact Hid].
Defined.

(** [queued_items_in_pool] on the small configuration, sixteen moves after
    the request to connect: the four chunks of the full pool lie inside the
    16 bytes of the secondary storage. *)
Lemma queued_items_in_pool_witness :
  exists s : System MemFile,
    scenario_after 16 = Some s
    /\ length (elements (secondaryBufferQueue (rbuf s))) = 4%nat
    /\ Forall (item_ok (rbuf s)) (elements (secondaryBufferQueue (rbuf s))).
Proof.
  eexists. split; [vm_compute; reflexivity |].
  split; [reflexivity |].
  exact (proj1 (@queued_items_in_pool MemFile MemFS scenario_config scenario_boot
                  _ ltac:(reflexivity) ltac:(reflexivity) memfs_reads_bounded
                  ltac:(reflexivity)
                  (scenario_after_steps 16 _ ltac:(vm_compute; reflexivity)))).
Defined.

(** * The battery monitor *)

Lemma obind_done {A : Type} (o : outcome A) : (x <- o ;; Done x) = o.
Proof. now destruct o. Qed.

Lemma pm_ticks_app (adcs : list Z) (adc : Z) (pm : PowerManage) :
  pm_ticks (adcs ++ [adc]) pm
  = (pm1 <- pm_ticks adcs pm ;; pm_monitor_battery_voltage adc pm1).
Proof.
  revert pm. induction adcs as [| a l IH]; intros pm; cbn [app pm_ticks].
  - cbn [obind]. apply obind_done.
  - destruct (pm_monitor_battery_voltage a pm) as [pm' | |]; cbn [obind];
      [apply IH | reflexivity | reflexivity].
Qed.

(** X12: the schedule of the battery monitor.  Called once per timer tick
    from reset, for any number of ticks up to INT_MAX,
    [pm_monitor_battery_voltage] completes; the battery-check pin is high
    exactly when the number of calls made is 99 modulo 100, that is for the
    one tick before each measurement; and the stored voltage is the
    initial 4200 until the hundredth call and from then on the conversion
    of the ADC value read at the last call whose number is a multiple of
    100. *)
Theorem pm_schedule (adcs : list Z) :
  Z.of_nat (length adcs) <= INT_MAX ->
  exists pm : PowerManage,
    pm_ticks adcs pm_reset = Done pm
    /\ count pm = Z.of_nat (length adcs)
    /\ PIN_BATT_CHECK pm = (Z.of_nat (length adcs) mod 100 =? 99)
    /\ pm_get_battery_voltage pm
       = if Z.of_nat (length adcs) <? 100 then 4200
         else battery_mv
                (to_uint16
                   (nth (Z.to_nat (100 * (Z.of_nat (length adcs) / 100) - 1)) adcs 0)).
Proof.
  induction adcs as [| adc l IH] using rev_ind; intros Hn.
  - exists pm_reset. repeat split.
  - rewrite length_app in Hn |- *. cbn [length] in Hn |- *.
    rewrite Nat2Z.inj_add in Hn |- *. change (Z.of_nat 1) with 1 in Hn |- *.
    set (m := Z.of_nat (length l)) in *.
    assert (Hm : 0 <= m) by (unfold m; lia).
    destruct IH as (pm & Hrun & Hc & Hpin & Hmv); [lia |].
    rewrite pm_ticks_app, Hrun. cbn [obind].
    unfold pm_monitor_battery_voltage, pm_get_battery_voltage in *.
    change (TIMER_BATTERY_CHECK_HZ * BATT_CHECK_INTERVAL_SEC) with 100.
    change (100 - 2) with 98. change (100 - 1) with 99.
    rewrite Hc, Z.rem_mod_nonneg by lia.
    destruct (m mod 100 =? 98) eqn:H98; [| destruct (m mod 100 =? 99) eqn:H99].
    + (* the tick before a measurement *)
      apply Z.eqb_eq in H98. cbn [count _bat_mv PIN_BATT_CHECK].
      replace (m <? INT_MAX) with true by (symmetry; apply Z.ltb_lt; lia).
      eexists. split; [reflexivity |]. cbn [count _bat_mv PIN_BATT_CHECK].
      split; [reflexivity |]. split.
      * symmetry. apply Z.eqb_eq. Z.to_euclidean_division_equations. lia.
      * rewrite Hmv.
        replace ((m + 1) / 100) with (m / 100)
          by (Z.to_euclidean_division_equations; lia).
        replace (m + 1 <? 100) with (m <? 100)
          by (apply eq_true_iff_eq; rewrite !Z.ltb_lt;
              Z.to_euclidean_division_equations; lia).
        destruct (m <? 100) eqn:Hlt; [reflexivity |]. apply Z.ltb_ge in Hlt.
        rewrite app_nth1; [reflexivity |].
        apply Nat2Z.inj_lt. fold m. rewrite Z2Nat.id;
          Z.to_euclidean_division_equations; lia.
    + (* the measurement *)
      apply Z.eqb_eq in H99. cbn [count _bat_mv PIN_BATT_CHECK].
      replace (m <? INT_MAX) with true by (symmetry; apply Z.ltb_lt; lia).
      eexists. split; [reflexivity |]. cbn [count _bat_mv PIN_BATT_CHECK].
      split; [reflexivity |]. split.
      * symmetry. apply Z.eqb_neq. Z.to_euclidean_division_equations. lia.
      * replace (m + 1 <? 100) with false
          by (symmetry; apply Z.ltb_ge; Z.to_euclidean_division_equations; lia).
        replace (100 * ((m + 1) / 100) - 1) with m
          by (Z.to_euclidean_division_equations; lia).
        unfold m. rewrite Nat2Z.id, app_nth2, Nat.sub_diag by lia. reflexivity.
    + (* any other tick *)
      apply Z.eqb_neq in H98, H99. cbv zeta. rewrite Hc.
      replace (m <? INT_MAX) with true by (symmetry; apply Z.ltb_lt; lia).
      eexists. split; [reflexivity |]. cbn [count _bat_mv PIN_BATT_CHECK].
      split; [reflexivity |].
      split.
      * rewrite Hpin.
        symmetry. apply Z.eqb_neq. Z.to_euclidean_division_equations. lia.
      * rewrite Hmv.
        replace ((m + 1) / 100) with (m / 100)
          by (Z.to_euclidean_division_equations; lia).
        replace (m + 1 <? 100) with (m <? 100)
          by (apply eq_true_iff_eq; rewrite !Z.ltb_lt;
              Z.to_euclidean_division_equations; lia).
        destruct (m <? 100) eqn:Hlt; [reflexivity |]. apply Z.ltb_ge in Hlt.
        rewrite app_nth1; [reflexivity |].
        apply Nat2Z.inj_lt. fold m. rewrite Z2Nat.id;
          Z.to_euclidean_division_equations; lia.
Qed.

(** [pm_schedule] on a hundred ticks with the ADC at 3000. *)
Lemma pm_schedule_witness :
  exists pm : PowerManage,
    pm_ticks (repeat 3000 100) pm_reset = Done pm
    /\ count pm = 100
    /\ PIN_BATT_CHECK pm = false
    /\ pm_get_battery_voltage pm = 3114.
Proof.
  destruct (pm_schedule (repeat 3000 100)) as (pm & Hr & Hc & Hp & Hv).
  - rewrite repeat_length. unfold INT_MAX. lia.
  - exists pm. split; [exact Hr |].
    split; [rewrite Hc; reflexivity |].
    split; [rewrite Hp; reflexivity | rewrite Hv; reflexivity].
Defined.

(** X13: what a measurement stores and when the battery counts as low.
    At a measuring tick, for a 12-bit ADC result [r], the stored voltage
    is r * 4280 / 4096 - 20 when [r] is at least 20; for a result below 20
    the difference is negative and is stored, as a uint16_t, as 65516 and
    more.  So [pm_get_low_battery] holds exactly for results from 20 to
    2794: the lowest readings do not count as a low battery. *)
Theorem low_battery_range (r : Z) (pm : PowerManage) :
  0 <= r < 4096 ->
  0 <= count pm < INT_MAX ->
  Z.rem (count pm) 100 = 99 ->
  exists pm' : PowerManage,
    pm_monitor_battery_voltage r pm = Done pm'
    /\ pm_get_battery_voltage pm'
       = (if r <? 20 then 65516 + r * 4280 / 4096 else r * 4280 / 4096 - 20)
    /\ pm_get_low_battery pm' = (20 <=? r) && (r <=? 2794).
Proof.
  intros Hr Hc H99. unfold pm_monitor_battery_voltage.
  change (TIMER_BATTERY_CHECK_HZ * BATT_CHECK_INTERVAL_SEC) with 100.
  change (100 - 2) with 98. change (100 - 1) with 99. rewrite H99.
  cbn [Z.eqb Pos.eqb count _bat_mv PIN_BATT_CHECK].
  replace (count pm <? INT_MAX) with true by (symmetry; apply Z.ltb_lt; lia).
  eexists. split; [reflexivity |].
  unfold pm_get_battery_voltage, pm_get_low_battery. cbn [_bat_mv].
  assert (Hmv : battery_mv (to_uint16 r)
                = if r <? 20 then 65516 + r * 4280 / 4096 else r * 4280 / 4096 - 20).
  { unfold battery_mv, to_uint16, to_int16.
    change (Z.shiftl 1 12) with 4096. change (2 ^ 16) with 65536.
    change (2 ^ 15) with 32768.
    rewrite (Z.mod_small r) by lia.
    rewrite Z.quot_div_nonneg by lia.
    assert (Hq : 0 <= r * 4280 / 4096 <= 4279)
      by (Z.to_euclidean_division_equations; lia).
    rewrite (Z.mod_small (r * 4280 / 4096 + -20 + 32768)) by lia.
    destruct (r <? 20) eqn:Hlt.
    - apply Z.ltb_lt in Hlt.
      assert (Hq' : r * 4280 / 4096 < 20)
        by (Z.to_euclidean_division_equations; lia).
      replace (r * 4280 / 4096 + -20 + 32768 - 32768)
        with (65516 + r * 4280 / 4096 + (-1) * 65536) by lia.
      rewrite Z.mod_add by lia. apply Z.mod_small. lia.
    - apply Z.ltb_ge in Hlt.
      assert (Hq' : 20 <= r * 4280 / 4096)
        by (Z.to_euclidean_division_equations; lia).
      replace (r * 4280 / 4096 + -20 + 32768 - 32768)
        with (r * 4280 / 4096 - 20) by lia.
      apply Z.mod_small. lia. }
  split; [exact Hmv |]. rewrite Hmv.
  destruct (r <? 20) eqn:Hlt.
  - apply Z.ltb_lt in Hlt.
    replace (20 <=? r) with false by (symmetry; apply Z.leb_gt; lia).
    cbn [andb]. apply Z.ltb_ge. Z.to_euclidean_division_equations. lia.
  - apply Z.ltb_ge in Hlt.
    replace (20 <=? r) with true by (symmetry; apply Z.leb_le; lia).
    cbn [andb]. apply eq_true_iff_eq. rewrite Z.ltb_lt, Z.leb_le.
    Z.to_euclidean_division_equations. lia.
Qed.

(** [low_battery_range] at the results 10 and 3000. *)
Lemma low_battery_range_witness :
  (exists pm' : PowerManage,
      pm_monitor_battery_voltage 10
        {| count := 99; _bat_mv := 4200; PIN_BATT_CHECK := true |} = Done pm'
      /\ pm_get_battery_voltage pm' = 65526
      /\ pm_get_low_battery pm' = false)
  /\ (exists pm' : PowerManage,
        pm_monitor_battery_voltage 2000
          {| count := 99; _bat_mv := 4200; PIN_BATT_CHECK := true |} = Done pm'
        /\ pm_get_battery_voltage pm' = 2069
        /\ pm_get_low_battery pm' = true).
Proof.
  split.
  - destruct (low_battery_range 10
                {| count := 99; _bat_mv := 4200; PIN_BATT_CHECK := true |})
      as (pm' & Hm & Hv & Hl).
    + lia.
    + cbn. unfold INT_MAX. lia.
    + reflexivity.
    + exists pm'. split; [exact Hm |]. split; [exact Hv | exact Hl].
  - destruct (low_battery_range 2000
                {| count := 99; _bat_mv := 4200; PIN_BATT_CHECK := true |})
      as (pm' & Hm & Hv & Hl).
    + lia.
    + cbn. unfold INT_MAX. lia.
    + reflexivity.
    + exists pm'. split; [exact Hm |]. split; [exact Hv | exact Hl].
Defined.

(** * The battery icon *)

(** X14: the level that [setBatteryVoltage] stores, for a voltage [v] in
    millivolts.  From 2900 to 5971 it is (v - 2900) / 12, capped at 100;
    from 2889 to 2899 it is 0; but from 1017 to 2888 the negative quotient,
    passed as a uint8_t, is 100 or more, and the level stored is 100.
    The level is always between 0 and 100.  If it is the level the icon
    has, nothing is done; otherwise it is stored, no other member being
    written, and [update] is called on the object, once.  So the level of
    the icon is this one afterwards, if [update] leaves the level alone. *)
Theorem battery_level (update : BatteryIconBox -> BatteryIconBox)
    (v : Z) (b : BatteryIconBox) :
  0 <= v < 2 ^ 16 ->
  exists value : Z,
    (2900 <= v <= 5971 -> value = Z.min 100 ((v - 2900) / 12))
    /\ (2889 <= v <= 2899 -> value = 0)
    /\ (1017 <= v <= 2888 -> value = 100)
    /\ 0 <= value <= 100
    /\ (level b = value -> setBatteryVoltage update v b = (b, []))
    /\ (level b <> value ->
        setBatteryVoltage update v b
        = (update (with_level value b), [call_update]))
    /\ (pos_x (with_level value b), pos_y (with_level value b),
        icon (with_level value b), fgColor (with_level value b),
        bgColor (with_level value b), bgOpaque (with_level value b),
        isUpdated (with_level value b))
       = (pos_x b, pos_y b, icon b, fgColor b, bgColor b, bgOpaque b, isUpdated b)
    /\ ((forall x : BatteryIconBox, level (update x) = level x) ->
        level (fst (setBatteryVoltage update v b)) = value).
Proof.
  intros Hv.
  set (value := let x := to_uint8 (Z.quot ((to_uint16 v - 2900) * 100) (4100 - 2900)) in
                if x <=? 100 then x else 100).
  assert (Hsame : level b = value -> setBatteryVoltage update v b = (b, [])).
  { intros He. unfold setBatteryVoltage, setLevel. fold value.
    apply Z.eqb_eq in He. now rewrite He. }
  assert (Hnew : level b <> value ->
                 setBatteryVoltage update v b
                 = (update (with_level value b), [call_update])).
  { intros Hne. unfold setBatteryVoltage, setLevel. fold value.
    apply Z.eqb_neq in Hne. now rewrite Hne. }
  assert (Hval :
            (2900 <= v <= 5971 -> value = Z.min 100 ((v - 2900) / 12))
            /\ (2889 <= v <= 2899 -> value = 0)
            /\ (1017 <= v <= 2888 -> value = 100)
            /\ 0 <= value <= 100).
  { unfold value, to_uint8, to_uint16. change (2 ^ 16) with 65536 in *.
    change (2 ^ 8) with 256. change (4100 - 2900) with 1200.
    rewrite (Z.mod_small v) by lia. cbv zeta.
    set (q := Z.quot ((v - 2900) * 100) 1200).
    assert (Hm : 0 <= q mod 256 < 256) by (apply Z.mod_pos_bound; lia).
    split; [| split; [| split]].
    - intros Hr.
      assert (Hq : q = (v - 2900) / 12 /\ 0 <= q < 256)
        by (unfold q; Z.to_euclidean_division_equations; lia).
      destruct Hq as (Hq & Hq'). rewrite Z.mod_small by lia. rewrite <- Hq.
      destruct (q <=? 100) eqn:Hle; [apply Z.leb_le in Hle | apply Z.leb_gt in Hle]; lia.
    - intros Hr.
      assert (Hq : q = 0) by (unfold q; Z.to_euclidean_division_equations; lia).
      rewrite Hq. reflexivity.
    - intros Hr.
      assert (Hq : -156 <= q <= -1) by (unfold q; Z.to_euclidean_division_equations; lia).
      assert (Hw : q mod 256 = q + 256).
      { replace q with (q + 256 + (-1) * 256) at 1 by lia.
        rewrite Z.mod_add by lia. apply Z.mod_small. lia. }
      rewrite Hw.
      destruct (q + 256 <=? 100) eqn:Hle;
        [apply Z.leb_le in Hle; lia | reflexivity].
    - destruct (q mod 256 <=? 100) eqn:Hle;
        [apply Z.leb_le in Hle; lia | lia]. }
  destruct Hval as (H1 & H2 & H3 & H4).
  exists value.
  split; [exact H1 |]. split; [exact H2 |]. split; [exact H3 |].
  split; [exact H4 |]. split; [exact Hsame |]. split; [exact Hnew |].
  split; [reflexivity |].
  intros Hupd. destruct (Z.eq_dec (level b) value) as [He | Hne].
  - rewrite (Hsame He). exact He.
  - rewrite (Hnew Hne). cbn [fst]. rewrite Hupd. reflexivity.
Qed.

(** [battery_level] on an icon at level 0 that is not due to be drawn,
    with an [update] that marks it: 3500 mV stores 50, and the next [draw]
    paints the icon; 2880 mV stores 100. *)
Lemma battery_level_witness :
  setBatteryVoltage scenario_update 3500 (scenario_battery 0 false)
  = (scenario_battery 50 true, [call_update])
  /\ snd (draw (scenario_battery 0 false)) = []
  /\ snd (draw (fst (setBatteryVoltage scenario_update 3500
                       (scenario_battery 0 false))))
     = [call_clear; LCD_ShowIcon 144 0 0 true 0x8410;
        LCD_Fill 148 4 155 7 0; LCD_Fill 148 8 155 13 0x0600]
  /\ level (fst (setBatteryVoltage scenario_update 2880
                   (scenario_battery 0 false))) = 100.
Proof.
  destruct (battery_level scenario_update 3500 (scenario_battery 0 false))
    as (value & H1 & _ & _ & _ & _ & Hnew & _); [lia |].
  assert (Hv : value = 50) by (rewrite H1 by lia; reflexivity).
  subst value.
  assert (Hset : setBatteryVoltage scenario_update 3500 (scenario_battery 0 false)
                 = (scenario_battery 50 true, [call_update])).
  { rewrite Hnew by (cbn; lia). reflexivity. }
  split; [exact Hset |]. split; [reflexivity |].
  split; [rewrite Hset; reflexivity |].
  destruct (battery_level scenario_update 2880 (scenario_battery 0 false))
    as (value & _ & _ & H3 & _ & _ & _ & _ & Hlevel); [lia |].
  rewrite Hlevel by reflexivity. apply H3. lia.
Defined.

(** X15: what [draw] paints.  An icon marked as updated, with a level of
    at most 100, is cleared and shown, and then the bar is painted: it has
    level / 10 + 1 rows and ends at row pos_y + 13, in green from level
    50, yellow from 20 and red below.  Up to level 89 the rows from
    pos_y + 4 to the one above the bar are first painted in the
    background colour; from 90 to 99 the bar itself starts at pos_y + 4;
    at level 100 it starts at pos_y + 3, one row higher than the
    background is ever painted.  The icon is then no longer marked, and
    drawing it again paints nothing. *)
Theorem battery_bar (b : BatteryIconBox) :
  isUpdated b = true ->
  0 <= level b <= 100 ->
  let top := pos_y b + 13 - level b / 10 in
  let color := if level b <? 20 then 0xc000
               else if level b <? 50 then 0xc600 else 0x0600 in
  let bar := LCD_Fill (pos_x b + 4) top (pos_x b + 11) (pos_y b + 13) color in
  snd (draw b)
  = [call_clear;
     LCD_ShowIcon (pos_x b) (pos_y b) (icon b) (negb (bgOpaque b)) (fgColor b)]
    ++ (if level b <? 90
        then [LCD_Fill (pos_x b + 4) (pos_y b + 4) (pos_x b + 11) (top - 1) (bgColor b)]
        else [])
    ++ [bar]
  /\ fill_rows bar = level b / 10 + 1
  /\ (level b <= 99 -> pos_y b + 4 <= top)
  /\ (90 <= level b <= 99 -> top = pos_y b + 4)
  /\ (level b = 100 -> top = pos_y b + 3)
  /\ isUpdated (fst (draw b)) = false
  /\ level (fst (draw b)) = level b
  /\ draw (fst (draw b)) = (fst (draw b), []).
Proof.
  intros Hu Hl top color bar. unfold draw. rewrite Hu. cbn [negb fst snd isUpdated level].
  rewrite Z.quot_div_nonneg by lia.
  set (q := level b / 10) in *.
  assert (Hq : 0 <= q <= 10 /\ (q < 9 <-> level b < 90) /\ (level b <= 99 -> q <= 9)
               /\ (90 <= level b <= 99 -> q = 9) /\ (level b = 100 -> q = 10))
    by (unfold q; Z.to_euclidean_division_equations; lia).
  destruct Hq as (Hq0 & Hq9 & Hq99 & Hq90 & Hq100).
  assert (Hcol : (if 50 <=? level b then 0x0600
                  else if 20 <=? level b then 0xc600 else 0xc000) = color).
  { unfold color.
    destruct (50 <=? level b) eqn:H50; destruct (20 <=? level b) eqn:H20;
      destruct (level b <? 20) eqn:L20; destruct (level b <? 50) eqn:L50;
      try reflexivity;
      repeat match goal with
             | H : (_ <=? _) = true |- _ => apply Z.leb_le in H
             | H : (_ <=? _) = false |- _ => apply Z.leb_gt in H
             | H : (_ <? _) = true |- _ => apply Z.ltb_lt in H
             | H : (_ <? _) = false |- _ => apply Z.ltb_ge in H
             end; lia. }
  assert (Hbg : (q <? 9) = (level b <? 90)).
  { apply eq_true_iff_eq. rewrite !Z.ltb_lt. exact Hq9. }
  split; [| split; [| split; [| split; [| split; [| split; [| split]]]]]].
  - rewrite Hcol, Hbg. unfold bar, top.
    replace (pos_x b + 4 + 8 - 1) with (pos_x b + 11) by lia.
    replace (pos_y b + 13 - q + q + 1 - 1) with (pos_y b + 13) by lia.
    replace (pos_y b + 4 + 10 - q - 1 - 1) with (pos_y b + 13 - q - 1) by lia.
    reflexivity.
  - unfold bar, fill_rows, top. lia.
  - unfold top. lia.
  - unfold top. lia.
  - unfold top. lia.
  - reflexivity.
  - reflexivity.
  - reflexivity.
Qed.

(** [battery_bar] at level 100: the bar runs from row 3 to row 13. *)
Lemma battery_bar_witness :
  snd (draw (scenario_battery 100 true))
  = [call_clear; LCD_ShowIcon 144 0 0 true 0x8410; LCD_Fill 148 3 155 13 0x0600].
Proof.
  destruct (battery_bar (scenario_battery 100 true)) as (H & _).
  - reflexivity.
  - cbn. lia.
  - exact H.
Defined.

(** * The play screen *)

Ltac in_list := cbn; repeat (first [left; reflexivity | right]).

(** A call that clears the screen, and one that does not. *)
Ltac switching :=
  split; [reflexivity |]; split; [in_list |];
  split; [| split; [| split]];
  [ intros g Hg; cbn; split;
    [ intros [H | [H | [H | [H | [H | []]]]]]; inversion H; congruence
    | intros ->; auto ]
  | split; [intros _; discriminate | intros _; in_list]
  | intros _; split; in_list
  | discriminate ].

Ltac staying :=
  split; [reflexivity |]; split; [in_list |];
  split; [| split; [| split]];
  [ intros g Hg; cbn; split;
    [ intros [H | [H | []]]; inversion H; congruence
    | intros ->; auto ]
  | cbn; split; [intros [H | [H | []]]; discriminate | congruence]
  | cbn; intros [H | [H | []]]; discriminate
  | discriminate ].

(** X16: the play screen is cleared exactly when the mode changes.  With
    0 < play_change < play_cycle and a count that is not negative, a call
    of [drawPlay] draws the common group and the group of the mode it
    displays, and not the other one; it clears the screen if and only if
    the next call displays the other mode, and it then marks the common
    group and the group of that next mode for redrawing.  Without an image
    the mode is always mode 0 and the screen is never cleared. *)
Theorem play_mode_switch {cycle : PlayCycle} (c c' : LcdCanvas)
    (calls : list canvas_call) :
  0 < play_change < play_cycle ->
  0 <= play_count c ->
  drawPlay c = Done (c', calls) ->
  play_count c' = play_count c + 1
  /\ In (group_draw groupPlay) calls
  /\ (forall g : group, g <> groupPlay ->
        (In (group_draw g) calls <-> g = displayed c))
  /\ (In (canvas_clear false) calls <-> displayed c' <> displayed c)
  /\ (In (canvas_clear false) calls ->
      In (group_update groupPlay) calls /\ In (group_update (displayed c')) calls)
  /\ (image_hasImage c = false ->
      displayed c = groupPlay0 /\ ~ In (canvas_clear false) calls).
Proof.
  intros Hcfg Hcount Hd. unfold drawPlay in Hd.
  replace (play_cycle =? 0) with false in Hd by (symmetry; apply Z.eqb_neq; lia).
  destruct (play_count c <? INT_MAX) eqn:Hmax; [| discriminate].
  inversion Hd; subst c' calls. clear Hd.
  unfold displayed. cbn [play_count image_hasImage].
  rewrite !Z.rem_mod_nonneg by lia.
  set (m := play_count c mod play_cycle).
  set (m' := (play_count c + 1) mod play_cycle).
  assert (Hm : 0 <= m < play_cycle) by (apply Z.mod_pos_bound; lia).
  assert (Hm' : (m < play_cycle - 1 -> m' = m + 1) /\ (m = play_cycle - 1 -> m' = 0)).
  { unfold m, m'. split; intros Hx.
    - rewrite Zplus_mod. fold m. rewrite (Z.mod_small 1) by lia.
      apply Z.mod_small. lia.
    - rewrite Zplus_mod. rewrite (Z.mod_small 1) by lia.
      rewrite Hx. replace (play_cycle - 1 + 1) with play_cycle by lia.
      apply Z.mod_same. lia. }
  destruct Hm' as (Hnext & Hwrap).
  destruct (image_hasImage c) eqn:Himg; cbn [negb orb andb].
  - (* with an image *)
    rewrite !orb_false_r, !andb_true_r.
    destruct (m <? play_change) eqn:Hlt;
      [apply Z.ltb_lt in Hlt | apply Z.ltb_ge in Hlt].
    + destruct (m =? play_change - 1) eqn:Hlast;
        [apply Z.eqb_eq in Hlast | apply Z.eqb_neq in Hlast].
      * (* the last call of mode 0 *)
        replace (m' <? play_change) with false
          by (symmetry; apply Z.ltb_ge; rewrite Hnext; lia).
        switching.
      * replace (m' <? play_change) with true
          by (symmetry; apply Z.ltb_lt; rewrite Hnext; lia).
        staying.
    + destruct (m =? play_cycle - 1) eqn:Hlast;
        [apply Z.eqb_eq in Hlast | apply Z.eqb_neq in Hlast].
      * (* the last call of mode 1 *)
        replace (m' <? play_change) with true
          by (symmetry; apply Z.ltb_lt; rewrite (Hwrap Hlast); lia).
        switching.
      * replace (m' <? play_change) with false
          by (symmetry; apply Z.ltb_ge; rewrite Hnext; lia).
        staying.
  - (* without an image *)
    rewrite !orb_true_r, !andb_false_r.
    split; [reflexivity |]. split; [in_list |].
    split; [| split; [| split]].
    + intros g Hg. cbn. split.
      * intros [H | [H | []]]; inversion H; congruence.
      * intros ->. auto.
    + cbn. split.
      * intros [H | [H | []]]; discriminate.
      * congruence.
    + cbn. intros [H | [H | []]]; discriminate.
    + intros _. split; [reflexivity |]. cbn. intros [H | [H | []]]; discriminate.
Qed.

(** [play_mode_switch] on the 350th call after [switchToPlay], with an
    image: the call displays mode 0 and clears the screen for mode 1. *)
Lemma play_mode_switch_witness :
  exists (c' : LcdCanvas) (calls : list canvas_call),
    drawPlay {| play_count := 349; image_hasImage := true |} = Done (c', calls)
    /\ displayed {| play_count := 349; image_hasImage := true |} = groupPlay0
    /\ displayed c' = groupPlay1
    /\ In (canvas_clear false) calls.
Proof.
  eexists. eexists. split; [reflexivity |].
  split; [reflexivity |]. split; [reflexivity |].
  refine (proj2 (proj1 (proj2 (proj2 (proj2
            (@play_mode_switch scenario_cycle
               {| play_count := 349; image_hasImage := true |} _ _ _ _ eq_refl)))))
            _).
  - cbn. lia.
  - cbn. lia.
  - discriminate.
Defined.
